(** * nuclideUri: local paths, [nuclide://host/path] URIs and archive members

    A shallow embedding of the [nuclideUri] module (the second document of
    [DiagnosticUpdater.js]) and the verification of its specification,
    followed by further properties of the module and of
    [generateDistinctNames] from the open-files list (the third document).

    Strings are [String.string]; JavaScript numbers that index strings are
    [Z] wherever the source can make them negative ([indexOf] returning
    [-1], [index - ext.length] in [_isArchiveSeparator]).  A thrown [Error]
    or a failed [invariant] is the [Err] case of [result]. *)

From Stdlib Require Import String Ascii List ZArith Lia Bool.
Import ListNotations.
Open Scope string_scope.

(* ================================================================== *)
(** * JavaScript string primitives used by the module *)
(* ================================================================== *)

Module JS.

(** [s.slice(n)] for [0 <= n]. *)
Fixpoint drop (n : nat) (s : string) : string :=
  match n, s with
  | O, _ => s
  | S _, EmptyString => EmptyString
  | S k, String _ s' => drop k s'
  end.

(** [s.slice(0, n)] for [0 <= n]. *)
Fixpoint take (n : nat) (s : string) : string :=
  match n, s with
  | O, _ => EmptyString
  | S _, EmptyString => EmptyString
  | S k, String c s' => String c (take k s')
  end.

(** [s.startsWith(pat)]. *)
Fixpoint startsWith (s pat : string) {struct pat} : bool :=
  match pat with
  | EmptyString => true
  | String p pat' =>
      match s with
      | EmptyString => false
      | String c s' => Ascii.eqb c p && startsWith s' pat'
      end
  end.

Arguments startsWith : simpl nomatch.

(** [s.endsWith(pat)]. *)
Definition endsWith (s pat : string) : bool :=
  (String.length pat <=? String.length s)%nat
  && String.eqb (drop (String.length s - String.length pat) s) pat.

(** Offset of the first occurrence of [pat] in [s]. *)
Fixpoint find (s pat : string) {struct s} : option nat :=
  if startsWith s pat then Some O
  else match s with
       | EmptyString => None
       | String _ s' => option_map S (find s' pat)
       end.

(** [s.indexOf(pat, from)]: the start position is clamped to
    [0 .. s.length]; the result is [-1] when there is no occurrence. *)
Definition indexOf (s pat : string) (from : Z) : Z :=
  let k := Z.to_nat (Z.min (Z.max from 0) (Z.of_nat (String.length s))) in
  match find (drop k s) pat with
  | Some i => Z.of_nat (k + i)
  | None => (-1)%Z
  end.

(** [s.charAt(i)]: the empty string out of range.  [s[i] === c] for a
    one-character [c] is [charAt s i =? c] as well. *)
Definition charAt (s : string) (i : Z) : string :=
  if (i <? 0)%Z then EmptyString
  else match get (Z.to_nat i) s with
       | Some c => String c EmptyString
       | None => EmptyString
       end.

(** [s.replace(pat, rep)] with a string pattern: only the first occurrence
    is replaced ([rep] holds no [$] in this module). *)
Fixpoint replace (s pat rep : string) {struct s} : string :=
  if startsWith s pat then rep ++ drop (String.length pat) s
  else match s with
       | EmptyString => EmptyString
       | String c s' => String c (replace s' pat rep)
       end.

(** [s.split(sep)] for a non-empty separator; [skip] counts the characters
    of a separator occurrence that remain to be passed over. *)
Fixpoint split_go (sep : string) (skip : nat) (s : string) : list string :=
  match s with
  | EmptyString => [EmptyString]
  | String c s' =>
      match skip with
      | S k => split_go sep k s'
      | O =>
          if startsWith s sep
          then EmptyString :: split_go sep (String.length sep - 1) s'
          else match split_go sep O s' with
               | x :: xs => String c x :: xs
               | [] => [String c EmptyString]
               end
      end
  end.

Definition split (s sep : string) : list string := split_go sep O s.

(** [xs.join(sep)]. *)
Definition join (xs : list string) (sep : string) : string :=
  String.concat sep xs.

(** [s.includes(pat)], that is [s.indexOf(pat) !== -1]. *)
Definition includes (s pat : string) : bool :=
  match find s pat with
  | Some _ => true
  | None => false
  end.

(** Whether the character [c] occurs in [s]: [s.indexOf(c) >= 0]. *)
Fixpoint hasChar (c : ascii) (s : string) : bool :=
  match s with
  | EmptyString => false
  | String a s' => Ascii.eqb a c || hasChar c s'
  end.

(** [s.slice(0, -n)] for [0 < n]. *)
Definition dropRight (n : nat) (s : string) : string :=
  take (String.length s - n) s.

(** [s.replace(/c/g, rep)] for a one-character pattern: every occurrence is
    replaced ([rep] holds no [$] in this module). *)
Fixpoint replaceAllChar (c : ascii) (rep : string) (s : string) : string :=
  match s with
  | EmptyString => EmptyString
  | String a s' =>
      if Ascii.eqb a c then rep ++ replaceAllChar c rep s'
      else String a (replaceAllChar c rep s')
  end.

End JS.

(* ================================================================== *)
(** * Errors *)
(* ================================================================== *)

(** The module throws plain [Error]s and failed [invariant]s; they are
    told apart by the kind the specification gives each throw site. *)
Inductive Error : Type :=
| IllegalLocation        (* Atom URI, trailing archive separator, bad parse *)
| WrongKind              (* remote where local is required, or conversely *)
| CrossHostError         (* [relative] across hosts *)
| UnsupportedArchiveJoin (* [archiveJoin] on a non-archive *)
| MissingEnvironment     (* [expandHomeDir] without a home variable *)
| EmptyRemotePath.       (* [createRemoteUri] with an empty path *)

Inductive result (A : Type) : Type :=
| Ok (a : A)
| Err (e : Error).
Arguments Ok {A} a.
Arguments Err {A} e.

Definition bind {A B} (r : result A) (k : A -> result B) : result B :=
  match r with
  | Ok a => k a
  | Err e => Err e
  end.

Declare Scope result_scope.
Delimit Scope result_scope with result.
Notation "x <- r ;; k" := (bind r (fun x => k))
  (at level 61, r at next level, right associativity) : result_scope.
Notation "r ;;; k" := (bind r (fun _ => k))
  (at level 61, right associativity) : result_scope.
Open Scope result_scope.

(** [invariant(cond, ...)] and [if (!cond) throw ...]. *)
Definition invariant (cond : bool) (e : Error) : result unit :=
  if cond then Ok tt else Err e.

(* ================================================================== *)
(** * Path dialects and the archive codec *)
(* ================================================================== *)

(** [pathModule.posix] and [pathModule.win32]. *)
Inductive PathModule : Type := posix | win32.

Definition PathModule_eqb (a b : PathModule) : bool :=
  match a, b with
  | posix, posix | win32, win32 => true
  | _, _ => false
  end.

Definition sep (m : PathModule) : string :=
  match m with posix => "/" | win32 => "\" end.

Definition delimiter (m : PathModule) : string :=
  match m with posix => ":" | win32 => ";" end.

Definition ARCHIVE_SEPARATOR : string := "!".
Definition KNOWN_ARCHIVE_EXTENSIONS : list string := [".jar"; ".zip"].
Definition REMOTE_PATH_URI_PREFIX : string := "nuclide://".

Definition _isArchiveSeparator (path : string) (index : Z) : bool :=
  (index <? Z.of_nat (String.length path))%Z
  && String.eqb (JS.charAt path index) ARCHIVE_SEPARATOR
  && existsb
       (fun ext =>
          let extStart := (index - Z.of_nat (String.length ext))%Z in
          (JS.indexOf path ext extStart =? extStart)%Z)
       KNOWN_ARCHIVE_EXTENSIONS.

Definition _endsWithArchiveSeparator (path : string) : bool :=
  _isArchiveSeparator path (Z.of_nat (String.length path) - 1).

Definition _trimArchiveSuffix (path : string) : string :=
  if _endsWithArchiveSeparator path
  then JS.take (String.length path - String.length ARCHIVE_SEPARATOR) path
  else path.

Definition _archiveEncode (uriPathModule : PathModule) (uri : string) : string :=
  if (JS.indexOf uri ARCHIVE_SEPARATOR 0 <? 0)%Z then uri
  else
    fold_left
      (fun acc ext =>
         JS.replace acc (ext ++ ARCHIVE_SEPARATOR)
           (ext ++ ARCHIVE_SEPARATOR ++ sep uriPathModule))
      KNOWN_ARCHIVE_EXTENSIONS uri.

Definition _archiveDecode (uriPathModule : PathModule) (uri : string) : string :=
  if (JS.indexOf uri ARCHIVE_SEPARATOR 0 <? 0)%Z then uri
  else
    _trimArchiveSuffix
      (fold_left
         (fun acc ext =>
            JS.replace acc (ext ++ ARCHIVE_SEPARATOR ++ sep uriPathModule)
              (ext ++ ARCHIVE_SEPARATOR))
         KNOWN_ARCHIVE_EXTENSIONS uri).

Definition _archiveEncodeArrayInPlace (uriPathModule : PathModule)
    (array : list string) : list string :=
  map (_archiveEncode uriPathModule) array.

Definition _matchTrailingArchive (uri other : string) : string :=
  if (String.length uri <? String.length other)%nat
     && JS.startsWith other uri
     && _isArchiveSeparator other (Z.of_nat (String.length uri))
  then uri ++ ARCHIVE_SEPARATOR
  else uri.

(* ================================================================== *)
(** * Node's [path] module *)
(* ================================================================== *)

(** The module delegates to Node's [path.posix] and [path.win32], which are
    not part of this repository; the specification only names them ("the
    dialect's native join/resolve/normalize/relative/dirname/basename/
    extname").  The POSIX members whose results the verified properties depend
    on are modelled in [Posix], after the algorithm of Node's lib/path.js.
    Every other member is taken as given (class [Node] below). *)

Module Posix.

(** Modelled from the spec: one turn of the segment loop of Node's
    [normalizeString], which is missing from the repository: empty segments
    and [.] are dropped, [..] removes the segment before it, or is kept when
    there is none to remove and the path may climb above its root.  [stack]
    holds the segments of [res], last first. *)
Definition step (allowAboveRoot : bool) (stack : list string) (seg : string)
  : list string :=
  if String.eqb seg "" || String.eqb seg "." then stack
  else if String.eqb seg ".." then
    match stack with
    | top :: rest =>
        if String.eqb top ".."
        then (if allowAboveRoot then ".." :: stack else stack)
        else rest
    | [] => if allowAboveRoot then [".."] else []
    end
  else seg :: stack.

Definition segments (path : string) (allowAboveRoot : bool) : list string :=
  rev (fold_left (step allowAboveRoot) (JS.split path "/") []).

(** Modelled from the spec: Node's [normalizeString(path, allowAboveRoot)]
    for the separator [/]. *)
Definition normalizeString (path : string) (allowAboveRoot : bool) : string :=
  JS.join (segments path allowAboveRoot) "/".

(** Modelled from the spec: Node's [path.posix.isAbsolute]. *)
Definition isAbsolute (path : string) : bool := JS.startsWith path "/".

(** Modelled from the spec: Node's [path.posix.normalize]: the empty path is
    [.]; a leading and a trailing [/] are kept around the normalized
    segments. *)
Definition normalize (path : string) : string :=
  if String.eqb path "" then "."
  else
    let isAbs := isAbsolute path in
    let trailingSeparator := JS.endsWith path "/" in
    let p := normalizeString path (negb isAbs) in
    let p := if String.eqb p "" && negb isAbs then "." else p in
    let p := if negb (String.eqb p "") && trailingSeparator then p ++ "/" else p in
    if isAbs then "/" ++ p else p.

(** Modelled from the spec: Node's [path.posix.join]: the non-empty
    arguments, joined by [/] and normalized; [.] when there is none. *)
Definition join (args : list string) : string :=
  match filter (fun a => negb (String.eqb a "")) args with
  | [] => "."
  | joined => normalize (JS.join joined "/")
  end.

(** The right-to-left loop of [resolve]: candidates are the arguments, last
    first, then the working directory; it stops behind the first absolute
    one. *)
Fixpoint resolve_go (candidates : list string) (resolvedPath : string)
  : string * bool :=
  match candidates with
  | [] => (resolvedPath, false)
  | path :: more =>
      if String.eqb path "" then resolve_go more resolvedPath
      else
        let resolvedPath := path ++ "/" ++ resolvedPath in
        if isAbsolute path then (resolvedPath, true)
        else resolve_go more resolvedPath
  end.

(** Modelled from the spec: Node's [path.posix.resolve], with the working
    directory [process.cwd()] as [cwd]. *)
Definition resolve (cwd : string) (args : list string) : string :=
  let '(resolvedPath, resolvedAbsolute) := resolve_go (rev args ++ [cwd]) "" in
  let p := normalizeString resolvedPath (negb resolvedAbsolute) in
  if resolvedAbsolute then "/" ++ p
  else if String.eqb p "" then "." else p.

Definition isSlash (c : ascii) : bool := Ascii.eqb c "/".

Fixpoint dropWhile (p : ascii -> bool) (l : list ascii) : list ascii :=
  match l with
  | [] => []
  | c :: l' => if p c then dropWhile p l' else l
  end.

(** Modelled from the spec: Node's [path.posix.dirname].  It scans the
    characters at positions [length-1 .. 1] from the right: trailing
    separators, then the last segment, then [end] is the position of the
    separator found next; the result is [path.slice(0, end)], or the root or
    [.] when no such separator exists. *)
Definition dirname (path : string) : string :=
  match path with
  | EmptyString => "."
  | String c0 rest =>
      let hasRoot := isSlash c0 in
      let scan := rev (list_ascii_of_string rest) in
      let scan := dropWhile isSlash scan in
      let scan := dropWhile (fun c => negb (isSlash c)) scan in
      match scan with
      | [] => if hasRoot then "/" else "."
      | _ :: before =>
          if hasRoot && (List.length before =? 0)%nat then "//"
          else String c0 (string_of_list_ascii (rev before))
      end
  end.

End Posix.

Record ParsedPath : Type := {
  root : string;
  dir : string;
  base : string;
  ext : string;
  name : string;
}.

(** What the module reads from its host and does not define: the process
    ([process.env], [os.platform()], [process.cwd()]) and the members of
    Node's [path] that are not modelled above. *)
Class Node : Type := {
  HOME : option string;
  UserProfile : option string;
  platform : string;
  cwd : string;
  posix_relative : string -> string -> string;
  posix_basename : string -> string -> string;
  posix_extname : string -> string;
  posix_parse : string -> ParsedPath;
  win32_join : list string -> string;
  win32_normalize : string -> string;
  win32_resolve : list string -> string;
  win32_relative : string -> string -> string;
  win32_dirname : string -> string;
  win32_basename : string -> string -> string;
  win32_extname : string -> string;
  win32_isAbsolute : string -> bool;
  win32_parse : string -> ParsedPath;
}.

Section PathMembers.
Context {node : Node}.

(** [uriPathModule.join(...)], [uriPathModule.normalize(...)], ... *)
Definition path_join (m : PathModule) (args : list string) : string :=
  match m with posix => Posix.join args | win32 => win32_join args end.
Definition path_normalize (m : PathModule) (p : string) : string :=
  match m with posix => Posix.normalize p | win32 => win32_normalize p end.
Definition path_resolve (m : PathModule) (args : list string) : string :=
  match m with posix => Posix.resolve cwd args | win32 => win32_resolve args end.
Definition path_relative (m : PathModule) (from to : string) : string :=
  match m with posix => posix_relative from to | win32 => win32_relative from to end.
Definition path_dirname (m : PathModule) (p : string) : string :=
  match m with posix => Posix.dirname p | win32 => win32_dirname p end.
Definition path_basename (m : PathModule) (p e : string) : string :=
  match m with posix => posix_basename p e | win32 => win32_basename p e end.
Definition path_extname (m : PathModule) (p : string) : string :=
  match m with posix => posix_extname p | win32 => win32_extname p end.
Definition path_isAbsolute (m : PathModule) (p : string) : bool :=
  match m with posix => Posix.isAbsolute p | win32 => win32_isAbsolute p end.
Definition path_parse (m : PathModule) (p : string) : ParsedPath :=
  match m with posix => posix_parse p | win32 => win32_parse p end.

(** [pathModule] itself is the dialect of the platform. *)
Definition pathModule : PathModule :=
  if String.eqb platform "win32" then win32 else posix.
End PathMembers.

(* ================================================================== *)
(** * The module's operations *)
(* ================================================================== *)

Record ParsedUrl : Type := {
  hostname : option string;
  path : string;
}.

Record ParsedRemoteUrl : Type := {
  remote_hostname : string;
  remote_path : string;
}.

Definition isRemote (uri : string) : bool :=
  JS.startsWith uri REMOTE_PATH_URI_PREFIX.

Definition isAtomUri (uri : string) : bool :=
  JS.startsWith uri "atom://".

(** [URI_PREFIX_REGEX = /^[A-Za-z0-9_-]+:\/\/.*/]. *)
Definition isSchemeChar (c : ascii) : bool :=
  let n := nat_of_ascii c in
  ((65 <=? n) && (n <=? 90) || (97 <=? n) && (n <=? 122)
   || (48 <=? n) && (n <=? 57) || (n =? 95) || (n =? 45))%nat.

Fixpoint skipScheme (s : string) : string :=
  match s with
  | EmptyString => EmptyString
  | String c s' => if isSchemeChar c then skipScheme s' else s
  end.

Definition isUri (uri : string) : bool :=
  match uri with
  | EmptyString => false
  | String c _ => isSchemeChar c && JS.startsWith (skipScheme uri) "://"
  end.

Definition isLocal (uri : string) : bool :=
  negb (isRemote uri) && negb (isUri uri) && negb (isAtomUri uri).

Definition createRemoteUri (hostname remotePath : string) : result string :=
  invariant (negb (String.eqb remotePath "")) EmptyRemotePath ;;;
  Ok ("nuclide://" ++ hostname ++ remotePath).

(** The loop of [isInArchive] visits every position holding the archive
    separator, and [_isArchiveSeparator] tests that character itself. *)
Definition isInArchive (uri : string) : bool :=
  if isAtomUri uri || (JS.indexOf uri ARCHIVE_SEPARATOR 0 <? 0)%Z then false
  else existsb (fun i => _isArchiveSeparator uri (Z.of_nat i))
               (seq 0 (String.length uri)).

Definition parse (uri : string) : result ParsedUrl :=
  if JS.startsWith uri REMOTE_PATH_URI_PREFIX then
    let hostAndPath := JS.drop (String.length REMOTE_PATH_URI_PREFIX) uri in
    let hostSep := JS.indexOf hostAndPath "/" 0 in
    invariant (negb (hostSep =? -1)%Z) IllegalLocation ;;;
    let hostname := JS.take (Z.to_nat hostSep) hostAndPath in
    invariant (negb (String.eqb hostname "")) IllegalLocation ;;;
    let path := JS.drop (Z.to_nat hostSep) hostAndPath in
    invariant (negb (_endsWithArchiveSeparator uri)) IllegalLocation ;;;
    Ok {| hostname := Some hostname; path := path |}
  else
    invariant (JS.indexOf uri "://" 0 =? -1)%Z IllegalLocation ;;;
    invariant (negb (_endsWithArchiveSeparator uri)) IllegalLocation ;;;
    Ok {| hostname := None; path := uri |}.

Definition parseRemoteUri (remoteUri : string) : result ParsedRemoteUrl :=
  if negb (isRemote remoteUri) then Err WrongKind
  else
    parsedUri <- parse remoteUri ;;
    match hostname parsedUri with
    | Some h =>
        invariant (negb (String.eqb h "")) IllegalLocation ;;;
        Ok {| remote_hostname := h; remote_path := path parsedUri |}
    | None => Err IllegalLocation
    end.

Definition getPath (uri : string) : result string :=
  p <- parse uri ;; Ok (path p).

Definition getHostname (remoteUri : string) : result string :=
  p <- parseRemoteUri remoteUri ;; Ok (remote_hostname p).

Definition getHostnameOpt (remoteUri : option string) : result (option string) :=
  match remoteUri with
  | None => Ok None
  | Some u =>
      if negb (isRemote u) then Ok None
      else h <- getHostname u ;; Ok (Some h)
  end.

Definition _testForIllegalUri (uri : string) : result unit :=
  if isAtomUri uri then Err IllegalLocation
  else if _endsWithArchiveSeparator uri then Err IllegalLocation
  else Ok tt.

Definition _pathModuleFor (uri : string) : result PathModule :=
  invariant (negb (_endsWithArchiveSeparator uri)) IllegalLocation ;;;
  if JS.startsWith uri (sep posix) then Ok posix
  else if (JS.indexOf uri "://" 0 >? -1)%Z then Ok posix
  else if String.eqb (JS.charAt uri 1) ":"
          && String.eqb (JS.charAt uri 2) (sep win32) then Ok win32
  else if (List.length (JS.split uri (sep posix))
           <? List.length (JS.split uri (sep win32)))%nat
       then Ok win32
       else Ok posix.

Definition hasKnownArchiveExtension (uri : string) : bool :=
  existsb (fun ext => JS.endsWith uri ext) KNOWN_ARCHIVE_EXTENSIONS.

Definition archiveJoin (uri path : string) : result string :=
  _testForIllegalUri uri ;;;
  if negb (existsb (fun ext => JS.endsWith uri ext) KNOWN_ARCHIVE_EXTENSIONS)
  then Err UnsupportedArchiveJoin
  else Ok (uri ++ ARCHIVE_SEPARATOR ++ path).

Definition pathSeparatorFor (uri : string) : result string :=
  m <- _pathModuleFor uri ;; Ok (sep m).

Definition nuclideUriToUri (uri : string) : result string :=
  _testForIllegalUri uri ;;;
  if isRemote uri then Ok uri else Ok ("file://" ++ uri).

Definition ensureTrailingSeparator (uri : string) : result string :=
  _testForIllegalUri uri ;;;
  uriPathModule <- _pathModuleFor uri ;;
  if JS.endsWith uri (sep uriPathModule) then Ok uri
  else Ok (uri ++ sep uriPathModule).

Definition endsWithSeparator (uri : string) : result bool :=
  _testForIllegalUri uri ;;;
  uriPathModule <- _pathModuleFor uri ;;
  Ok (JS.endsWith uri (sep uriPathModule)).

Definition contains (parent child : string) : result bool :=
  _testForIllegalUri parent ;;;
  _testForIllegalUri child ;;;
  if (String.length child <? String.length parent)%nat then
    if (String.length child <? String.length parent - 1)%nat then Ok false
    else if JS.startsWith parent child then
      e <- endsWithSeparator parent ;;
      Ok (e || _isArchiveSeparator child (Z.of_nat (String.length parent)))
    else Ok false
  else if negb (JS.startsWith child parent) then Ok false
  else
    e <- endsWithSeparator parent ;;
    if e || (String.length parent =? String.length child)%nat then Ok true
    else
      uriPathModule <- _pathModuleFor child ;;
      Ok (_isArchiveSeparator child (Z.of_nat (String.length parent))
          || JS.startsWith (JS.drop (String.length parent) child)
               (sep uriPathModule)).

(** [paths.some(fp => contains(fp, p) && fp !== p)], stopping at the first
    hit or the first throw. *)
Fixpoint collapse_some (p : string) (fps : list string) : result bool :=
  match fps with
  | [] => Ok false
  | fp :: more =>
      c <- contains fp p ;;
      if c && negb (String.eqb fp p) then Ok true else collapse_some p more
  end.

Fixpoint collapse_filter (all ps : list string) : result (list string) :=
  match ps with
  | [] => Ok []
  | p :: more =>
      covered <- collapse_some p all ;;
      rest <- collapse_filter all more ;;
      Ok (if covered then rest else p :: rest)
  end.

Definition collapse (paths : list string) : result (list string) :=
  collapse_filter paths paths.

Definition splitPathList (paths : string) : result (list string) :=
  invariant (JS.indexOf paths REMOTE_PATH_URI_PREFIX 0 <? 0)%Z WrongKind ;;;
  uriPathModule <- _pathModuleFor paths ;;
  Ok (JS.split paths (delimiter uriPathModule)).

Definition joinPathList (paths : list string) : result string :=
  match paths with
  | [] => Ok ""
  | first :: _ =>
      invariant (forallb (fun path => negb (isRemote path)) paths) WrongKind ;;;
      uriPathModule <- _pathModuleFor first ;;
      Ok (JS.join paths (delimiter uriPathModule))
  end.

Definition validate (uri : string) (mustBeRemote : option bool) : result unit :=
  if isRemote uri then
    parse uri ;;;
    invariant (negb (match mustBeRemote with Some false => true | _ => false end))
      WrongKind
  else
    invariant (negb (String.eqb uri "")) IllegalLocation ;;;
    invariant (negb (match mustBeRemote with Some true => true | _ => false end))
      WrongKind.

Section Operations.
Context {node : Node}.

Definition join (uri : string) (relativePath : list string) : result string :=
  _testForIllegalUri uri ;;;
  uriPathModule <- _pathModuleFor uri ;;
  if isRemote uri then
    p <- parseRemoteUri uri ;;
    let relativePath :=
      _archiveEncodeArrayInPlace uriPathModule (remote_path p :: relativePath) in
    u <- createRemoteUri (remote_hostname p) (path_join uriPathModule relativePath) ;;
    Ok (_archiveDecode uriPathModule u)
  else
    let relativePath :=
      _archiveEncodeArrayInPlace uriPathModule (uri :: relativePath) in
    Ok (_archiveDecode uriPathModule (path_join uriPathModule relativePath)).

Definition normalize (uri : string) : result string :=
  _testForIllegalUri uri ;;;
  uriPathModule <- _pathModuleFor uri ;;
  if isRemote uri then
    p <- parseRemoteUri uri ;;
    let normal :=
      _archiveDecode uriPathModule
        (path_normalize uriPathModule
           (_archiveEncode uriPathModule (remote_path p))) in
    createRemoteUri (remote_hostname p) normal
  else
    Ok (_archiveDecode uriPathModule
          (path_normalize uriPathModule (_archiveEncode uriPathModule uri))).

Definition normalizeDir (uri : string) : result string :=
  n <- normalize uri ;; ensureTrailingSeparator n.

Definition getParent (uri : string) : result string :=
  j <- join uri [".."] ;; normalize j.

Definition relative (uri other : string) : result string :=
  _testForIllegalUri uri ;;;
  uriPathModule <- _pathModuleFor uri ;;
  let remote := isRemote uri in
  crossHost <-
    (if negb (Bool.eqb remote (isRemote other)) then Ok true
     else if remote then
       h1 <- getHostname uri ;;
       h2 <- getHostname other ;;
       Ok (negb (String.eqb h1 h2))
     else Ok false) ;;
  if crossHost : bool then Err CrossHostError
  else
    uriPath <- (if remote then getPath uri else Ok uri) ;;
    let uriEncode := _archiveEncode uriPathModule uriPath in
    otherPath <- (if remote then getPath other else Ok other) ;;
    let otherEncode := _archiveEncode uriPathModule otherPath in
    Ok (_archiveDecode uriPathModule
          (path_relative uriPathModule
             (_matchTrailingArchive uriEncode otherEncode)
             (_matchTrailingArchive otherEncode uriEncode))).

Definition basename (uri ext : string) : result string :=
  _testForIllegalUri uri ;;;
  uriPathModule <- _pathModuleFor uri ;;
  p <- getPath uri ;;
  Ok (_archiveDecode uriPathModule
        (path_basename uriPathModule (_archiveEncode uriPathModule p) ext)).

Definition dirname (uri : string) : result string :=
  _testForIllegalUri uri ;;;
  uriPathModule <- _pathModuleFor uri ;;
  if isRemote uri then
    p <- parseRemoteUri uri ;;
    createRemoteUri (remote_hostname p)
      (_archiveDecode uriPathModule
         (path_dirname uriPathModule
            (_archiveEncode uriPathModule (remote_path p))))
  else
    Ok (_archiveDecode uriPathModule
          (path_dirname uriPathModule (_archiveEncode uriPathModule uri))).

Definition extname (uri : string) : result string :=
  _testForIllegalUri uri ;;;
  uriPathModule <- _pathModuleFor uri ;;
  p <- getPath uri ;;
  Ok (_archiveDecode uriPathModule
        (path_extname uriPathModule (_archiveEncode uriPathModule p))).

Definition stripExtension (uri : string) : result string :=
  _testForIllegalUri uri ;;;
  ext <- extname uri ;;
  if (String.length ext =? 0)%nat then Ok uri
  else Ok (JS.dropRight (String.length ext) uri).

Definition _isWindowsPath (path : string) : result bool :=
  m <- _pathModuleFor path ;; Ok (PathModule_eqb m win32).

Definition isAbsolute (uri : string) : result bool :=
  _testForIllegalUri uri ;;;
  if isRemote uri then Ok true
  else
    uriPathModule <- _pathModuleFor uri ;;
    Ok (path_isAbsolute uriPathModule uri).

Definition resolve (uri : string) (paths : list string) : result string :=
  _testForIllegalUri uri ;;;
  uriPathModule <- _pathModuleFor uri ;;
  if isRemote uri then
    p <- parseRemoteUri uri ;;
    let paths := _archiveEncodeArrayInPlace uriPathModule (remote_path p :: paths) in
    createRemoteUri (remote_hostname p)
      (_archiveDecode uriPathModule (path_resolve uriPathModule paths))
  else
    let paths := _archiveEncodeArrayInPlace uriPathModule (uri :: paths) in
    Ok (_archiveDecode uriPathModule (path_resolve uriPathModule paths)).

Definition expandHomeDir (uri : string) : result string :=
  _testForIllegalUri uri ;;;
  if negb (JS.startsWith uri "~") then Ok uri
  else
    let isWindows := negb (isRemote uri) && String.eqb platform "win32" in
    let homePath := if isWindows then UserProfile else HOME in
    match homePath with
    | None => Err MissingEnvironment
    | Some homePath =>
        if String.eqb uri "~" then Ok homePath
        else if negb (JS.startsWith uri "~/")
                && (negb isWindows || negb (JS.startsWith uri "~\"))
        then Ok uri
        else Ok (path_resolve pathModule [homePath; JS.replace uri "~" "."])
    end.

Definition ensureLocalPrefix (uri : string) : result string :=
  _testForIllegalUri uri ;;;
  uriPathModule <- _pathModuleFor uri ;;
  invariant (negb (isRemote uri)) WrongKind ;;;
  a <- isAbsolute uri ;;
  invariant (negb a) WrongKind ;;;
  let localPrefix := "." ++ sep uriPathModule in
  if JS.startsWith uri localPrefix then Ok uri
  else Ok (localPrefix ++ uri).

Definition isRoot (uri : string) : result bool :=
  _testForIllegalUri uri ;;;
  d <- dirname uri ;;
  Ok (String.eqb d uri).

(** The [while] loop of [trimTrailingSeparator]: every turn removes one
    character, so [String.length uri] turns are never exceeded. *)
Fixpoint trimTrailingSeparator_loop (turns : nat) (uriPathModule : PathModule)
    (stripped : string) : result string :=
  if JS.endsWith stripped (sep uriPathModule) then
    r <- isRoot stripped ;;
    if r then Ok stripped
    else match turns with
         | O => Ok stripped
         | S t =>
             trimTrailingSeparator_loop t uriPathModule
               (JS.dropRight (String.length (sep uriPathModule)) stripped)
         end
  else Ok stripped.

Definition trimTrailingSeparator (uri : string) : result string :=
  _testForIllegalUri uri ;;;
  uriPathModule <- _pathModuleFor uri ;;
  trimTrailingSeparator_loop (String.length uri) uriPathModule uri.

Definition parsePath (uri : string) : result ParsedPath :=
  _testForIllegalUri uri ;;;
  uriPathModule <- _pathModuleFor uri ;;
  p <- getPath uri ;;
  if negb (isInArchive uri) then Ok (path_parse uriPathModule p)
  else
    let parsed := path_parse uriPathModule (_archiveEncode uriPathModule p) in
    Ok {| root := _archiveDecode uriPathModule (root parsed);
          dir := _archiveDecode uriPathModule (dir parsed);
          base := _archiveDecode uriPathModule (base parsed);
          ext := _archiveDecode uriPathModule (ext parsed);
          name := _archiveDecode uriPathModule (name parsed) |}.

(** [hostFormatters] is the module's registry; a formatter's result counts
    when it is neither [null] nor empty. *)
Fixpoint formatHostname (hostFormatters : list (string -> option string))
    (hostname : string) : string :=
  match hostFormatters with
  | [] => hostname
  | formatter :: more =>
      match formatter hostname with
      | Some formattedHostname =>
          if String.eqb formattedHostname ""
          then formatHostname more hostname
          else formattedHostname
      | None => formatHostname more hostname
      end
  end.

Definition nuclideUriToDisplayString
    (hostFormatters : list (string -> option string)) (uri : string)
  : result string :=
  _testForIllegalUri uri ;;;
  if isRemote uri then
    hostname <- getHostname uri ;;
    p <- getPath uri ;;
    Ok (formatHostname hostFormatters hostname ++ ":" ++ p)
  else Ok uri.

End Operations.

(* ================================================================== *)
(** * URIs from and for Atom, the formatter registry and [split] *)
(* ================================================================== *)

(** [/nuclide[:_][\\/][^/]/] at the start of [s]. *)
Definition brokenPrefix (s : string) : bool :=
  JS.startsWith s "nuclide"
  && match JS.drop 7 s with
     | String a (String b (String c _)) =>
         (Ascii.eqb a ":" || Ascii.eqb a "_")
         && (Ascii.eqb b "\" || Ascii.eqb b "/")
         && negb (Ascii.eqb c "/")
     | _ => false
     end.

(** [s.match(/nuclide[:_][\\/][^/]/) != null]: the pattern is not anchored. *)
Fixpoint matchesBroken (s : string) : bool :=
  brokenPrefix s
  || match s with
     | EmptyString => false
     | String _ s' => matchesBroken s'
     end.

Definition isBrokenDeserializedUri (uri : option string) : bool :=
  match uri with
  | None => false
  | Some u => matchesBroken u
  end.

Definition _escapeSpecialCharacters (uri : string) : string :=
  JS.replaceAllChar "\" "%5C" (JS.replaceAllChar "%" "%25" uri).

Definition _getWindowsPathFromWindowsFileUri (uri : string)
  : result (option string) :=
  let prefix := "file://" in
  if negb (JS.startsWith uri prefix) then Ok None
  else
    let path := JS.drop (String.length prefix) uri in
    w <- _isWindowsPath path ;;
    Ok (if w : bool then Some path else None).

(** The two fields [uriToNuclideUri] reads from the result of Node's
    [url.parse]. *)
Record UrlParts : Type := {
  protocol : option string;
  url_path : option string;
}.

(** Node's [url.parse(s, false)] is not part of the repository. *)
Class Url : Type := {
  url_parse : string -> UrlParts;
}.

(** A string counts in a condition when it is neither [null] nor empty. *)
Definition truthy (s : option string) : bool :=
  match s with
  | Some v => negb (String.eqb v "")
  | None => false
  end.

Definition uriToNuclideUri {url : Url} (uri : string) : result (option string) :=
  windowsPathFromUri <- _getWindowsPathFromWindowsFileUri uri ;;
  if truthy windowsPathFromUri then Ok windowsPathFromUri
  else
    let urlParts := url_parse (_escapeSpecialCharacters uri) in
    if match protocol urlParts with
       | Some p => String.eqb p "file:"
       | None => false
       end && truthy (url_path urlParts)
    then Ok (url_path urlParts)
    else if isRemote uri then Ok (Some uri)
    else Ok None.

Section HostFormatters.

(** Formatter functions are compared by identity ([indexOf] on an array of
    functions). *)
Variable Formatter : Type.
Variable Formatter_eq_dec : forall a b : Formatter, {a = b} + {a <> b}.
Variable call : Formatter -> string -> option string.

(** [hostFormatters.indexOf(formatter)]. *)
Fixpoint indexOfFormatter (hostFormatters : list Formatter) (formatter : Formatter)
  : option nat :=
  match hostFormatters with
  | [] => None
  | f :: more =>
      if Formatter_eq_dec f formatter then Some 0
      else option_map S (indexOfFormatter more formatter)
  end.

(** [hostFormatters.splice(index, 1)]. *)
Fixpoint spliceOne (hostFormatters : list Formatter) (index : nat)
  : list Formatter :=
  match hostFormatters, index with
  | [], _ => []
  | _ :: more, O => more
  | f :: more, S i => f :: spliceOne more i
  end.

(** What [dispose] of the returned disposable does to the registry it finds. *)
Definition dispose (formatter : Formatter) (hostFormatters : list Formatter)
  : list Formatter :=
  match indexOfFormatter hostFormatters formatter with
  | Some index => spliceOne hostFormatters index
  | None => hostFormatters
  end.

(** The registry after the call, and the disposable's [dispose]. *)
Definition registerHostnameFormatter (hostFormatters : list Formatter)
    (formatter : Formatter)
  : list Formatter * (list Formatter -> list Formatter) :=
  ((hostFormatters ++ [formatter])%list, dispose formatter).

(** [nuclideUriToDisplayString] with the registry as it stands. *)
Definition displayString {node : Node} (hostFormatters : list Formatter)
    (uri : string) : result string :=
  nuclideUriToDisplayString (map call hostFormatters) uri.

End HostFormatters.

Section Split.
Context {node : Node}.

(** The [while] loop of [split]; [None] when [turns] turns do not reach
    [current === parent]. *)
Fixpoint split_loop (turns : nat) (current parent : string) (parts : list string)
  : option (result (string * list string)) :=
  if String.eqb current parent then Some (Ok (parent, parts))
  else
    match turns with
    | O => None
    | S t =>
        match basename current "" with
        | Err e => Some (Err e)
        | Ok b =>
            match dirname parent with
            | Err e => Some (Err e)
            | Ok grandparent =>
                split_loop t parent grandparent (parts ++ [b])%list
            end
        end
    end.

Definition split (turns : nat) (uri : string) : option (result (list string)) :=
  match dirname uri with
  | Err e => Some (Err e)
  | Ok parent =>
      match split_loop turns uri parent [] with
      | None => None
      | Some (Err e) => Some (Err e)
      | Some (Ok (parent, parts)) =>
          match isAbsolute uri with
          | Err e => Some (Err e)
          | Ok a => Some (Ok (rev (if a then parts ++ [parent] else parts)%list))
          end
      end
  end.

End Split.

(* ================================================================== *)
(** * The open-files list: [generateDistinctNames] *)
(* ================================================================== *)

(** The third document of [DiagnosticUpdater.js]. *)
Module OpenFilesList.

Record OpenFileEntry : Type := {
  name : string;
  uri : string;
  isModified : bool;
  isSelected : bool;
  displayName : option string;   (* [undefined] until it is computed *)
}.

(** [dupes.reduce((len, entry) => entry.uri.length > len ? ... : len, 0)]. *)
Definition maxLength (dupes : list OpenFileEntry) : nat :=
  fold_left
    (fun len entry =>
       if (len <? String.length (uri entry))%nat
       then String.length (uri entry) else len)
    dupes 0.

(** [entry.uri[i] === letter], where both may be [undefined]. *)
Definition sameLetter (a b : option ascii) : bool :=
  match a, b with
  | Some x, Some y => Ascii.eqb x y
  | None, None => true
  | _, _ => false
  end.

Definition isSameChar (dupes : list OpenFileEntry) (letter : option ascii)
    (i : nat) : bool :=
  fold_left
    (fun isSame entry =>
       if isSame && sameLetter (get i (uri entry)) letter then true else false)
    dupes true.

(** [for (i; i < maxLength; i++) { ...; if (!isSameChar) break; }] with
    [remaining = maxLength - i] turns left. *)
Fixpoint scan (first : OpenFileEntry) (dupes : list OpenFileEntry)
    (remaining i : nat) : nat :=
  match remaining with
  | O => i
  | S r =>
      let letter := get i (uri first) in
      if isSameChar dupes letter i then scan first dupes r (S i) else i
  end.

(** The value of [i] behind the loop.  Without an entry of that name
    [maxLength] is [0] and the loop body, which reads [dupes[0]], never
    runs. *)
Definition lastMatchingIndex (dupes : list OpenFileEntry) : nat :=
  match dupes with
  | [] => 0
  | first :: _ => scan first dupes (maxLength dupes) 0
  end.

Definition generateDistinctNames (entries : list OpenFileEntry)
    (duplicateName : string) : list OpenFileEntry :=
  let dupes := filter (fun e => String.eqb (name e) duplicateName) entries in
  let i := lastMatchingIndex dupes in
  map
    (fun entry =>
       let displayName :=
         match displayName entry with
         | None =>
             if String.eqb (name entry) duplicateName
             then JS.drop i (uri entry) else name entry
         | Some d => d
         end in
       {| name := name entry; uri := uri entry;
          isModified := isModified entry; isSelected := isSelected entry;
          displayName := Some displayName |})
    entries.

End OpenFilesList.

(* ================================================================== *)
(** * Notions of the specification *)
(* ================================================================== *)

(** The strings of the round-trip law: every archive separator stands
    immediately behind a recognized archive extension and is not immediately
    followed by another archive separator. *)
Definition precededByExtension (s : string) (i : nat) : bool :=
  existsb
    (fun ext =>
       (String.length ext <=? i)%nat
       && JS.startsWith (JS.drop (i - String.length ext) s) ext)
    KNOWN_ARCHIVE_EXTENSIONS.

Definition isSeparatorChar (s : string) (i : nat) : bool :=
  match get i s with
  | Some c => Ascii.eqb c "!"
  | None => false
  end.

Definition archiveSeparatorsSupported (s : string) : bool :=
  forallb
    (fun i =>
       negb (isSeparatorChar s i)
       || precededByExtension s i && negb (isSeparatorChar s (S i)))
    (seq 0 (String.length s)).

(** Position [i] of [s] holds an archive separator: the separator character
    immediately preceded by a recognized archive extension. *)
Definition archiveSeparatorAt (s : string) (i : nat) : bool :=
  isSeparatorChar s i && precededByExtension s i.

(** [s] ends with an archive separator. *)
Definition endsWithArchiveSeparator (s : string) : bool :=
  existsb (fun ext => JS.endsWith s (ext ++ ARCHIVE_SEPARATOR))
          KNOWN_ARCHIVE_EXTENSIONS.

(** The hostname of a remote location: what stands between the remote prefix
    and the next [/]. *)
Fixpoint upTo (c : ascii) (s : string) : string :=
  match s with
  | EmptyString => EmptyString
  | String a s' => if Ascii.eqb a c then EmptyString else String a (upTo c s')
  end.

Definition hostnameOf (s : string) : string :=
  upTo "/" (JS.drop (String.length REMOTE_PATH_URI_PREFIX) s).

(** A well-formed location value: accepted by the guard every operation
    starts with and, when remote, by [parse]. *)
Definition wellFormed (s : string) : bool :=
  match _testForIllegalUri s with
  | Ok _ => if isRemote s then (match parse s with Ok _ => true | Err _ => false end)
            else true
  | Err _ => false
  end.

(** The dialect chosen for a location. *)
Definition dialectOf (s : string) : PathModule :=
  match _pathModuleFor s with
  | Ok m => m
  | Err _ => posix
  end.

(** [parse] in the words of the specification. *)
Definition parseSpec (s : string) : result ParsedUrl :=
  if isRemote s then
    let rest := JS.drop (String.length REMOTE_PATH_URI_PREFIX) s in
    if negb (JS.hasChar "/" rest) then Err IllegalLocation
    else if String.eqb (hostnameOf s) "" then Err IllegalLocation
    else if endsWithArchiveSeparator s then Err IllegalLocation
    else Ok {| hostname := Some (hostnameOf s);
               path := JS.drop (String.length (hostnameOf s)) rest |}
  else if JS.includes s "://" then Err IllegalLocation
  else if endsWithArchiveSeparator s then Err IllegalLocation
  else Ok {| hostname := None; path := s |}.

(** The list delimiter of a dialect, as a character. *)
Definition delimiterChar (m : PathModule) : ascii :=
  match m with posix => ":" | win32 => ";" end%char.

(** [child] is [parent] itself, [parent] without its one trailing separator,
    or a proper descendant: [parent] followed by more, where the boundary is
    a separator ending [parent], a separator of [child]'s dialect starting
    the rest, or an archive separator starting the rest. *)
Definition isSameOrDescendant (parent child : string) : bool :=
  String.eqb child parent
  || String.eqb parent (child ++ sep (dialectOf parent))
  || (String.length parent <? String.length child)%nat
     && JS.startsWith child parent
     && (JS.endsWith parent (sep (dialectOf parent))
         || JS.startsWith (JS.drop (String.length parent) child)
              (sep (dialectOf child))
         || archiveSeparatorAt child (String.length parent)).

(** ** Notions used to reason about [Posix.normalize] *)

(** A segment [normalizeString] keeps as a name. *)
Definition isName (seg : string) : bool :=
  negb (String.eqb seg "") && negb (String.eqb seg ".")
  && negb (String.eqb seg "..") && negb (JS.hasChar "/" seg).

(** The segment stacks [normalizeString] builds: names above a run of [..],
    which is empty unless the path may climb above its root. *)
Inductive NormalStack (allowAboveRoot : bool) : list string -> Prop :=
| NS_dots n :
    n = 0 \/ allowAboveRoot = true ->
    NormalStack allowAboveRoot (repeat ".." n)
| NS_name seg stack :
    isName seg = true ->
    NormalStack allowAboveRoot stack ->
    NormalStack allowAboveRoot (seg :: stack).

(** What [Posix.normalize] makes of the segments it keeps. *)
Definition render (isAbs trailingSeparator : bool) (segs : list string) : string :=
  let p := JS.join segs "/" in
  let p := if String.eqb p "" && negb isAbs then "." else p in
  let p := if negb (String.eqb p "") && trailingSeparator then p ++ "/" else p in
  if isAbs then "/" ++ p else p.

(** How often the character [c] occurs in [s]. *)
Fixpoint countChar (c : ascii) (s : string) : nat :=
  match s with
  | EmptyString => 0
  | String a s' => (if Ascii.eqb a c then 1 else 0) + countChar c s'
  end.

(** ** Plain local paths *)

(** A local location of the POSIX dialect without archive separator: not
    remote, no Atom URI, no [!] and no backslash. *)
Definition plainLocal (s : string) : bool :=
  negb (isRemote s) && negb (isAtomUri s)
  && negb (JS.hasChar "!" s) && negb (JS.hasChar "\" s).

(** [n] times the POSIX separator. *)
Fixpoint slashes (n : nat) : string :=
  match n with
  | O => ""
  | S k => "/" ++ slashes k
  end.

(** ** Notions used to reason about [collapse] *)

(** No other path of [fps] contains [p]. *)
Definition uncovered (p : string) (fps : list string) : Prop :=
  Forall (fun fp => exists c, contains fp p = Ok c
                              /\ c && negb (String.eqb fp p) = false) fps.

(** The home directory [expandHomeDir] reads: [UserProfile] on Windows,
    [HOME] elsewhere. *)
Definition homeVariable {node : Node} : option string :=
  if String.eqb platform "win32" then UserProfile else HOME.

(** An expansion is asked for by [~] alone or by [~] and a separator: [/]
    on every platform and [\] on Windows as well. *)
Definition requestsExpansion {node : Node} (uri : string) : bool :=
  String.eqb uri "~"
  || JS.startsWith uri "~/"
  || String.eqb platform "win32" && JS.startsWith uri "~\".

(** The host [node] in another environment: [process.env.HOME],
    [process.env.UserProfile] and [os.platform()] are replaced, Node's
    [path] and the working directory are kept. *)
Definition withEnvironment (node : Node) (home userProfile : option string)
    (platformName : string) : Node :=
  {| HOME := home;
     UserProfile := userProfile;
     platform := platformName;
     cwd := @cwd node;
     posix_relative := @posix_relative node;
     posix_basename := @posix_basename node;
     posix_extname := @posix_extname node;
     posix_parse := @posix_parse node;
     win32_join := @win32_join node;
     win32_normalize := @win32_normalize node;
     win32_resolve := @win32_resolve node;
     win32_relative := @win32_relative node;
     win32_dirname := @win32_dirname node;
     win32_basename := @win32_basename node;
     win32_extname := @win32_extname node;
     win32_isAbsolute := @win32_isAbsolute node;
     win32_parse := @win32_parse node |}.

(* ================================================================== *)
(** * The model of Node's POSIX [path] on examples *)
(* ================================================================== *)

Example ex_posix_normalize1 : Posix.normalize "/a/../x" = "/x".
Proof. reflexivity. Qed.
Example ex_posix_normalize2 : Posix.normalize "a/./b//c/" = "a/b/c/".
Proof. reflexivity. Qed.
Example ex_posix_normalize3 : Posix.normalize "../a/../../b" = "../../b".
Proof. reflexivity. Qed.
Example ex_posix_normalize4 : Posix.normalize "a/.." = ".".
Proof. reflexivity. Qed.
Example ex_posix_normalize5 : Posix.normalize "/.." = "/".
Proof. reflexivity. Qed.
Example ex_posix_normalize6 : Posix.normalize "./" = "./".
Proof. reflexivity. Qed.
Example ex_posix_join : Posix.join ["/a/.."; "x"] = "/x".
Proof. reflexivity. Qed.
Example ex_posix_join2 : Posix.join [""; ""] = ".".
Proof. reflexivity. Qed.
Example ex_posix_dirname1 : Posix.dirname "/a/b" = "/a".
Proof. reflexivity. Qed.
Example ex_posix_dirname2 : Posix.dirname "/a" = "/".
Proof. reflexivity. Qed.
Example ex_posix_dirname3 : Posix.dirname "//a" = "//".
Proof. reflexivity. Qed.
Example ex_posix_dirname4 : Posix.dirname "a/b/" = "a".
Proof. reflexivity. Qed.
Example ex_posix_dirname5 : Posix.dirname "a" = ".".
Proof. reflexivity. Qed.
Example ex_posix_dirname6 : Posix.dirname "/a//b" = "/a/".
Proof. reflexivity. Qed.
Example ex_posix_resolve1 : Posix.resolve "/cwd" ["/home/u"; "./x"] = "/home/u/x".
Proof. reflexivity. Qed.
Example ex_posix_resolve2 : Posix.resolve "/cwd" ["a"; "../b"] = "/cwd/b".
Proof. reflexivity. Qed.
Example ex_archive_encode :
  _archiveEncode posix "/etc/file.zip!abc" = "/etc/file.zip!/abc".
Proof. reflexivity. Qed.
Example ex_archive_decode :
  _archiveDecode posix "/etc/file.zip!/abc" = "/etc/file.zip!abc".
Proof. reflexivity. Qed.
Example ex_archive_decode_root : _archiveDecode posix "/etc/file.zip!" = "/etc/file.zip".
Proof. reflexivity. Qed.
Example ex_pathModuleFor_drive : _pathModuleFor "C:\a\b" = Ok win32.
Proof. reflexivity. Qed.
Example ex_pathModuleFor_tie : _pathModuleFor "a\b/c" = Ok posix.
Proof. reflexivity. Qed.
Example ex_parse_remote :
  parse "nuclide://host/a/b" = Ok {| hostname := Some "host"; path := "/a/b" |}.
Proof. reflexivity. Qed.
Example ex_parse_no_path : parse "nuclide://host" = Err IllegalLocation.
Proof. reflexivity. Qed.
Example ex_parse_no_host : parse "nuclide:///a" = Err IllegalLocation.
Proof. reflexivity. Qed.
Example ex_dirname_archive {node : Node} : dirname "a.zip!x/y" = Ok "a.zip!x".
Proof. reflexivity. Qed.
Example ex_isUri : isUri "9_-x://y" = true /\ isUri "://y" = false.
Proof. split; reflexivity. Qed.

(* ================================================================== *)
(** * Facts about the string primitives *)
(* ================================================================== *)

Lemma Z_of_nat_ltb_0 n : (Z.of_nat n <? 0)%Z = false.
Proof. apply Z.ltb_ge. lia. Qed.

Module JSFacts.
Import JS.

Lemma append_nil_r s : s ++ "" = s.
Proof. induction s as [|c s IH]; simpl; [reflexivity | now rewrite IH]. Qed.

Lemma append_assoc a b c : (a ++ b) ++ c = a ++ b ++ c.
Proof. induction a as [|x a IH]; simpl; [reflexivity | now rewrite IH]. Qed.

Lemma length_append a b : String.length (a ++ b) = String.length a + String.length b.
Proof. induction a as [|x a IH]; simpl; [reflexivity | now rewrite IH]. Qed.

Lemma startsWith_nil s : startsWith s "" = true.
Proof. destruct s; reflexivity. Qed.

Lemma startsWith_cons c s p pat :
  startsWith (String c s) (String p pat) = Ascii.eqb c p && startsWith s pat.
Proof. reflexivity. Qed.

Lemma startsWith_refl s : startsWith s s = true.
Proof.
  induction s as [|c s IH]; [reflexivity|].
  rewrite startsWith_cons, Ascii.eqb_refl. exact IH.
Qed.

Lemma startsWith_app pat r : startsWith (pat ++ r) pat = true.
Proof.
  induction pat as [|p pat IH]; simpl; [reflexivity|].
  now rewrite Ascii.eqb_refl.
Qed.

Lemma drop_app pat r : drop (String.length pat) (pat ++ r) = r.
Proof. induction pat as [|p pat IH]; simpl; [reflexivity | exact IH]. Qed.

Lemma take_app pat r : take (String.length pat) (pat ++ r) = pat.
Proof. induction pat as [|p pat IH]; simpl; [reflexivity | now rewrite IH]. Qed.

Lemma take_cons n c s : take (S n) (String c s) = String c (take n s).
Proof. reflexivity. Qed.

Lemma take_drop n s : take n s ++ drop n s = s.
Proof.
  revert s; induction n as [|n IH]; intros [|c s]; simpl; try reflexivity.
  now rewrite IH.
Qed.

(** A prefix test only reads as many characters as the pattern has. *)
Lemma startsWith_elim s pat :
  startsWith s pat = true -> s = pat ++ drop (String.length pat) s.
Proof.
  revert s; induction pat as [|p pat IH]; intros s H; [reflexivity|].
  destruct s as [|c s]; [discriminate|].
  rewrite startsWith_cons in H. apply andb_true_iff in H as [Hc Hs].
  apply Ascii.eqb_eq in Hc; subst c. simpl. f_equal. now apply IH.
Qed.

Lemma startsWith_iff s pat :
  startsWith s pat = true <-> exists r, s = pat ++ r.
Proof.
  split.
  - intros H. eexists. now apply startsWith_elim.
  - intros [r ->]. apply startsWith_app.
Qed.

Lemma startsWith_app_l s a b :
  startsWith s (a ++ b) = true -> startsWith s a = true.
Proof.
  intros H. apply startsWith_elim in H. rewrite H, append_assoc.
  apply startsWith_app.
Qed.

Lemma startsWith_take s pat :
  startsWith s pat = startsWith (take (String.length pat) s) pat.
Proof.
  revert s; induction pat as [|p pat IH]; intros s; [now rewrite !startsWith_nil|].
  destruct s as [|c s]; [reflexivity|].
  simpl String.length. simpl take. rewrite !startsWith_cons. now rewrite <- IH.
Qed.

Lemma take_take_le k n s : k <= n -> take k (take n s) = take k s.
Proof.
  revert n s; induction k as [|k IH]; intros n s Hk; [reflexivity|].
  destruct n as [|n]; [lia|]. destruct s as [|c s]; [reflexivity|].
  simpl. f_equal. apply IH. lia.
Qed.

Lemma startsWith_same_take s t pat n :
  String.length pat <= n -> take n s = take n t ->
  startsWith s pat = startsWith t pat.
Proof.
  intros Hn H. rewrite (startsWith_take s), (startsWith_take t).
  rewrite <- (take_take_le _ n s), <- (take_take_le _ n t) by assumption.
  now rewrite H.
Qed.

Lemma take_app_le k a b : k <= String.length a -> take k (a ++ b) = take k a.
Proof.
  revert a; induction k as [|k IH]; intros a Hk; [reflexivity|].
  destruct a as [|c a]; [simpl in Hk; lia|].
  simpl. f_equal. apply IH. simpl in Hk. lia.
Qed.

(** ** [replace] *)

Lemma replace_hit s pat rep :
  startsWith s pat = true ->
  replace s pat rep = rep ++ drop (String.length pat) s.
Proof. intros H. destruct s; simpl; now rewrite H. Qed.

Lemma replace_miss c s pat rep :
  startsWith (String c s) pat = false ->
  replace (String c s) pat rep = String c (replace s pat rep).
Proof. intros H. simpl replace. now rewrite H. Qed.

Lemma replace_app_hit pat r rep : replace (pat ++ r) pat rep = rep ++ r.
Proof. rewrite replace_hit by apply startsWith_app. now rewrite drop_app. Qed.

(** Inserting text behind the first occurrence of [pat] leaves the first
    [length pat] characters of every suffix as they were. *)
Lemma take_replace_extend s pat t k :
  k <= String.length pat ->
  take k (replace s pat (pat ++ t)) = take k s.
Proof.
  revert k; induction s as [|c s IH]; intros k Hk.
  - destruct (startsWith "" pat) eqn:E.
    + rewrite replace_hit by assumption.
      rewrite (startsWith_elim _ _ E) at 2.
      rewrite append_assoc, !take_app_le by assumption. reflexivity.
    + simpl. now rewrite E.
  - destruct (startsWith (String c s) pat) eqn:E.
    + rewrite replace_hit by assumption.
      rewrite (startsWith_elim _ _ E) at 2.
      rewrite append_assoc, !take_app_le by assumption. reflexivity.
    + rewrite replace_miss by assumption.
      destruct k as [|k]; [reflexivity|]. simpl. f_equal. apply IH. lia.
Qed.

Lemma startsWith_replace_extend c s pat t q :
  String.length q <= S (String.length pat) ->
  startsWith (String c (replace s pat (pat ++ t))) q
  = startsWith (String c s) q.
Proof.
  intros Hq. apply (startsWith_same_take _ _ _ (S (String.length pat)) Hq).
  simpl. f_equal. apply take_replace_extend. lia.
Qed.

(** The first occurrence of [pat ++ t] after the insertion is the one that
    was made: [replace] undoes itself. *)
Lemma replace_extend_undo s pat t :
  replace (replace s pat (pat ++ t)) (pat ++ t) pat = s.
Proof.
  induction s as [|c s IH].
  - destruct (startsWith "" pat) eqn:E.
    + rewrite (replace_hit "" pat) by assumption. rewrite replace_app_hit.
      symmetry. now apply startsWith_elim.
    + simpl. rewrite E. simpl.
      destruct (startsWith "" (pat ++ t)) eqn:E'; [|reflexivity].
      apply startsWith_app_l in E'. congruence.
  - destruct (startsWith (String c s) pat) eqn:E.
    + rewrite (replace_hit _ pat) by assumption. rewrite replace_app_hit.
      symmetry. now apply startsWith_elim.
    + rewrite (replace_miss _ _ pat) by assumption.
      rewrite replace_miss; [now rewrite IH|].
      destruct (startsWith _ (pat ++ t)) eqn:E'; [|reflexivity].
      apply startsWith_app_l in E'.
      rewrite startsWith_replace_extend in E' by lia. congruence.
Qed.

(** ** Occurrences of one character *)

Lemma find_char_None c s :
  find s (String c "") = None <-> hasChar c s = false.
Proof.
  induction s as [|a s IH]; [simpl; tauto|].
  change (find (String a s) (String c ""))
    with (if startsWith (String a s) (String c "") then Some 0
          else option_map S (find s (String c ""))).
  rewrite startsWith_cons, startsWith_nil, andb_true_r. simpl hasChar.
  destruct (Ascii.eqb a c); simpl; [split; discriminate|].
  destruct (find s (String c "")); simpl; split; intros H; try discriminate.
  - apply IH in H. discriminate.
  - now apply IH.
  - reflexivity.
Qed.

Lemma indexOf_0_lt0 s pat :
  (indexOf s pat 0 <? 0)%Z = match find s pat with Some _ => false | None => true end.
Proof.
  unfold indexOf. replace (Z.min (Z.max 0 0) (Z.of_nat (String.length s))) with 0%Z by lia.
  simpl. destruct (find s pat); [apply Z_of_nat_ltb_0 | reflexivity].
Qed.

Lemma indexOf_char_lt0 s c :
  (indexOf s (String c "") 0 <? 0)%Z = negb (hasChar c s).
Proof.
  rewrite indexOf_0_lt0.
  destruct (find s (String c "")) eqn:E.
  - destruct (hasChar c s) eqn:H; [reflexivity|].
    apply find_char_None in H. congruence.
  - apply find_char_None in E. now rewrite E.
Qed.

Lemma hasChar_app c a b : hasChar c (a ++ b) = hasChar c a || hasChar c b.
Proof.
  induction a as [|x a IH]; simpl; [reflexivity|]. now rewrite IH, orb_assoc.
Qed.

Lemma hasChar_drop c n s : hasChar c s = false -> hasChar c (drop n s) = false.
Proof.
  revert s; induction n as [|n IH]; intros [|a s] H; simpl; try assumption.
  simpl in H. apply orb_false_iff in H as [_ H]. now apply IH.
Qed.

Lemma hasChar_take c n s : hasChar c s = false -> hasChar c (take n s) = false.
Proof.
  revert s; induction n as [|n IH]; intros [|a s] H; simpl; try reflexivity.
  simpl in H. apply orb_false_iff in H as [Ha H]. rewrite Ha. now apply IH.
Qed.

(** [replace] keeps a character that [rep] holds too. *)
Lemma hasChar_replace c s pat rep :
  hasChar c s = true -> hasChar c rep = true ->
  hasChar c (replace s pat rep) = true.
Proof.
  intros Hs Hrep. induction s as [|a s IH]; [discriminate|].
  destruct (startsWith (String a s) pat) eqn:E.
  - rewrite replace_hit by assumption. now rewrite hasChar_app, Hrep.
  - rewrite replace_miss by assumption. simpl in *.
    destruct (Ascii.eqb a c); [reflexivity|]. now apply IH.
Qed.

(** ** [find] and [indexOf] *)

Lemma find_unfold s pat :
  find s pat =
  if startsWith s pat then Some 0
  else match s with
       | EmptyString => None
       | String _ s' => option_map S (find s' pat)
       end.
Proof. destruct s; reflexivity. Qed.

Lemma find_Some_0 s pat : find s pat = Some 0 <-> startsWith s pat = true.
Proof.
  rewrite find_unfold. destruct (startsWith s pat); [tauto|].
  split; [|discriminate]. destruct s as [|a s]; [discriminate|].
  destruct (find s pat); discriminate.
Qed.

Lemma length_drop n s : String.length (drop n s) = String.length s - n.
Proof.
  revert s; induction n as [|n IH]; intros [|a s]; simpl; auto.
Qed.

Lemma indexOf_at s pat (k : nat) :
  k <= String.length s ->
  (indexOf s pat (Z.of_nat k) =? Z.of_nat k)%Z = startsWith (drop k s) pat.
Proof.
  intros Hk. unfold indexOf.
  replace (Z.min (Z.max (Z.of_nat k) 0) (Z.of_nat (String.length s)))
    with (Z.of_nat k) by lia.
  rewrite Nat2Z.id. destruct (find (drop k s) pat) as [j|] eqn:F.
  - destruct j as [|j].
    + apply find_Some_0 in F. rewrite F. apply Z.eqb_eq. lia.
    + destruct (startsWith (drop k s) pat) eqn:E.
      * apply find_Some_0 in E. congruence.
      * apply Z.eqb_neq. lia.
  - destruct (startsWith (drop k s) pat) eqn:E.
    + apply find_Some_0 in E. congruence.
    + apply Z.eqb_neq. lia.
Qed.

Lemma indexOf_ge s pat from : (-1 <= indexOf s pat from)%Z.
Proof. unfold indexOf. destruct (find _ pat); lia. Qed.

Lemma get_None_ge s i : String.length s <= i -> get i s = None.
Proof.
  revert i; induction s as [|a s IH]; intros i H; [now destruct i|].
  destruct i as [|i]; simpl in *; [lia | apply IH; lia].
Qed.

Lemma get_Some_lt s i : i < String.length s -> exists c, get i s = Some c.
Proof.
  revert i; induction s as [|a s IH]; intros i H; [simpl in H; lia|].
  destruct i as [|i]; simpl in *; [eauto | apply IH; lia].
Qed.

End JSFacts.

(* ================================================================== *)
(** * The archive codec *)
(* ================================================================== *)

Section ArchiveCodec.
Import JS JSFacts.

Lemma archiveEncode_unfold m s :
  _archiveEncode m s =
  if hasChar "!" s
  then replace (replace s ".jar!" (".jar!" ++ sep m)) ".zip!" (".zip!" ++ sep m)
  else s.
Proof.
  unfold _archiveEncode, ARCHIVE_SEPARATOR. rewrite indexOf_char_lt0.
  destruct (hasChar "!" s); reflexivity.
Qed.

Lemma archiveDecode_unfold m s :
  _archiveDecode m s =
  if hasChar "!" s
  then _trimArchiveSuffix
         (replace (replace s (".jar!" ++ sep m) ".jar!") (".zip!" ++ sep m) ".zip!")
  else s.
Proof.
  unfold _archiveDecode, ARCHIVE_SEPARATOR. rewrite indexOf_char_lt0.
  destruct (hasChar "!" s); reflexivity.
Qed.

(** Without an archive separator both directions are the identity. *)
Lemma archiveEncode_plain m s : hasChar "!" s = false -> _archiveEncode m s = s.
Proof. intros H. now rewrite archiveEncode_unfold, H. Qed.

Lemma archiveDecode_plain m s : hasChar "!" s = false -> _archiveDecode m s = s.
Proof. intros H. now rewrite archiveDecode_unfold, H. Qed.

(** Undoing the [.jar!] insertion under the [.zip!] insertion leaves the
    [.zip!] insertion alone: the two patterns cannot overlap. *)
Lemma decode_jar_under_zip m s :
  replace (replace (replace s ".jar!" (".jar!" ++ sep m)) ".zip!" (".zip!" ++ sep m))
          (".jar!" ++ sep m) ".jar!"
  = replace s ".zip!" (".zip!" ++ sep m).
Proof.
  induction s as [|c s IH]; [destruct m; reflexivity|].
  destruct (startsWith (String c s) ".jar!") eqn:EJ.
  { apply startsWith_elim in EJ. rewrite EJ.
    generalize (drop (String.length ".jar!") (String c s)); intros r.
    destruct m; cbn; reflexivity. }
  destruct (startsWith (String c s) ".zip!") eqn:EZ.
  { apply startsWith_elim in EZ. rewrite EZ.
    generalize (drop (String.length ".zip!") (String c s)); intros r.
    pose proof (replace_extend_undo r ".jar!" (sep m)) as U.
    destruct m; cbn in *; now rewrite U. }
  rewrite (replace_miss c s ".jar!") by assumption.
  rewrite (replace_miss c _ ".zip!")
    by (rewrite startsWith_replace_extend by (simpl; lia); assumption).
  rewrite (replace_miss c _ (".jar!" ++ sep m)).
  - rewrite IH. now rewrite replace_miss by assumption.
  - destruct (startsWith _ (".jar!" ++ sep m)) eqn:E; [|reflexivity].
    apply startsWith_app_l in E.
    assert (T : take 5 (String c (replace (replace s ".jar!" (".jar!" ++ sep m))
                                    ".zip!" (".zip!" ++ sep m)))
                = take 5 (String c s)).
    { rewrite !(take_cons 4). f_equal.
      rewrite (take_replace_extend _ ".zip!") by (simpl; lia).
      apply (take_replace_extend _ ".jar!"). simpl; lia. }
    rewrite (startsWith_same_take _ (String c s) _ 5) in E
      by (simpl; solve [lia | exact T]).
    congruence.
Qed.

(** The two replacements of [_archiveDecode] undo the two of
    [_archiveEncode]. *)
Lemma decode_replaces_undo_encode m s :
  replace (replace (replace (replace s ".jar!" (".jar!" ++ sep m))
                      ".zip!" (".zip!" ++ sep m))
             (".jar!" ++ sep m) ".jar!")
          (".zip!" ++ sep m) ".zip!"
  = s.
Proof. rewrite decode_jar_under_zip. apply replace_extend_undo. Qed.

(** Round trip for every string the codec does not trim. *)
Lemma archive_roundtrip_untrimmed m s :
  _endsWithArchiveSeparator s = false ->
  _archiveDecode m (_archiveEncode m s) = s.
Proof.
  intros H. rewrite archiveEncode_unfold.
  destruct (hasChar "!" s) eqn:Hs; [|now apply archiveDecode_plain].
  rewrite archiveDecode_unfold.
  assert (Hj : hasChar "!" (replace s ".jar!" (".jar!" ++ sep m)) = true)
    by (apply hasChar_replace; [assumption | destruct m; reflexivity]).
  rewrite hasChar_replace by (try assumption; destruct m; reflexivity).
  rewrite decode_replaces_undo_encode. unfold _trimArchiveSuffix. now rewrite H.
Qed.

End ArchiveCodec.

(** ** The archive-separator test *)

Section ArchiveSeparatorTest.
Import JS JSFacts.

Lemma charAt_isSeparatorChar s i :
  String.eqb (charAt s (Z.of_nat i)) ARCHIVE_SEPARATOR = isSeparatorChar s i.
Proof.
  unfold charAt, isSeparatorChar. rewrite Z_of_nat_ltb_0, Nat2Z.id.
  destruct (get i s) as [c|]; [|reflexivity].
  unfold ARCHIVE_SEPARATOR. simpl. now destruct (Ascii.eqb c "!").
Qed.

Lemma isSeparatorChar_lt s i : isSeparatorChar s i = true -> i < String.length s.
Proof.
  unfold isSeparatorChar. intros H.
  destruct (Nat.lt_ge_cases i (String.length s)) as [L|G]; [assumption|].
  rewrite (get_None_ge _ _ G) in H. discriminate.
Qed.

(** At every position but 3 the test of the code is the specification's
    notion.  At position 3 the start of the extension is [-1], which is also
    what [indexOf] answers when the extension does not occur at all. *)
Lemma isArchiveSeparator_spec s i :
  i <> 3 -> _isArchiveSeparator s (Z.of_nat i) = archiveSeparatorAt s i.
Proof.
  intros Hi. unfold _isArchiveSeparator, archiveSeparatorAt.
  rewrite charAt_isSeparatorChar.
  destruct (isSeparatorChar s i) eqn:C;
    [|now rewrite andb_false_r].
  apply isSeparatorChar_lt in C.
  replace (Z.of_nat i <? Z.of_nat (String.length s))%Z with true
    by (symmetry; apply Z.ltb_lt; lia).
  simpl andb. unfold precededByExtension, KNOWN_ARCHIVE_EXTENSIONS.
  cbn [existsb String.length].
  destruct (Nat.le_gt_cases 4 i) as [G|L].
  - replace (Z.of_nat i - 4)%Z with (Z.of_nat (i - 4)) by lia.
    rewrite !indexOf_at by lia.
    replace (4 <=? i)%nat with true by (symmetry; apply Nat.leb_le; lia).
    reflexivity.
  - replace (4 <=? i)%nat with false by (symmetry; apply Nat.leb_gt; lia).
    simpl.
    pose proof (indexOf_ge s ".jar" (Z.of_nat i - 4)).
    pose proof (indexOf_ge s ".zip" (Z.of_nat i - 4)).
    replace (indexOf s ".jar" (Z.of_nat i - 4) =? Z.of_nat i - 4)%Z with false
      by (symmetry; apply Z.eqb_neq; lia).
    replace (indexOf s ".zip" (Z.of_nat i - 4) =? Z.of_nat i - 4)%Z with false
      by (symmetry; apply Z.eqb_neq; lia).
    reflexivity.
Qed.

(** Where the character is not the archive separator the two agree at every
    position, position 3 included. *)
Lemma isArchiveSeparator_other_char s i :
  isSeparatorChar s i = false ->
  _isArchiveSeparator s (Z.of_nat i) = archiveSeparatorAt s i.
Proof.
  intros C. unfold _isArchiveSeparator, archiveSeparatorAt.
  rewrite charAt_isSeparatorChar, C. now rewrite andb_false_r.
Qed.


End ArchiveSeparatorTest.

(* ================================================================== *)
(** * The last character and the archive separator *)
(* ================================================================== *)

Section RoundTrip.
Import JS JSFacts.

Lemma get_last_drop c s n :
  S n = String.length s -> get n s = Some c -> drop n s = String c "".
Proof.
  revert n; induction s as [|a s IH]; intros n Hn Hg; [discriminate|].
  destruct n as [|n]; simpl in *.
  - destruct s; [now inversion Hg | discriminate].
  - apply IH; [lia | assumption].
Qed.

Lemma endsWithArchiveSeparator_char s :
  _endsWithArchiveSeparator s = true -> endsWith s ARCHIVE_SEPARATOR = true.
Proof.
  unfold _endsWithArchiveSeparator, _isArchiveSeparator, charAt, endsWith.
  intros H. apply andb_true_iff in H as [H _]. apply andb_true_iff in H as [_ H].
  destruct s as [|a s]; [discriminate|].
  replace (Z.of_nat (String.length (String a s)) - 1)%Z
    with (Z.of_nat (String.length s)) in H by (simpl String.length; lia).
  rewrite Z_of_nat_ltb_0, Nat2Z.id in H.
  destruct (get (String.length s) (String a s)) as [c|] eqn:G; [|discriminate].
  apply String.eqb_eq in H. injection H as ->.
  simpl String.length. replace (S (String.length s) - 1) with (String.length s) by lia.
  rewrite (get_last_drop "!" (String a s) (String.length s)) by (simpl; auto).
  reflexivity.
Qed.

End RoundTrip.

(* ================================================================== *)
(** * Guards, dialect selection and [parse] *)
(* ================================================================== *)

Section Guards.
Import JS JSFacts.

Lemma indexOf_0 s pat :
  indexOf s pat 0 = match find s pat with Some i => Z.of_nat i | None => (-1)%Z end.
Proof.
  unfold indexOf.
  replace (Z.min (Z.max 0 0) (Z.of_nat (String.length s))) with 0%Z by lia.
  reflexivity.
Qed.

Lemma isRemote_elim s :
  isRemote s = true -> s = "nuclide://" ++ drop 10 s.
Proof. intros H. apply (startsWith_elim s "nuclide://") in H. exact H. Qed.

Lemma isAtomUri_elim s :
  isAtomUri s = true -> s = "atom://" ++ drop 7 s.
Proof. intros H. apply (startsWith_elim s "atom://") in H. exact H. Qed.

Lemma isAtomUri_not_remote s : isAtomUri s = true -> isRemote s = false.
Proof. intros H. apply isAtomUri_elim in H. rewrite H. reflexivity. Qed.

Lemma testForIllegalUri_atom s :
  isAtomUri s = true -> _testForIllegalUri s = Err IllegalLocation.
Proof. intros H. unfold _testForIllegalUri. now rewrite H. Qed.

Lemma testForIllegalUri_ok s :
  _testForIllegalUri s = Ok tt <->
  isAtomUri s = false /\ _endsWithArchiveSeparator s = false.
Proof.
  unfold _testForIllegalUri.
  destruct (isAtomUri s), (_endsWithArchiveSeparator s); split;
    intros H; try discriminate; try tauto; destruct H; discriminate.
Qed.

Lemma testForIllegalUri_cases s :
  _testForIllegalUri s = Ok tt \/ _testForIllegalUri s = Err IllegalLocation.
Proof.
  unfold _testForIllegalUri.
  destruct (isAtomUri s), (_endsWithArchiveSeparator s); auto.
Qed.

Lemma pathModuleFor_ok s :
  _endsWithArchiveSeparator s = false -> _pathModuleFor s = Ok (dialectOf s).
Proof.
  intros H. unfold dialectOf, _pathModuleFor. rewrite H. simpl.
  repeat match goal with |- context [if ?b then _ else _] => destruct b end;
    reflexivity.
Qed.

Lemma pathModuleFor_remote s :
  isRemote s = true -> _endsWithArchiveSeparator s = false ->
  _pathModuleFor s = Ok posix.
Proof.
  intros R H. unfold _pathModuleFor. rewrite H. simpl.
  apply isRemote_elim in R. rewrite R. reflexivity.
Qed.

Lemma dialectOf_remote s : isRemote s = true -> dialectOf s = posix.
Proof.
  intros R. unfold dialectOf, _pathModuleFor.
  destruct (_endsWithArchiveSeparator s); [reflexivity|]. simpl.
  apply isRemote_elim in R. rewrite R. reflexivity.
Qed.

Lemma wellFormed_elim s :
  wellFormed s = true ->
  _testForIllegalUri s = Ok tt
  /\ isAtomUri s = false
  /\ _endsWithArchiveSeparator s = false
  /\ (isRemote s = true -> exists p, parse s = Ok p).
Proof.
  unfold wellFormed. intros H.
  destruct (_testForIllegalUri s) as [[]|] eqn:T; [|discriminate].
  pose proof (proj1 (testForIllegalUri_ok s) T) as [A E].
  repeat split; try assumption.
  intros R. rewrite R in H. destruct (parse s) as [p|]; [eauto | discriminate].
Qed.

(** The first [/] of a string splits it into [upTo "/"] and the rest. *)
Lemma find_char_upTo c r i :
  find r (String c "") = Some i ->
  take i r = upTo c r
  /\ startsWith (drop i r) (String c "") = true
  /\ String.length (upTo c r) = i.
Proof.
  revert i; induction r as [|a r IH]; intros i H; [discriminate|].
  rewrite find_unfold, startsWith_cons in H. simpl in H.
  rewrite andb_true_r in H. simpl upTo.
  destruct (Ascii.eqb a c) eqn:E.
  - injection H as <-. simpl. rewrite E. auto.
  - destruct (find r (String c "")) as [j|] eqn:F; [|discriminate].
    injection H as <-. destruct (IH j eq_refl) as (T & S' & L).
    simpl. rewrite T, L. auto.
Qed.

Lemma hasChar_upTo c r : hasChar c (upTo c r) = false.
Proof.
  induction r as [|a r IH]; [reflexivity|]. simpl.
  destruct (Ascii.eqb a c) eqn:E; [reflexivity|]. simpl. now rewrite E.
Qed.

(** What [parse] returns for a remote location. *)
Lemma parse_remote s p :
  isRemote s = true -> parse s = Ok p ->
  hostname p = Some (hostnameOf s)
  /\ hostnameOf s <> ""
  /\ s = "nuclide://" ++ hostnameOf s ++ path p
  /\ startsWith (path p) "/" = true
  /\ _endsWithArchiveSeparator s = false.
Proof.
  intros R P. unfold parse in P. unfold isRemote in R. rewrite R in P.
  unfold hostnameOf. pose proof (isRemote_elim s R) as Es.
  change (String.length REMOTE_PATH_URI_PREFIX) with 10 in *.
  set (r := drop 10 s) in *. rewrite indexOf_0 in P.
  destruct (find r "/") as [i|] eqn:F; [|discriminate].
  apply find_char_upTo in F as (T & S' & L).
  replace (negb (Z.of_nat i =? -1)%Z) with true in P
    by (symmetry; apply negb_true_iff, Z.eqb_neq; lia).
  simpl in P. rewrite Nat2Z.id, T in P.
  destruct (String.eqb (upTo "/" r) "") eqn:E1; [discriminate|]. simpl in P.
  destruct (_endsWithArchiveSeparator s) eqn:E2; [discriminate|]. simpl in P.
  injection P as <-. simpl. repeat split.
  - now apply String.eqb_neq.
  - rewrite <- T, take_drop. exact Es.
  - exact S'.
Qed.

Lemma parseRemoteUri_ok s p :
  isRemote s = true -> parse s = Ok p ->
  parseRemoteUri s =
  Ok {| remote_hostname := hostnameOf s; remote_path := path p |}.
Proof.
  intros R P. destruct (parse_remote s p R P) as (H & N & _).
  unfold parseRemoteUri. rewrite R, P. simpl. rewrite H.
  apply String.eqb_neq in N. now rewrite N.
Qed.

Lemma getHostname_ok s :
  isRemote s = true -> wellFormed s = true -> getHostname s = Ok (hostnameOf s).
Proof.
  intros R W. destruct (wellFormed_elim s W) as (_ & _ & _ & P).
  destruct (P R) as [p Hp]. unfold getHostname.
  now rewrite (parseRemoteUri_ok s p R Hp).
Qed.

End Guards.

(* ================================================================== *)
(** * Splitting and joining at a character *)
(* ================================================================== *)

Section PathLists.
Import JS JSFacts.

Lemma delimiter_char m : delimiter m = String (delimiterChar m) "".
Proof. destruct m; reflexivity. Qed.

Lemma split_plain c x :
  hasChar c x = false -> split x (String c "") = [x].
Proof.
  unfold split. induction x as [|a x IH]; intros H; [reflexivity|].
  simpl in H. apply orb_false_iff in H as [Ha Hx].
  cbn [split_go]. rewrite startsWith_cons, Ha. simpl. now rewrite (IH Hx).
Qed.

Lemma split_app_sep c x r :
  hasChar c x = false ->
  split (x ++ String c r) (String c "") = x :: split r (String c "").
Proof.
  unfold split. induction x as [|a x IH]; intros H.
  - cbn [append split_go]. rewrite startsWith_cons, Ascii.eqb_refl. reflexivity.
  - simpl in H. apply orb_false_iff in H as [Ha Hx].
    cbn [append split_go]. rewrite startsWith_cons, Ha. simpl. now rewrite (IH Hx).
Qed.

Lemma split_join_char c xs :
  xs <> [] ->
  forallb (fun x => negb (hasChar c x)) xs = true ->
  split (join xs (String c "")) (String c "") = xs.
Proof.
  unfold join. induction xs as [|x xs IH]; intros N H; [congruence|].
  simpl in H. apply andb_true_iff in H as [Hx Hxs]. apply negb_true_iff in Hx.
  destruct xs as [|y ys].
  - simpl. now apply split_plain.
  - change (String.concat (String c "") (x :: y :: ys))
      with (x ++ String c (String.concat (String c "") (y :: ys))).
    rewrite split_app_sep by assumption. f_equal. apply IH; [discriminate | assumption].
Qed.

End PathLists.

(* ================================================================== *)
(** * Atom URIs *)
(* ================================================================== *)

Lemma parse_atom (uri : string) :
  isAtomUri uri = true -> parse uri = Err IllegalLocation.
Proof.
  intros H. apply isAtomUri_elim in H. rewrite H. unfold parse.
  rewrite indexOf_0. reflexivity.
Qed.

(* ================================================================== *)
(** * Strings that start with a tilde *)
(* ================================================================== *)

Section HomeDir.
Import JS JSFacts.
Context {node : Node}.

Lemma tilde_not_remote uri : startsWith uri "~" = true -> isRemote uri = false.
Proof. intros H. apply startsWith_elim in H. rewrite H. reflexivity. Qed.

Lemma tilde_replace uri :
  startsWith uri "~" = true -> replace uri "~" "." = "." ++ drop 1 uri.
Proof. intros H. now rewrite replace_hit by assumption. Qed.

End HomeDir.

(* ================================================================== *)
(** * Containment *)
(* ================================================================== *)

Section Contains.
Import JS JSFacts.

Lemma eqb_length_neq a b :
  String.length a <> String.length b -> String.eqb a b = false.
Proof. intros H. apply String.eqb_neq. intros ->. now apply H. Qed.

Lemma startsWith_length s pat :
  startsWith s pat = true -> String.length pat <= String.length s.
Proof.
  intros H. apply startsWith_elim in H. rewrite H, length_append. lia.
Qed.

Lemma length_0_nil s : String.length s = 0 -> s = "".
Proof. destruct s; [reflexivity | discriminate]. Qed.

Lemma startsWith_same_length s pat :
  startsWith s pat = true -> String.length s = String.length pat -> s = pat.
Proof.
  intros H L. apply startsWith_elim in H. rewrite H in L |- *.
  rewrite length_append in L.
  rewrite (length_0_nil (drop (String.length pat) s)) by lia.
  apply append_nil_r.
Qed.

Lemma eqb_app_l a b q : String.eqb (a ++ b) (a ++ q) = String.eqb b q.
Proof.
  induction a as [|c a IH]; [reflexivity|]. simpl. now rewrite Ascii.eqb_refl.
Qed.

Lemma drop_app_length a b : drop (String.length a) (a ++ b) = b.
Proof. apply drop_app. Qed.

Lemma endsWith_app_same a b q :
  String.length b = String.length q ->
  endsWith (a ++ b) q = String.eqb b q.
Proof.
  intros L. unfold endsWith. rewrite length_append.
  replace (String.length q <=? String.length a + String.length b)%nat with true
    by (symmetry; apply Nat.leb_le; lia).
  replace (String.length a + String.length b - String.length q)
    with (String.length a) by lia.
  now rewrite drop_app.
Qed.

Lemma length_sep m : String.length (sep m) = 1.
Proof. destruct m; reflexivity. Qed.

Lemma endsWithSeparator_ok s :
  wellFormed s = true ->
  endsWithSeparator s = Ok (endsWith s (sep (dialectOf s))).
Proof.
  intros W. destruct (wellFormed_elim s W) as (T & _ & E & _).
  unfold endsWithSeparator. now rewrite T, (pathModuleFor_ok s E).
Qed.

Lemma isArchiveSeparator_beyond s i :
  String.length s <= i -> _isArchiveSeparator s (Z.of_nat i) = false.
Proof.
  intros H. unfold _isArchiveSeparator.
  replace (Z.of_nat i <? Z.of_nat (String.length s))%Z with false
    by (symmetry; apply Z.ltb_ge; lia).
  reflexivity.
Qed.

Lemma contains_refl parent :
  wellFormed parent = true -> contains parent parent = Ok true.
Proof.
  intros W. destruct (wellFormed_elim parent W) as (T & _).
  unfold contains. rewrite T. cbn [bind].
  rewrite Nat.ltb_irrefl, startsWith_refl. cbn [negb].
  rewrite (endsWithSeparator_ok parent W). cbn [bind].
  now rewrite Nat.eqb_refl, orb_true_r.
Qed.

Lemma contains_short parent child :
  wellFormed parent = true -> wellFormed child = true ->
  String.length child + 1 < String.length parent ->
  contains parent child = Ok false.
Proof.
  intros Wp Wc L.
  destruct (wellFormed_elim parent Wp) as (Tp & _).
  destruct (wellFormed_elim child Wc) as (Tc & _).
  unfold contains. rewrite Tp, Tc. cbn [bind].
  replace (String.length child <? String.length parent)%nat with true
    by (symmetry; apply Nat.ltb_lt; lia).
  replace (String.length child <? String.length parent - 1)%nat with true
    by (symmetry; apply Nat.ltb_lt; lia).
  reflexivity.
Qed.

Lemma contains_boundary parent child :
  wellFormed parent = true -> wellFormed child = true ->
  String.length parent < String.length child ->
  startsWith child parent = true ->
  endsWith parent (sep (dialectOf parent)) = true
  \/ startsWith (drop (String.length parent) child) (sep (dialectOf child)) = true ->
  contains parent child = Ok true.
Proof.
  intros Wp Wc L S B.
  destruct (wellFormed_elim parent Wp) as (Tp & _).
  destruct (wellFormed_elim child Wc) as (Tc & _ & Ec & _).
  unfold contains. rewrite Tp, Tc. cbn [bind].
  replace (String.length child <? String.length parent)%nat with false
    by (symmetry; apply Nat.ltb_ge; lia).
  rewrite S. cbn [negb]. rewrite (endsWithSeparator_ok parent Wp). cbn [bind].
  destruct (endsWith parent (sep (dialectOf parent))); [reflexivity|].
  destruct B as [B|B]; [discriminate|].
  replace (String.length parent =? String.length child)%nat with false
    by (symmetry; apply Nat.eqb_neq; lia).
  cbn [orb]. rewrite (pathModuleFor_ok child Ec). cbn [bind].
  now rewrite B, orb_true_r.
Qed.

Lemma contains_isSameOrDescendant parent child :
  wellFormed parent = true -> wellFormed child = true ->
  String.length parent <> 3 \/ isSeparatorChar child 3 = false ->
  contains parent child = Ok (isSameOrDescendant parent child).
Proof.
  intros Wp Wc L3.
  destruct (wellFormed_elim parent Wp) as (Tp & _).
  destruct (wellFormed_elim child Wc) as (Tc & _ & Ec & _).
  unfold contains, isSameOrDescendant. rewrite Tp, Tc. cbn [bind].
  destruct (String.length child <? String.length parent)%nat eqn:Lt.
  - apply Nat.ltb_lt in Lt.
    rewrite (eqb_length_neq child parent) by lia.
    replace (String.length parent <? String.length child)%nat with false
      by (symmetry; apply Nat.ltb_ge; lia).
    cbn [orb andb]. rewrite orb_false_r.
    destruct (String.length child <? String.length parent - 1)%nat eqn:Lt2.
    + apply Nat.ltb_lt in Lt2. f_equal. symmetry. apply eqb_length_neq.
      rewrite length_append, length_sep. lia.
    + apply Nat.ltb_ge in Lt2.
      destruct (startsWith parent child) eqn:S.
      * rewrite (endsWithSeparator_ok parent Wp). cbn [bind].
        rewrite isArchiveSeparator_beyond by lia. rewrite orb_false_r.
        pose proof (startsWith_elim _ _ S) as E.
        set (r := drop (String.length child) parent) in *.
        assert (Lr : String.length r = 1).
        { assert (String.length parent = String.length child + String.length r)
            by (rewrite E at 1; apply length_append). lia. }
        f_equal. rewrite E at 1 3.
        rewrite endsWith_app_same by (now rewrite length_sep).
        now rewrite eqb_app_l.
      * f_equal. symmetry. apply String.eqb_neq. intros E.
        rewrite E, startsWith_app in S. discriminate.
  - apply Nat.ltb_ge in Lt.
    rewrite (eqb_length_neq parent (child ++ _))
      by (rewrite length_append, length_sep; lia).
    rewrite orb_false_r.
    destruct (startsWith child parent) eqn:S; cbn [negb].
    + rewrite (endsWithSeparator_ok parent Wp). cbn [bind].
      destruct (String.length parent =? String.length child)%nat eqn:Le.
      * apply Nat.eqb_eq in Le.
        rewrite (startsWith_same_length child parent S) by lia.
        now rewrite String.eqb_refl, orb_true_r.
      * apply Nat.eqb_neq in Le.
        rewrite (eqb_length_neq child parent) by lia.
        replace (String.length parent <? String.length child)%nat with true
          by (symmetry; apply Nat.ltb_lt; lia).
        cbn [orb andb]. rewrite orb_false_r.
        destruct (endsWith parent (sep (dialectOf parent))); [reflexivity|].
        cbn [orb]. rewrite (pathModuleFor_ok child Ec). cbn [bind].
        assert (A : _isArchiveSeparator child (Z.of_nat (String.length parent))
                    = archiveSeparatorAt child (String.length parent)).
        { destruct L3 as [L3|L3]; [now apply isArchiveSeparator_spec|].
          destruct (Nat.eq_dec (String.length parent) 3) as [E3|N3];
            [|now apply isArchiveSeparator_spec].
          apply isArchiveSeparator_other_char. now rewrite E3. }
        rewrite A. f_equal. apply orb_comm.
    + rewrite andb_false_r, orb_false_r. f_equal. symmetry.
      apply String.eqb_neq. intros ->. rewrite startsWith_refl in S. discriminate.
Qed.

End Contains.

(* ================================================================== *)
(** * [Posix.normalize] is idempotent *)
(* ================================================================== *)

Section PosixFacts.
Import JS JSFacts.

Lemma drop_app_ge a b n :
  String.length a <= n -> drop n (a ++ b) = drop (n - String.length a) b.
Proof.
  revert n; induction a as [|c a IH]; intros n H; simpl.
  - now rewrite Nat.sub_0_r.
  - destruct n as [|n]; [simpl in H; lia|]. simpl. apply IH. simpl in H. lia.
Qed.

Lemma endsWith_app_nonempty a b c :
  b <> "" ->
  endsWith (a ++ b) (String c "") = endsWith b (String c "").
Proof.
  intros N. unfold endsWith. rewrite length_append.
  assert (0 < String.length b) by (destruct b; [congruence | simpl; lia]).
  simpl (String.length (String c "")).
  replace (1 <=? String.length a + String.length b)%nat with true
    by (symmetry; apply Nat.leb_le; lia).
  replace (1 <=? String.length b)%nat with true
    by (symmetry; apply Nat.leb_le; lia).
  rewrite drop_app_ge by lia.
  replace (String.length a + String.length b - 1 - String.length a)
    with (String.length b - 1) by lia.
  reflexivity.
Qed.

Lemma endsWith_nochar b c :
  hasChar c b = false -> endsWith b (String c "") = false.
Proof.
  intros H. unfold endsWith.
  destruct (String.eqb (drop _ b) (String c "")) eqn:E;
    [|now rewrite andb_false_r].
  apply String.eqb_eq in E.
  pose proof (hasChar_drop c (String.length b - String.length (String c "")) b H) as D.
  rewrite E in D. simpl in D. now rewrite Ascii.eqb_refl in D.
Qed.

Lemma endsWith_snoc a c : endsWith (a ++ String c "") (String c "") = true.
Proof. rewrite endsWith_app_same by reflexivity. apply String.eqb_refl. Qed.

(** ** Splitting at a character *)

Lemma split_cons_sep c r :
  split (String c r) (String c "") = "" :: split r (String c "").
Proof. apply (split_app_sep c "" r). reflexivity. Qed.

Lemma split_segments_free c s :
  forallb (fun x => negb (hasChar c x)) (split s (String c "")) = true.
Proof.
  unfold split. induction s as [|a s IH]; [reflexivity|].
  cbn [split_go]. rewrite startsWith_cons. simpl (startsWith s "").
  rewrite andb_true_r. destruct (Ascii.eqb a c) eqn:E; [exact IH|].
  destruct (split_go (String c "") 0 s) as [|x xs]; simpl in *; rewrite E;
    [reflexivity | exact IH].
Qed.

Lemma split_nochar d c s :
  hasChar d s = false ->
  forallb (fun x => negb (hasChar d x)) (split s (String c "")) = true.
Proof.
  unfold split. induction s as [|a s IH]; intros H; [reflexivity|].
  simpl in H. apply orb_false_iff in H as [Ha Hs]. specialize (IH Hs).
  cbn [split_go]. destruct (startsWith (String a s) (String c "")); [exact IH|].
  destruct (split_go (String c "") 0 s) as [|x xs]; simpl in *; rewrite Ha;
    [reflexivity | exact IH].
Qed.

Lemma join_cons2 x y ys sepstr :
  join (x :: y :: ys) sepstr = x ++ sepstr ++ join (y :: ys) sepstr.
Proof. reflexivity. Qed.

Lemma split_join_trailing c xs :
  xs <> [] ->
  forallb (fun x => negb (hasChar c x)) xs = true ->
  split (join xs (String c "") ++ String c "") (String c "") = (xs ++ [""])%list.
Proof.
  induction xs as [|x xs IH]; intros N H; [congruence|].
  simpl in H. apply andb_true_iff in H as [Hx Hxs]. apply negb_true_iff in Hx.
  destruct xs as [|y ys].
  - simpl join. now rewrite split_app_sep by assumption.
  - rewrite join_cons2, !append_assoc.
    change (String c "" ++ ?t) with (String c t).
    rewrite split_app_sep by assumption. simpl. f_equal.
    apply IH; [discriminate | assumption].
Qed.

(** ** The segment loop *)

Lemma isName_elim seg :
  isName seg = true ->
  String.eqb seg "" = false /\ String.eqb seg "." = false
  /\ String.eqb seg ".." = false /\ hasChar "/" seg = false.
Proof.
  unfold isName. intros H.
  repeat (apply andb_true_iff in H as [H ?]).
  repeat split; now apply negb_true_iff.
Qed.

Lemma step_name allow stack seg :
  isName seg = true -> Posix.step allow stack seg = seg :: stack.
Proof.
  intros H. apply isName_elim in H as (E1 & E2 & E3 & _).
  unfold Posix.step. now rewrite E1, E2, E3.
Qed.

Lemma step_dots stack n :
  stack = repeat ".." n -> Posix.step true stack ".." = ".." :: stack.
Proof. intros ->. destruct n; reflexivity. Qed.

Lemma step_normal allow stack seg :
  hasChar "/" seg = false ->
  NormalStack allow stack -> NormalStack allow (Posix.step allow stack seg).
Proof.
  intros F N. unfold Posix.step.
  destruct (String.eqb seg "") eqn:E1; [exact N|].
  destruct (String.eqb seg ".") eqn:E2; [exact N|]. cbn [orb].
  destruct (String.eqb seg "..") eqn:E3.
  - destruct N as [n Hn | top rest Htop Hrest].
    + destruct n as [|n]; simpl.
      * destruct allow eqn:A; [apply (NS_dots true 1); now right|].
        apply (NS_dots false 0). now left.
      * destruct allow eqn:A.
        -- apply (NS_dots true (S (S n))). now right.
        -- apply (NS_dots false (S n)). exact Hn.
    + apply isName_elim in Htop as (_ & _ & T & _). now rewrite T.
  - apply NS_name; [|exact N]. unfold isName. now rewrite E1, E2, E3, F.
Qed.

Lemma fold_step_normal allow segs stack :
  forallb (fun x => negb (hasChar "/" x)) segs = true ->
  NormalStack allow stack ->
  NormalStack allow (fold_left (Posix.step allow) segs stack).
Proof.
  revert stack; induction segs as [|seg segs IH]; intros stack F N; [exact N|].
  simpl in F. apply andb_true_iff in F as [Fs F]. apply negb_true_iff in Fs.
  simpl. apply IH; [assumption|]. now apply step_normal.
Qed.

Lemma segments_normal path allow :
  NormalStack allow (rev (Posix.segments path allow)).
Proof.
  unfold Posix.segments. rewrite rev_involutive.
  apply fold_step_normal; [apply split_segments_free|].
  apply (NS_dots allow 0). now left.
Qed.

(** Running the loop again over a normal list of segments rebuilds it. *)
Lemma fold_rev_normal allow stack :
  NormalStack allow stack ->
  fold_left (Posix.step allow) (rev stack) [] = stack.
Proof.
  induction 1 as [n Hn | seg stack Hseg Hstack IH].
  - induction n as [|n IHn]; [reflexivity|].
    destruct Hn as [Hn | ->]; [discriminate|].
    simpl. rewrite fold_left_app, IHn by now right. simpl.
    apply (step_dots _ n). reflexivity.
  - simpl. rewrite fold_left_app, IH. simpl. now apply step_name.
Qed.

Lemma normal_segOk allow stack :
  NormalStack allow stack ->
  forallb (fun x => negb (String.eqb x "") && negb (hasChar "/" x)) stack = true.
Proof.
  induction 1 as [n Hn | seg stack Hseg Hstack IH].
  - induction n as [|n IHn]; [reflexivity|]. simpl. apply IHn.
    destruct Hn as [Hn | Hn]; [discriminate | now right].
  - simpl. apply isName_elim in Hseg as (E & _ & _ & F). now rewrite E, F, IH.
Qed.

Lemma forallb_rev {A} (f : A -> bool) l : forallb f (rev l) = forallb f l.
Proof.
  induction l as [|x l IH]; [reflexivity|].
  simpl. rewrite forallb_app, IH. simpl. rewrite andb_true_r. apply andb_comm.
Qed.

Lemma segOk_free segs :
  forallb (fun x => negb (String.eqb x "") && negb (hasChar "/" x)) segs = true ->
  forallb (fun x => negb (hasChar "/" x)) segs = true.
Proof.
  induction segs as [|x xs IH]; [reflexivity|]. simpl. intros H.
  apply andb_true_iff in H as [H1 H2]. apply andb_true_iff in H1 as [_ H1].
  now rewrite H1, IH.
Qed.

(** ** The joined segments *)

Lemma join_nonempty x xs : x <> "" -> join (x :: xs) "/" <> "".
Proof.
  intros N. destruct xs; simpl; [exact N|].
  destruct x; [congruence | discriminate].
Qed.

Lemma join_not_trailing pre segs :
  segs <> [] ->
  forallb (fun x => negb (String.eqb x "") && negb (hasChar "/" x)) segs = true ->
  endsWith (pre ++ join segs "/") "/" = false.
Proof.
  revert pre; induction segs as [|x xs IH]; intros pre N H; [congruence|].
  simpl in H. apply andb_true_iff in H as [Hx Hxs].
  apply andb_true_iff in Hx as [Hx1 Hx2].
  apply negb_true_iff in Hx1, Hx2. apply String.eqb_neq in Hx1.
  destruct xs as [|y ys].
  - simpl join. rewrite endsWith_app_nonempty by assumption.
    now apply endsWith_nochar.
  - rewrite join_cons2, <- !append_assoc. apply IH; [discriminate | assumption].
Qed.

Lemma join_not_absolute segs t :
  segs <> [] ->
  forallb (fun x => negb (String.eqb x "") && negb (hasChar "/" x)) segs = true ->
  Posix.isAbsolute (join segs "/" ++ t) = false.
Proof.
  intros N H. destruct segs as [|x xs]; [congruence|].
  simpl in H. apply andb_true_iff in H as [Hx _].
  apply andb_true_iff in Hx as [Hx1 Hx2].
  apply negb_true_iff in Hx1, Hx2. apply String.eqb_neq in Hx1.
  destruct x as [|a x]; [congruence|]. simpl in Hx2.
  apply orb_false_iff in Hx2 as [Ha _].
  unfold Posix.isAbsolute. destruct xs; simpl; now rewrite Ha.
Qed.

(** ** Idempotence *)

Lemma normalize_render path :
  path <> "" ->
  Posix.normalize path =
  render (Posix.isAbsolute path) (endsWith path "/")
         (Posix.segments path (negb (Posix.isAbsolute path))).
Proof.
  intros N. unfold Posix.normalize. apply String.eqb_neq in N. now rewrite N.
Qed.

Lemma segments_rebuilt allow segs t :
  segs <> [] ->
  NormalStack allow (rev segs) ->
  t = "" \/ t = "/" ->
  Posix.segments (join segs "/" ++ t) allow = segs.
Proof.
  intros N H T. unfold Posix.segments.
  pose proof (normal_segOk _ _ H) as F. rewrite forallb_rev in F.
  apply segOk_free in F.
  destruct T as [-> | ->].
  - rewrite append_nil_r, split_join_char by assumption.
    rewrite <- (rev_involutive segs) at 1.
    rewrite fold_rev_normal by assumption. apply rev_involutive.
  - rewrite split_join_trailing by assumption.
    rewrite fold_left_app. rewrite <- (rev_involutive segs) at 1.
    rewrite fold_rev_normal by assumption. simpl. apply rev_involutive.
Qed.

Lemma segments_rebuilt_root allow segs t :
  segs <> [] ->
  NormalStack allow (rev segs) ->
  t = "" \/ t = "/" ->
  Posix.segments ("/" ++ join segs "/" ++ t) allow = segs.
Proof.
  intros N H T. unfold Posix.segments.
  change ("/" ++ join segs "/" ++ t) with (String "/" (join segs "/" ++ t)).
  rewrite split_cons_sep. simpl fold_left.
  now apply segments_rebuilt.
Qed.

Lemma normalize_render_normal isAbs trailing segs :
  NormalStack (negb isAbs) (rev segs) ->
  Posix.normalize (render isAbs trailing segs) = render isAbs trailing segs.
Proof.
  intros H. destruct segs as [|x xs].
  { destruct isAbs, trailing; reflexivity. }
  pose proof (normal_segOk _ _ H) as F. rewrite forallb_rev in F.
  assert (Nx : x <> "").
  { simpl in F. apply andb_true_iff in F as [F _].
    apply andb_true_iff in F as [F _]. apply negb_true_iff in F.
    now apply String.eqb_neq. }
  pose proof (join_nonempty x xs Nx) as Nj. apply String.eqb_neq in Nj.
  set (segs := x :: xs) in *.
  assert (Ns : segs <> []) by discriminate.
  assert (R : render isAbs trailing segs =
              (if isAbs then "/" else "") ++ join segs "/"
              ++ (if trailing then "/" else "")).
  { unfold render. cbv zeta. rewrite Nj. cbn [andb negb]. rewrite Nj.
    destruct isAbs, trailing; simpl; now rewrite ?append_nil_r. }
  assert (T : (if trailing then "/" else "") = "" \/ (if trailing then "/" else "") = "/")
    by (destruct trailing; auto).
  assert (E : endsWith (render isAbs trailing segs) "/" = trailing).
  { rewrite R. destruct trailing.
    - rewrite <- !append_assoc. apply endsWith_snoc.
    - rewrite append_nil_r. now apply join_not_trailing. }
  assert (A : Posix.isAbsolute (render isAbs trailing segs) = isAbs).
  { rewrite R. destruct isAbs; [reflexivity|]. now apply join_not_absolute. }
  assert (Nr : render isAbs trailing segs <> "").
  { rewrite R. destruct isAbs; [discriminate|]. cbn [append].
    apply String.eqb_neq in Nj. intros Z. apply Nj.
    destruct (join segs "/"); [reflexivity | discriminate]. }
  rewrite normalize_render by assumption. rewrite E, A. f_equal.
  rewrite R. destruct isAbs.
  - now apply segments_rebuilt_root.
  - now apply segments_rebuilt.
Qed.

Lemma posix_normalize_idempotent path :
  Posix.normalize (Posix.normalize path) = Posix.normalize path.
Proof.
  destruct (String.eqb path "") eqn:E.
  - apply String.eqb_eq in E. subst. reflexivity.
  - apply String.eqb_neq in E. rewrite (normalize_render path E).
    apply normalize_render_normal. apply segments_normal.
Qed.

Lemma posix_normalize_absolute path :
  Posix.isAbsolute path = true -> Posix.isAbsolute (Posix.normalize path) = true.
Proof.
  intros A. unfold Posix.normalize.
  destruct (String.eqb path "") eqn:E.
  - apply String.eqb_eq in E. subst. discriminate.
  - now rewrite A.
Qed.

(** ** Characters of the result *)

Lemma step_nochar d allow stack seg :
  hasChar d ".." = false ->
  forallb (fun x => negb (hasChar d x)) stack = true ->
  hasChar d seg = false ->
  forallb (fun x => negb (hasChar d x)) (Posix.step allow stack seg) = true.
Proof.
  intros D F S. unfold Posix.step.
  destruct (String.eqb seg "" || String.eqb seg "."); [exact F|].
  destruct (String.eqb seg "..").
  - destruct stack as [|top rest].
    + destruct allow; cbn [forallb]; [now rewrite D | reflexivity].
    + cbn [forallb] in F. apply andb_true_iff in F as [F1 F2].
      destruct (String.eqb top ".."); [|exact F2].
      destruct allow; cbn [forallb]; now rewrite ?D, F1, F2.
  - cbn [forallb]. now rewrite S, F.
Qed.

Lemma fold_step_nochar d allow segs stack :
  hasChar d ".." = false ->
  forallb (fun x => negb (hasChar d x)) segs = true ->
  forallb (fun x => negb (hasChar d x)) stack = true ->
  forallb (fun x => negb (hasChar d x))
          (fold_left (Posix.step allow) segs stack) = true.
Proof.
  intros D. revert stack; induction segs as [|seg segs IH]; intros stack F N;
    [exact N|].
  simpl in F. apply andb_true_iff in F as [Fs F]. apply negb_true_iff in Fs.
  simpl. apply IH; [assumption|]. now apply step_nochar.
Qed.

Lemma join_nochar d segs :
  hasChar d "/" = false ->
  forallb (fun x => negb (hasChar d x)) segs = true ->
  hasChar d (join segs "/") = false.
Proof.
  intros D. induction segs as [|x xs IH]; intros F; [reflexivity|].
  simpl in F. apply andb_true_iff in F as [Fx F]. apply negb_true_iff in Fx.
  destruct xs as [|y ys]; [exact Fx|].
  rewrite join_cons2, !hasChar_app, Fx, D. simpl. now apply IH.
Qed.

Lemma posix_normalize_nochar d path :
  Ascii.eqb "." d = false -> Ascii.eqb "/" d = false ->
  hasChar d path = false -> hasChar d (Posix.normalize path) = false.
Proof.
  intros D1 D2 H.
  assert (Dd : hasChar d "." = false) by (cbn [hasChar]; now rewrite D1).
  assert (Ds : hasChar d "/" = false) by (cbn [hasChar]; now rewrite D2).
  assert (Ddd : hasChar d ".." = false) by (cbn [hasChar]; now rewrite D1).
  unfold Posix.normalize. destruct (String.eqb path ""); [exact Dd|].
  assert (J : hasChar d (Posix.normalizeString path
                           (negb (Posix.isAbsolute path))) = false).
  { unfold Posix.normalizeString, Posix.segments. apply join_nochar; [exact Ds|].
    rewrite forallb_rev. apply fold_step_nochar; try assumption; [|reflexivity].
    now apply split_nochar. }
  set (q := Posix.normalizeString path (negb (Posix.isAbsolute path))) in *.
  destruct (String.eqb q "" && negb (Posix.isAbsolute path));
    destruct (Posix.isAbsolute path);
    repeat match goal with
      | |- context [if ?b then _ else _] => destruct b
      end;
    rewrite ?hasChar_app, ?J, ?Dd, ?Ds; reflexivity.
Qed.

End PosixFacts.

(* ================================================================== *)
(** * [normalize] on locations without archive separators *)
(* ================================================================== *)

Section NormalizeTwice.
Import JS JSFacts.

Lemma noBang_not_endsWithArchiveSeparator x :
  hasChar "!" x = false -> _endsWithArchiveSeparator x = false.
Proof.
  intros H. destruct (_endsWithArchiveSeparator x) eqn:E; [|reflexivity].
  apply endsWithArchiveSeparator_char in E.
  unfold ARCHIVE_SEPARATOR in E. rewrite endsWith_nochar in E by assumption.
  discriminate.
Qed.

Lemma find_char_app c h x :
  hasChar c h = false -> startsWith x (String c "") = true ->
  find (h ++ x) (String c "") = Some (String.length h).
Proof.
  intros H X. induction h as [|a h IH]; simpl append.
  - now apply find_Some_0.
  - simpl in H. apply orb_false_iff in H as [Ha Hh].
    rewrite find_unfold, startsWith_cons, Ha. simpl. now rewrite IH.
Qed.

(** [parse] accepts what [createRemoteUri] builds from a hostname and an
    absolute path. *)
Lemma parse_createRemoteUri h x :
  h <> "" -> hasChar "/" h = false -> startsWith x "/" = true ->
  _endsWithArchiveSeparator ("nuclide://" ++ h ++ x) = false ->
  parse ("nuclide://" ++ h ++ x) = Ok {| hostname := Some h; path := x |}.
Proof.
  intros N F X E. unfold parse.
  change (startsWith ("nuclide://" ++ h ++ x) REMOTE_PATH_URI_PREFIX) with true.
  cbv iota.
  change (drop (String.length REMOTE_PATH_URI_PREFIX) ("nuclide://" ++ h ++ x))
    with (h ++ x).
  rewrite indexOf_0, (find_char_app "/" h x F X).
  replace (negb (Z.of_nat (String.length h) =? -1)%Z) with true
    by (symmetry; apply negb_true_iff, Z.eqb_neq; lia).
  rewrite Nat2Z.id, take_app, drop_app, E.
  apply String.eqb_neq in N. now rewrite N.
Qed.

Lemma get_hasChar i s c : get i s = Some c -> hasChar c s = true.
Proof.
  revert i; induction s as [|a s IH]; intros i H; [now destruct i|].
  destruct i as [|i]; simpl in *.
  - injection H as ->. now rewrite Ascii.eqb_refl.
  - rewrite (IH i H). apply orb_true_r.
Qed.

Lemma split_nonempty s sepstr : split s sepstr <> [].
Proof.
  unfold split. generalize 0 as k. induction s as [|a s IH]; intros k;
    [discriminate|].
  cbn [split_go]. destruct k; [|apply IH].
  destruct (startsWith (String a s) sepstr); [discriminate|].
  destruct (split_go sepstr 0 s); discriminate.
Qed.

(** A string without a backslash is given the POSIX dialect. *)
Lemma pathModuleFor_no_backslash s :
  hasChar "\" s = false -> _endsWithArchiveSeparator s = false ->
  _pathModuleFor s = Ok posix.
Proof.
  intros B E. unfold _pathModuleFor. rewrite E. cbn [negb invariant bind].
  destruct (startsWith s (sep posix)); [reflexivity|].
  destruct (indexOf s "://" 0 >? -1)%Z; [reflexivity|].
  assert (C : String.eqb (charAt s 2) (sep win32) = false).
  { unfold charAt. simpl (2 <? 0)%Z. cbv iota.
    destruct (get (Z.to_nat 2) s) as [c|] eqn:G; [|reflexivity].
    apply String.eqb_neq. intros Z. injection Z as ->.
    apply get_hasChar in G. congruence. }
  rewrite C, andb_false_r.
  change (sep win32) with (String "\" ""). rewrite (split_plain "\" s B).
  pose proof (split_nonempty s (sep posix)) as N.
  destruct (split s (sep posix)); [congruence | reflexivity].
Qed.

Lemma upTo_app c a y :
  hasChar c a = false -> y = "" \/ startsWith y (String c "") = true ->
  upTo c (a ++ y) = a.
Proof.
  intros H Y. induction a as [|x a IH]; simpl.
  - destruct Y as [-> | Y]; [reflexivity|].
    destruct y as [|b y]; [reflexivity|].
    rewrite startsWith_cons in Y. apply andb_true_iff in Y as [Y _].
    simpl. now rewrite Y.
  - simpl in H. apply orb_false_iff in H as [Hx Ha]. rewrite Hx.
    f_equal. now apply IH.
Qed.

Lemma append_cancel_l a y z : a ++ y = a ++ z -> y = z.
Proof.
  induction a as [|x a IH]; simpl; intros H; [exact H|].
  injection H as H. now apply IH.
Qed.

(** A normalized relative path does not start with a scheme: after its
    first segment comes at most one [/]. *)
Lemma posix_normalize_no_scheme path pre :
  pre <> "" -> hasChar "/" pre = false ->
  startsWith (Posix.normalize path) (pre ++ "//") = false.
Proof.
  intros Np Fp.
  destruct (startsWith (Posix.normalize path) (pre ++ "//")) eqn:S;
    [exfalso | reflexivity].
  destruct (String.eqb path "") eqn:E0.
  { apply String.eqb_eq in E0. subst path.
    apply startsWith_length in S. rewrite length_append in S. simpl in S. lia. }
  apply String.eqb_neq in E0. rewrite (normalize_render path E0) in S.
  pose proof (segments_normal path (negb (Posix.isAbsolute path))) as H.
  set (segs := Posix.segments path (negb (Posix.isAbsolute path))) in *.
  set (tr := endsWith path "/") in *.
  destruct (Posix.isAbsolute path) eqn:A.
  { destruct pre as [|a pre]; [congruence|]. simpl in Fp.
    apply orb_false_iff in Fp as [Fa _].
    assert (R : exists q, render true tr segs = String "/" q)
      by (unfold render; eexists; reflexivity).
    destruct R as [q R]. rewrite R in S. simpl append in S.
    rewrite startsWith_cons in S. apply andb_true_iff in S as [S _].
    rewrite Ascii.eqb_sym in S. congruence. }
  destruct segs as [|x xs] eqn:Es.
  { assert (L : String.length (render false tr []) <= 2)
      by (destruct tr; simpl; lia).
    apply startsWith_length in S. rewrite length_append in S.
    assert (0 < String.length pre) by (destruct pre; [congruence | simpl; lia]).
    change (String.length "//") with 2 in S. lia. }
  pose proof (normal_segOk _ _ H) as F. rewrite forallb_rev in F.
  cbn [forallb] in F. apply andb_true_iff in F as [Fx Fxs].
  apply andb_true_iff in Fx as [Fx1 Fx2]. apply negb_true_iff in Fx1, Fx2.
  apply String.eqb_neq in Fx1.
  assert (R : exists y, render false tr (x :: xs) = x ++ y
                /\ (y = "" \/ y = "/"
                    \/ exists xs' t, xs' <> []
                         /\ forallb (fun x => negb (String.eqb x "")
                                              && negb (hasChar "/" x)) xs' = true
                         /\ y = "/" ++ join xs' "/" ++ t)).
  { pose proof (join_nonempty x xs Fx1) as Nj. apply String.eqb_neq in Nj.
    unfold render. cbv zeta. rewrite Nj. cbn [andb negb]. rewrite Nj.
    cbn [andb negb]. destruct xs as [|x2 xs2].
    - exists (if tr then "/" else ""). split.
      + destruct tr; simpl; now rewrite ?append_nil_r.
      + destruct tr; auto.
    - exists ("/" ++ join (x2 :: xs2) "/" ++ (if tr then "/" else "")). split.
      + rewrite join_cons2. destruct tr; now rewrite ?append_assoc, ?append_nil_r.
      + right. right. exists (x2 :: xs2), (if tr then "/" else "").
        split; [discriminate|]. split; [exact Fxs | reflexivity]. }
  destruct R as (y & R & Y). rewrite R in S.
  apply startsWith_elim in S. rewrite append_assoc in S.
  assert (Ux : upTo "/" (x ++ y) = x).
  { apply upTo_app; [assumption|].
    destruct Y as [-> | [-> | (xs' & t & _ & _ & ->)]]; auto. }
  assert (Up : upTo "/" (pre ++ "//" ++ drop (String.length (pre ++ "//")) (x ++ y))
               = pre)
    by (apply upTo_app; auto).
  rewrite <- S, Ux in Up. subst pre.
  apply append_cancel_l in S.
  destruct Y as [-> | [-> | (xs' & t & Nx' & Fx' & ->)]]; try discriminate.
  injection S as S.
  pose proof (join_not_absolute xs' t Nx' Fx') as NA.
  unfold Posix.isAbsolute in NA. rewrite S in NA. discriminate.
Qed.

End NormalizeTwice.

Section NormalizeIdempotent.
Import JS JSFacts.
Context {node : Node}.

Lemma absolute_not_scheme x :
  startsWith x "/" = true -> isRemote x = false /\ isAtomUri x = false.
Proof. intros H. apply startsWith_elim in H. rewrite H. split; reflexivity. Qed.

Lemma pathModuleFor_absolute x :
  startsWith x "/" = true -> _endsWithArchiveSeparator x = false ->
  _pathModuleFor x = Ok posix.
Proof.
  intros A E. unfold _pathModuleFor. rewrite E. cbn [negb invariant bind].
  change (sep posix) with "/". now rewrite A.
Qed.

(** [normalize] on a local location of the POSIX dialect that holds no
    archive separator is Node's [normalize]. *)
Lemma normalize_local_plain s :
  isRemote s = false -> _testForIllegalUri s = Ok tt ->
  _pathModuleFor s = Ok posix -> hasChar "!" s = false ->
  normalize s = Ok (Posix.normalize s).
Proof.
  intros R T M B. unfold normalize. rewrite T, M, R. cbn [bind path_normalize].
  rewrite archiveEncode_plain by assumption.
  rewrite archiveDecode_plain
    by (apply posix_normalize_nochar; [reflexivity | reflexivity | assumption]).
  reflexivity.
Qed.

Lemma normalize_idempotent_local s :
  isRemote s = false -> wellFormed s = true -> hasChar "!" s = false ->
  startsWith s "/" = true \/ hasChar "\" s = false ->
  normalize s = Ok (Posix.normalize s)
  /\ normalize (Posix.normalize s) = Ok (Posix.normalize s).
Proof.
  intros R W B D. destruct (wellFormed_elim s W) as (T & _ & E & _).
  assert (Br : hasChar "!" (Posix.normalize s) = false)
    by (apply posix_normalize_nochar; [reflexivity | reflexivity | assumption]).
  pose proof (noBang_not_endsWithArchiveSeparator _ Br) as Er.
  destruct (startsWith s "/") eqn:A.
  - split.
    + apply normalize_local_plain; try assumption.
      now apply pathModuleFor_absolute.
    + pose proof (posix_normalize_absolute s A) as Ar.
      destruct (absolute_not_scheme _ Ar) as (Rr & Atr).
      rewrite <- (posix_normalize_idempotent s) at 2.
      apply normalize_local_plain; try assumption.
      * apply testForIllegalUri_ok. now split.
      * now apply pathModuleFor_absolute.
  - destruct D as [D|D]; [discriminate|]. split.
    + apply normalize_local_plain; try assumption.
      now apply pathModuleFor_no_backslash.
    + assert (Dr : hasChar "\" (Posix.normalize s) = false)
        by (apply posix_normalize_nochar; [reflexivity | reflexivity | assumption]).
      rewrite <- (posix_normalize_idempotent s) at 2.
      apply normalize_local_plain; try assumption.
      * apply (posix_normalize_no_scheme s "nuclide:"); [discriminate | reflexivity].
      * apply testForIllegalUri_ok. split; [|assumption].
        apply (posix_normalize_no_scheme s "atom:"); [discriminate | reflexivity].
      * now apply pathModuleFor_no_backslash.
Qed.

Lemma normalize_remote_plain h x :
  h <> "" -> hasChar "/" h = false -> hasChar "!" h = false ->
  startsWith x "/" = true -> hasChar "!" x = false ->
  normalize ("nuclide://" ++ h ++ x) = Ok ("nuclide://" ++ h ++ Posix.normalize x).
Proof.
  intros Nh Fh Bh Ax Bx.
  set (s := "nuclide://" ++ h ++ x).
  assert (Bs : hasChar "!" s = false).
  { unfold s. rewrite !hasChar_app, Bh, Bx. reflexivity. }
  pose proof (noBang_not_endsWithArchiveSeparator s Bs) as Es.
  assert (Rs : isRemote s = true) by reflexivity.
  assert (Ts : _testForIllegalUri s = Ok tt)
    by (apply testForIllegalUri_ok; split; [reflexivity | assumption]).
  pose proof (parse_createRemoteUri h x Nh Fh Ax Es) as Ps. fold s in Ps.
  unfold normalize. rewrite Ts, (pathModuleFor_remote s Rs Es), Rs.
  cbn [bind]. unfold parseRemoteUri. rewrite Rs, Ps. cbn [negb bind hostname path].
  apply String.eqb_neq in Nh. rewrite Nh. cbn [negb invariant bind].
  cbn [remote_hostname remote_path path_normalize].
  rewrite archiveEncode_plain by assumption.
  rewrite archiveDecode_plain
    by (apply posix_normalize_nochar; [reflexivity | reflexivity | assumption]).
  unfold createRemoteUri.
  pose proof (posix_normalize_absolute x Ax) as An.
  destruct (Posix.normalize x) as [|c n]; [discriminate|]. reflexivity.
Qed.

End NormalizeIdempotent.

(* ================================================================== *)
(** * The archive-separator test at the end of a string *)
(* ================================================================== *)

Section TrailingSeparator.
Import JS JSFacts.

Lemma get_drop n k s : get k (drop n s) = get (n + k) s.
Proof.
  revert s; induction n as [|n IH]; intros s; [reflexivity|].
  destruct s as [|a s]; [now destruct k|]. simpl. apply IH.
Qed.

Lemma length_5_elim t :
  String.length t = 5 ->
  exists a b c d e, t = String a (String b (String c (String d (String e "")))).
Proof.
  intros H.
  do 5 (destruct t as [|? t]; [discriminate|]).
  destruct t; [|discriminate]. repeat eexists.
Qed.

(** Except on four-character strings, the test of the code at the last
    position is "ends with an extension and the separator". *)
Lemma endsWithArchiveSeparator_spec s :
  String.length s <> 4 ->
  _endsWithArchiveSeparator s = endsWithArchiveSeparator s.
Proof.
  intros L4. destruct s as [|a0 s0]; [reflexivity|].
  set (s := String a0 s0) in *. set (i := String.length s0).
  assert (Li : String.length s = S i) by reflexivity.
  unfold _endsWithArchiveSeparator.
  replace (Z.of_nat (String.length s) - 1)%Z with (Z.of_nat i) by lia.
  rewrite isArchiveSeparator_spec by lia.
  unfold archiveSeparatorAt, endsWithArchiveSeparator, precededByExtension,
    KNOWN_ARCHIVE_EXTENSIONS, ARCHIVE_SEPARATOR, endsWith.
  cbn [existsb String.length append]. rewrite Li.
  change (5 <=? S i)%nat with (4 <=? i)%nat.
  destruct (4 <=? i)%nat eqn:G; [|now rewrite andb_false_r].
  apply Nat.leb_le in G. cbn [andb]. rewrite !orb_false_r.
  replace (S i - 5) with (i - 4) by lia.
  set (t := drop (i - 4) s).
  assert (Lt : String.length t = 5) by (unfold t; rewrite length_drop; lia).
  assert (Gi : isSeparatorChar s i = isSeparatorChar t 4).
  { unfold isSeparatorChar, t. rewrite get_drop.
    replace (i - 4 + 4) with i by lia. reflexivity. }
  rewrite Gi. destruct (length_5_elim t Lt) as (a & b & c & d & e & ->).
  unfold isSeparatorChar. simpl get. rewrite !startsWith_cons.
  simpl startsWith. simpl String.eqb.
  destruct (Ascii.eqb e "!"), (Ascii.eqb a "."), (Ascii.eqb b "j"),
    (Ascii.eqb b "z"), (Ascii.eqb c "a"), (Ascii.eqb c "i"),
    (Ascii.eqb d "r"), (Ascii.eqb d "p"); reflexivity.
Qed.

Lemma endsWith_elim s q :
  endsWith s q = true -> s = take (String.length s - String.length q) s ++ q.
Proof.
  unfold endsWith. intros H. apply andb_true_iff in H as [_ H].
  apply String.eqb_eq in H. rewrite <- H at 2. symmetry. apply take_drop.
Qed.

Lemma drop_app_le a b n :
  n <= String.length a -> drop n (a ++ b) = drop n a ++ b.
Proof.
  revert a; induction n as [|n IH]; intros a H; [reflexivity|].
  destruct a as [|c a]; [simpl in H; lia|]. simpl. apply IH. simpl in H. lia.
Qed.

(** A suffix without [/] of [a ++ x] lies within [x] when [x] starts
    with [/]. *)
Lemma endsWith_app_absolute a x q :
  hasChar "/" q = false -> startsWith x "/" = true ->
  endsWith (a ++ x) q = true -> endsWith x q = true.
Proof.
  intros Fq Ax H. unfold endsWith in *. rewrite length_append in H.
  apply andb_true_iff in H as [Hl He]. apply Nat.leb_le in Hl.
  apply String.eqb_eq in He.
  destruct (Nat.le_gt_cases (String.length q) (String.length x)) as [L|G].
  - replace (String.length q <=? String.length x)%nat with true
      by (symmetry; now apply Nat.leb_le).
    rewrite drop_app_ge in He by lia.
    replace (String.length a + String.length x - String.length q - String.length a)
      with (String.length x - String.length q) in He by lia.
    rewrite He. apply String.eqb_refl.
  - exfalso. rewrite drop_app_le in He by lia.
    rewrite <- He, hasChar_app in Fq. apply orb_false_iff in Fq as [_ Fq].
    apply startsWith_elim in Ax. rewrite Ax in Fq. discriminate.
Qed.

Lemma length_take n s : String.length (take n s) = Nat.min n (String.length s).
Proof.
  revert s; induction n as [|n IH]; intros [|a s]; simpl; auto.
Qed.

Lemma endsWithArchiveSeparator_elim s :
  endsWithArchiveSeparator s = true ->
  exists pre ext, (ext = ".jar" \/ ext = ".zip") /\ s = pre ++ ext ++ "!".
Proof.
  unfold endsWithArchiveSeparator, KNOWN_ARCHIVE_EXTENSIONS. cbn [existsb].
  rewrite orb_false_r. intros H. apply orb_true_iff in H as [H|H];
    apply endsWith_elim in H; eauto 6.
Qed.

(** What [_trimArchiveSuffix] returns never ends with an archive separator,
    and so neither does what [_archiveDecode] returns. *)
Lemma trimArchiveSuffix_not_trailing y :
  _endsWithArchiveSeparator (_trimArchiveSuffix y) = false.
Proof.
  unfold _trimArchiveSuffix. destruct (_endsWithArchiveSeparator y) eqn:E;
    [|exact E].
  change (String.length ARCHIVE_SEPARATOR) with 1.
  destruct (Nat.eq_dec (String.length y) 4) as [L4|L4].
  - remember (take (String.length y - 1) y) as x eqn:Ex.
    assert (Lx : String.length x = 3) by (subst x; rewrite length_take; lia).
    unfold _endsWithArchiveSeparator. rewrite Lx.
    change (Z.of_nat 3 - 1)%Z with (Z.of_nat 2).
    rewrite isArchiveSeparator_spec by lia.
    unfold archiveSeparatorAt, precededByExtension. simpl. apply andb_false_r.
  - rewrite endsWithArchiveSeparator_spec in E by assumption.
    apply endsWithArchiveSeparator_elim in E as (pre & ext & Hext & ->).
    rewrite !length_append. simpl (String.length "!").
    replace (String.length pre + (String.length ext + 1) - 1)
      with (String.length (pre ++ ext)) by (rewrite length_append; lia).
    rewrite <- append_assoc, take_app.
    destruct (_endsWithArchiveSeparator (pre ++ ext)) eqn:E; [|reflexivity].
    apply endsWithArchiveSeparator_char in E. unfold ARCHIVE_SEPARATOR in E.
    rewrite endsWith_app_nonempty in E by (destruct Hext; subst; discriminate).
    destruct Hext; subst; discriminate.
Qed.

Lemma archiveDecode_not_trailing m n :
  _endsWithArchiveSeparator (_archiveDecode m n) = false.
Proof.
  rewrite archiveDecode_unfold. destruct (hasChar "!" n) eqn:B.
  - apply trimArchiveSuffix_not_trailing.
  - now apply noBang_not_endsWithArchiveSeparator.
Qed.

(** A remote URI built on an absolute path ends with an archive separator
    only if the path does. *)
Lemma remote_not_trailing h x :
  startsWith x "/" = true -> _endsWithArchiveSeparator x = false ->
  _endsWithArchiveSeparator ("nuclide://" ++ h ++ x) = false.
Proof.
  intros Ax Ex.
  destruct (_endsWithArchiveSeparator ("nuclide://" ++ h ++ x)) eqn:E;
    [exfalso | reflexivity].
  rewrite endsWithArchiveSeparator_spec in E
    by (rewrite length_append; simpl; lia).
  assert (X : endsWithArchiveSeparator x = true).
  { unfold endsWithArchiveSeparator, KNOWN_ARCHIVE_EXTENSIONS in *.
    cbn [existsb] in *. rewrite orb_false_r in *.
    rewrite <- append_assoc in E.
    apply orb_true_iff in E as [E|E];
      apply endsWith_app_absolute in E; try assumption; try reflexivity;
      rewrite E; auto using orb_true_r. }
  assert (L : String.length x <> 4).
  { apply endsWithArchiveSeparator_elim in X as (pre & ext & Hext & ->).
    rewrite !length_append. destruct Hext; subst; simpl; lia. }
  rewrite <- endsWithArchiveSeparator_spec in X by assumption. congruence.
Qed.

End TrailingSeparator.

(* ================================================================== *)
(** * Absolute paths stay absolute *)
(* ================================================================== *)

Section HostnameKept.
Import JS JSFacts.

Lemma take_replace_shrink s pat t k :
  k <= String.length pat ->
  take k (replace s (pat ++ t) pat) = take k s.
Proof.
  revert k; induction s as [|c s IH]; intros k Hk.
  - destruct (startsWith "" (pat ++ t)) eqn:E.
    + rewrite replace_hit by assumption.
      rewrite (startsWith_elim _ _ E) at 2.
      rewrite append_assoc, !take_app_le by assumption. reflexivity.
    + simpl. now rewrite E.
  - destruct (startsWith (String c s) (pat ++ t)) eqn:E.
    + rewrite replace_hit by assumption.
      rewrite (startsWith_elim _ _ E) at 2.
      rewrite append_assoc, !take_app_le by assumption. reflexivity.
    + rewrite replace_miss by assumption.
      destruct k as [|k]; [reflexivity|]. simpl. f_equal. apply IH. lia.
Qed.

Lemma archiveEncode_absolute m p :
  startsWith p "/" = true -> startsWith (_archiveEncode m p) "/" = true.
Proof.
  intros A. rewrite archiveEncode_unfold. destruct (hasChar "!" p); [|exact A].
  transitivity (startsWith p "/"); [|exact A].
  apply (startsWith_same_take _ _ _ 1); [simpl; lia|].
  rewrite (take_replace_extend _ ".zip!") by (simpl; lia).
  apply (take_replace_extend _ ".jar!"). simpl; lia.
Qed.

Lemma archiveDecode_absolute m n :
  startsWith n "/" = true -> startsWith (_archiveDecode m n) "/" = true.
Proof.
  intros A. rewrite archiveDecode_unfold. destruct (hasChar "!" n); [|exact A].
  set (y := replace (replace n (".jar!" ++ sep m) ".jar!") (".zip!" ++ sep m) ".zip!").
  assert (Ay : startsWith y "/" = true).
  { transitivity (startsWith n "/"); [|exact A].
    apply (startsWith_same_take _ _ _ 1); [simpl; lia|].
    unfold y. rewrite (take_replace_shrink _ ".zip!") by (simpl; lia).
    apply (take_replace_shrink _ ".jar!"). simpl; lia. }
  clearbody y. unfold _trimArchiveSuffix.
  destruct (_endsWithArchiveSeparator y) eqn:E; [|exact Ay].
  destruct y as [|c [|b y']]; [discriminate | exfalso | exact Ay].
  unfold _endsWithArchiveSeparator in E.
  change (Z.of_nat (String.length (String c "")) - 1)%Z with (Z.of_nat 0) in E.
  rewrite isArchiveSeparator_spec in E by lia.
  unfold archiveSeparatorAt, precededByExtension in E. simpl in E.
  rewrite andb_false_r in E. discriminate.
Qed.

Lemma posix_dirname_absolute p :
  startsWith p "/" = true -> startsWith (Posix.dirname p) "/" = true.
Proof.
  intros A. apply startsWith_elim in A. rewrite A. simpl append.
  unfold Posix.dirname. change (Posix.isSlash "/") with true.
  destruct (Posix.dropWhile _ _) as [|c before]; [reflexivity|].
  cbn [andb]. destruct (List.length before =? 0)%nat; reflexivity.
Qed.

Lemma resolve_go_absolute before p after acc :
  Posix.isAbsolute p = true ->
  snd (Posix.resolve_go (before ++ p :: after) acc) = true.
Proof.
  intros A. revert acc; induction before as [|q before IH]; intros acc; simpl.
  - destruct (String.eqb p "") eqn:E.
    + apply String.eqb_eq in E. subst. discriminate.
    + now rewrite A.
  - destruct (String.eqb q ""); [apply IH|].
    destruct (Posix.isAbsolute q); [reflexivity | apply IH].
Qed.

Lemma posix_resolve_absolute cwd p paths :
  Posix.isAbsolute p = true ->
  startsWith (Posix.resolve cwd (p :: paths)) "/" = true.
Proof.
  intros A. unfold Posix.resolve.
  pose proof (resolve_go_absolute (rev paths) p [cwd] "" A) as H.
  simpl rev. rewrite <- app_assoc. simpl app.
  destruct (Posix.resolve_go (rev paths ++ p :: [cwd]) "") as [rp abs].
  simpl in H. subst abs. reflexivity.
Qed.

End HostnameKept.

(* ================================================================== *)
(** * Decoding a rebuilt remote URI *)
(* ================================================================== *)

Section DecodeRemote.
Import JS JSFacts.

Lemma replace_after_prefix a rest pat rep :
  (forall k, k < String.length a -> startsWith (drop k (a ++ rest)) pat = false) ->
  replace (a ++ rest) pat rep = a ++ replace rest pat rep.
Proof.
  induction a as [|c a IH]; intros H; [reflexivity|].
  simpl append. rewrite replace_miss.
  - f_equal. apply IH. intros k Hk. apply (H (S k)). simpl. lia.
  - apply (H 0). simpl. lia.
Qed.

Lemma startsWith_app_r x y pat :
  startsWith x pat = true -> startsWith (x ++ y) pat = true.
Proof.
  intros H. apply startsWith_elim in H. rewrite H, append_assoc.
  apply startsWith_app.
Qed.

Lemma endsWith_drop k h q :
  k <= String.length h -> drop k h = q -> endsWith h q = true.
Proof.
  intros Hk <-. unfold endsWith. rewrite length_drop.
  replace (String.length h - k <=? String.length h)%nat with true
    by (symmetry; apply Nat.leb_le; lia).
  replace (String.length h - (String.length h - k)) with k by lia.
  apply String.eqb_refl.
Qed.

(** In [nuclide://h/...] no encoded archive boundary starts before the
    path's second character, unless the hostname ends like one. *)
Lemma no_boundary_before_path h rest q :
  q = ".jar!" \/ q = ".zip!" ->
  hasChar "/" h = false -> endsWith h q = false ->
  forall k, k < String.length ("nuclide://" ++ h ++ "/") ->
    startsWith (drop k (("nuclide://" ++ h ++ "/") ++ rest)) (q ++ "/") = false.
Proof.
  intros Hq Fh Eh k Hk.
  destruct (Nat.lt_ge_cases k 10) as [L|G].
  { do 10 (destruct k as [|k]; [destruct Hq; subst; reflexivity|]). lia. }
  rewrite !append_assoc.
  rewrite (drop_app_ge "nuclide://") by exact G.
  change (String.length "nuclide://") with 10.
  rewrite length_append in Hk. change (String.length "nuclide://") with 10 in Hk.
  rewrite length_append in Hk. simpl (String.length "/") in Hk.
  set (j := k - 10). assert (Hj : j <= String.length h) by lia.
  rewrite drop_app_le by exact Hj.
  destruct (startsWith (drop j h ++ "/" ++ rest) (q ++ "/")) eqn:S;
    [exfalso | reflexivity].
  apply startsWith_elim in S. rewrite append_assoc in S.
  assert (U1 : upTo "/" (drop j h ++ "/" ++ rest) = drop j h).
  { apply upTo_app; [now apply hasChar_drop | now right]. }
  assert (U2 : upTo "/" (q ++ "/" ++ drop (String.length (q ++ "/"))
                                      (drop j h ++ "/" ++ rest)) = q).
  { apply upTo_app; [destruct Hq; subst; reflexivity | now right]. }
  rewrite <- S, U1 in U2.
  rewrite (endsWith_drop j h q Hj U2) in Eh. discriminate.
Qed.

Lemma endsWithArchiveSeparator_slash x :
  _endsWithArchiveSeparator (x ++ "/") = false.
Proof.
  destruct (_endsWithArchiveSeparator (x ++ "/")) eqn:E; [|reflexivity].
  apply endsWithArchiveSeparator_char in E. unfold ARCHIVE_SEPARATOR in E.
  rewrite endsWith_app_same in E by reflexivity. discriminate.
Qed.

Lemma take_app_ge a b n :
  String.length a <= n -> take n (a ++ b) = a ++ take (n - String.length a) b.
Proof.
  revert n; induction a as [|c a IH]; intros n H; simpl.
  - now rewrite Nat.sub_0_r.
  - destruct n as [|n]; [simpl in H; lia|]. simpl. f_equal. apply IH.
    simpl in H. lia.
Qed.

(** Decoding [nuclide://h/...] keeps the hostname and the [/] behind it,
    unless the hostname ends like an archive boundary. *)
Lemma archiveDecode_remote h path :
  hasChar "/" h = false ->
  endsWith h ".jar!" = false -> endsWith h ".zip!" = false ->
  startsWith path "/" = true ->
  exists x, _archiveDecode posix ("nuclide://" ++ h ++ path)
            = "nuclide://" ++ h ++ x
            /\ startsWith x "/" = true.
Proof.
  intros Fh Ej Ez Ap. rewrite archiveDecode_unfold.
  destruct (hasChar "!" ("nuclide://" ++ h ++ path)); [|eauto].
  apply startsWith_elim in Ap. simpl in Ap.
  set (rest := drop 1 path) in *.
  assert (Sh : "nuclide://" ++ h ++ path = ("nuclide://" ++ h ++ "/") ++ rest)
    by (rewrite Ap at 1; rewrite !append_assoc; reflexivity).
  rewrite Sh. change (sep posix) with "/".
  rewrite (replace_after_prefix ("nuclide://" ++ h ++ "/") rest (".jar!" ++ "/"))
    by (apply no_boundary_before_path; auto).
  rewrite (replace_after_prefix ("nuclide://" ++ h ++ "/") _ (".zip!" ++ "/"))
    by (apply no_boundary_before_path; auto).
  set (rest2 := replace (replace rest _ _) _ _).
  unfold _trimArchiveSuffix.
  destruct (_endsWithArchiveSeparator (("nuclide://" ++ h ++ "/") ++ rest2)) eqn:E.
  - destruct rest2 as [|c r2] eqn:R2.
    + rewrite append_nil_r in E.
      rewrite <- append_assoc, endsWithArchiveSeparator_slash in E. discriminate.
    + assert (Hl : String.length ("nuclide://" ++ h ++ "/")
                   <= String.length (("nuclide://" ++ h ++ "/") ++ String c r2)
                      - String.length ARCHIVE_SEPARATOR).
      { rewrite !length_append.
        change (String.length ARCHIVE_SEPARATOR) with 1.
        change (String.length (String c r2)) with (S (String.length r2)).
        lia. }
      rewrite take_app_ge by exact Hl.
      rewrite !append_assoc. eexists. split; [reflexivity|]. reflexivity.
  - rewrite !append_assoc. eexists. split; [reflexivity|]. reflexivity.
Qed.

Lemma posix_join_absolute x rest :
  startsWith x "/" = true -> startsWith (Posix.join (x :: rest)) "/" = true.
Proof.
  intros A. unfold Posix.join. cbn [filter].
  assert (N : String.eqb x "" = false)
    by (destruct x; [discriminate | reflexivity]).
  rewrite N. cbn [negb]. apply posix_normalize_absolute.
  unfold Posix.isAbsolute.
  destruct (filter _ rest) as [|y ys]; [exact A|].
  rewrite join_cons2. now apply startsWith_app_r.
Qed.

End DecodeRemote.

(* ================================================================== *)
(** * C1: the round-trip law of the archive codec *)
(* ================================================================== *)

(** C1 (as amended): for every string in which every archive separator is
    immediately preceded by a recognized archive extension and not immediately
    followed by another archive separator, and which does not end with the
    archive separator, decoding the encoded string gives the string back, in
    the POSIX and in the Windows dialect. *)
Theorem archive_roundtrip (rules : PathModule) (s : string) :
  archiveSeparatorsSupported s = true ->
  JS.endsWith s ARCHIVE_SEPARATOR = false ->
  _archiveDecode rules (_archiveEncode rules s) = s.
Proof.
  intros _ Hend. apply archive_roundtrip_untrimmed.
  destruct (_endsWithArchiveSeparator s) eqn:E; [|reflexivity].
  apply endsWithArchiveSeparator_char in E. congruence.
Qed.

Lemma archive_roundtrip_witness :
  _archiveDecode posix (_archiveEncode posix "/etc/lib.jar!src/a.zip!b")
    = "/etc/lib.jar!src/a.zip!b"
  /\ _archiveDecode win32 (_archiveEncode win32 "C:\lib.zip!src\a.ts")
    = "C:\lib.zip!src\a.ts".
Proof.
  split.
  - apply (archive_roundtrip posix "/etc/lib.jar!src/a.zip!b"); reflexivity.
  - apply (archive_roundtrip win32 "C:\lib.zip!src\a.ts"); reflexivity.
Defined.

(** C1, as stated, fails on a string that ends with an archive separator:
    the decoder strips it. *)
Lemma archive_roundtrip_trailing_separator :
  archiveSeparatorsSupported "a.zip!" = true
  /\ _archiveDecode posix (_archiveEncode posix "a.zip!") = "a.zip"
  /\ _archiveDecode posix (_archiveEncode posix "a.zip!") <> "a.zip!".
Proof. repeat split; try reflexivity. discriminate. Qed.

(* ================================================================== *)
(** * C3: what [_archiveEncode] inserts *)
(* ================================================================== *)

(** C3: in a string with two [.zip!] boundaries only the first one is
    given a separator ([String.prototype.replace] with a string pattern
    replaces one occurrence); a string without an archive separator is
    returned as it is. *)
Theorem archiveEncode_first_occurrence_only :
  _archiveEncode posix "a.zip!b.zip!c" = "a.zip!/b.zip!c"
  /\ _archiveEncode win32 "a.jar!b.jar!c" = "a.jar!\b.jar!c"
  /\ forall rules s, JS.hasChar "!" s = false -> _archiveEncode rules s = s.
Proof.
  repeat split; try reflexivity. intros rules s. apply archiveEncode_plain.
Qed.

(* ================================================================== *)
(** * C4: [parse] *)
(* ================================================================== *)

(** C4: a four-character local name ending in [!] is refused as "ending with
    an archive separator" although no archive extension stands before the
    [!]: [_isArchiveSeparator] looks for the extension from position [-1] and
    takes [indexOf]'s "not found" ([-1]) for a match at that position. *)
Theorem parse_four_character_name :
  parse "foo!" = Err IllegalLocation
  /\ isRemote "foo!" = false
  /\ JS.indexOf "foo!" "://" 0 = (-1)%Z
  /\ endsWithArchiveSeparator "foo!" = false
  /\ _endsWithArchiveSeparator "foo!" = true
  /\ parse "fooo!" = Ok {| hostname := None; path := "fooo!" |}.
Proof. repeat split. Qed.

(* ================================================================== *)
(** * C5: operations on an Atom URI *)
(* ================================================================== *)

(** C5 (as amended): every operation that starts with the illegal-URI test
    fails with IllegalLocation on an Atom URI (given as its first or only
    location, for [contains] as either one), and so do [parse] and
    [getPath]. *)
Theorem atom_uri_rejected {node : Node} (uri : string) :
  isAtomUri uri = true ->
  (forall segments, join uri segments = Err IllegalLocation)
  /\ (forall member, archiveJoin uri member = Err IllegalLocation)
  /\ normalize uri = Err IllegalLocation
  /\ normalizeDir uri = Err IllegalLocation
  /\ getParent uri = Err IllegalLocation
  /\ (forall other, relative uri other = Err IllegalLocation)
  /\ (forall suffix, basename uri suffix = Err IllegalLocation)
  /\ dirname uri = Err IllegalLocation
  /\ extname uri = Err IllegalLocation
  /\ stripExtension uri = Err IllegalLocation
  /\ nuclideUriToUri uri = Err IllegalLocation
  /\ (forall child, contains uri child = Err IllegalLocation)
  /\ (forall parent, contains parent uri = Err IllegalLocation)
  /\ (forall formatters,
        nuclideUriToDisplayString formatters uri = Err IllegalLocation)
  /\ ensureTrailingSeparator uri = Err IllegalLocation
  /\ trimTrailingSeparator uri = Err IllegalLocation
  /\ endsWithSeparator uri = Err IllegalLocation
  /\ isAbsolute uri = Err IllegalLocation
  /\ (forall segments, resolve uri segments = Err IllegalLocation)
  /\ expandHomeDir uri = Err IllegalLocation
  /\ ensureLocalPrefix uri = Err IllegalLocation
  /\ isRoot uri = Err IllegalLocation
  /\ parsePath uri = Err IllegalLocation
  /\ parse uri = Err IllegalLocation
  /\ getPath uri = Err IllegalLocation.
Proof.
  intros H. pose proof (testForIllegalUri_atom uri H) as T.
  assert (N : normalize uri = Err IllegalLocation)
    by (unfold normalize; now rewrite T).
  assert (J : forall segments, join uri segments = Err IllegalLocation)
    by (intros; unfold join; now rewrite T).
  repeat split; intros;
    try solve [ assumption
              | apply J
              | unfold normalizeDir; now rewrite N
              | unfold getParent; now rewrite J
              | apply parse_atom; assumption
              | unfold getPath; now rewrite parse_atom ].
  all: try solve [
    unfold archiveJoin, relative, basename, dirname, extname, stripExtension,
      nuclideUriToUri, contains, nuclideUriToDisplayString,
      ensureTrailingSeparator, trimTrailingSeparator, endsWithSeparator,
      isAbsolute, resolve, expandHomeDir, ensureLocalPrefix, isRoot, parsePath;
    now rewrite T ].
  unfold contains. rewrite T.
  destruct (testForIllegalUri_cases parent) as [-> | ->]; reflexivity.
Qed.

Lemma atom_uri_rejected_witness :
  isAtomUri "atom://foo" = true
  /\ forall node : Node,
       normalize "atom://foo" = Err IllegalLocation
       /\ dirname "atom://foo" = Err IllegalLocation
       /\ parse "atom://foo" = Err IllegalLocation.
Proof.
  split; [reflexivity|]. intros node.
  pose proof (@atom_uri_rejected node "atom://foo" eq_refl) as H.
  repeat split; apply H.
Defined.

(** C5, as stated, fails for the operations that never run the illegal-URI
    test, and for [relative] when the Atom URI is its second argument. *)
Lemma atom_uri_accepted :
  isAtomUri "atom://foo" = true
  /\ splitPathList "atom://foo" = Ok ["atom"; "//foo"]
  /\ joinPathList ["atom://foo"] = Ok "atom://foo"
  /\ pathSeparatorFor "atom://foo" = Ok "/"
  /\ validate "atom://foo" None = Ok tt
  /\ forall node : Node, exists r, relative "/a" "atom://foo" = Ok r.
Proof. repeat split. intros node. eexists. reflexivity. Qed.

(* ================================================================== *)
(** * C6: [relative] across hosts *)
(* ================================================================== *)

(** C6: for well-formed [a] and [b], [relative a b] fails with the cross-host
    error exactly when one of them is remote and the other is not, or both are
    remote with different hostnames; otherwise it returns a value. *)
Theorem relative_cross_host {node : Node} (a b : string) :
  wellFormed a = true -> wellFormed b = true ->
  (relative a b = Err CrossHostError <->
   (isRemote a <> isRemote b
    \/ (isRemote a = true /\ isRemote b = true /\ hostnameOf a <> hostnameOf b)))
  /\ (relative a b <> Err CrossHostError -> exists r, relative a b = Ok r).
Proof.
  intros Wa Wb.
  destruct (wellFormed_elim a Wa) as (Ta & _ & Ea & Pa).
  destruct (wellFormed_elim b Wb) as (_ & _ & _ & Pb).
  unfold relative. rewrite Ta, (pathModuleFor_ok a Ea). simpl.
  destruct (isRemote a) eqn:Ra, (isRemote b) eqn:Rb; simpl.
  - rewrite (getHostname_ok a Ra Wa), (getHostname_ok b Rb Wb). simpl.
    destruct (Pa eq_refl) as [pa Hpa]. destruct (Pb eq_refl) as [pb Hpb].
    unfold getPath. rewrite Hpa, Hpb. simpl.
    destruct (String.eqb (hostnameOf a) (hostnameOf b)) eqn:E; simpl.
    + apply String.eqb_eq in E. split; [|eauto].
      split; [discriminate|]. intros [H|(_ & _ & H)]; congruence.
    + apply String.eqb_neq in E. split; [|congruence].
      split; [intros _; right; auto | reflexivity].
  - split; [|congruence]. split; [intros _; left; discriminate | reflexivity].
  - split; [|congruence]. split; [intros _; left; discriminate | reflexivity].
  - split; [|eauto]. split; [discriminate|].
    intros [H|(H & _)]; congruence.
Qed.

Lemma relative_cross_host_witness :
  wellFormed "nuclide://alpha/a/b" = true
  /\ wellFormed "nuclide://beta/a" = true
  /\ forall node : Node,
       (relative "nuclide://alpha/a/b" "nuclide://beta/a" = Err CrossHostError <->
        (isRemote "nuclide://alpha/a/b" <> isRemote "nuclide://beta/a"
         \/ (isRemote "nuclide://alpha/a/b" = true
             /\ isRemote "nuclide://beta/a" = true
             /\ hostnameOf "nuclide://alpha/a/b" <> hostnameOf "nuclide://beta/a")))
       /\ (relative "nuclide://alpha/a/b" "nuclide://beta/a" <> Err CrossHostError ->
           exists r, relative "nuclide://alpha/a/b" "nuclide://beta/a" = Ok r).
Proof.
  split; [reflexivity|]. split; [reflexivity|]. intros node.
  apply (@relative_cross_host node "nuclide://alpha/a/b" "nuclide://beta/a");
    reflexivity.
Defined.

(* ================================================================== *)
(** * C7: [normalize] twice *)
(* ================================================================== *)

(** Where no archive separator is involved [normalize] is idempotent: for a
    well-formed location that holds no [!] and is remote, or starts with
    [/], or holds no backslash, [normalize] returns a location that
    [normalize] maps to itself. *)
Theorem normalize_idempotent {node : Node} (s : string) :
  wellFormed s = true ->
  JS.hasChar "!" s = false ->
  isRemote s = true \/ JS.startsWith s "/" = true \/ JS.hasChar "\" s = false ->
  exists r, normalize s = Ok r /\ normalize r = Ok r.
Proof.
  intros W B D. destruct (isRemote s) eqn:R.
  - destruct (wellFormed_elim s W) as (_ & _ & _ & P).
    destruct (P R) as [p Hp].
    destruct (parse_remote s p R Hp) as (_ & Nh & Es & Ap & _).
    set (h := hostnameOf s) in *.
    assert (Fh : JS.hasChar "/" h = false) by apply hasChar_upTo.
    rewrite Es in B. rewrite !JSFacts.hasChar_app in B.
    apply orb_false_iff in B as [_ B]. apply orb_false_iff in B as [Bh Bp].
    exists ("nuclide://" ++ h ++ Posix.normalize (path p)). split.
    + rewrite Es. now apply normalize_remote_plain.
    + rewrite <- (posix_normalize_idempotent (path p)) at 2.
      apply normalize_remote_plain; try assumption.
      * now apply posix_normalize_absolute.
      * apply posix_normalize_nochar; [reflexivity | reflexivity | assumption].
  - exists (Posix.normalize s). apply normalize_idempotent_local; try assumption.
    destruct D as [D | D]; [discriminate | exact D].
Qed.

Lemma normalize_idempotent_witness :
  wellFormed "nuclide://host/a/./b/../c/" = true
  /\ wellFormed "/a//b/../c" = true
  /\ wellFormed "a/../../b" = true
  /\ forall node : Node,
       (exists r, normalize "nuclide://host/a/./b/../c/" = Ok r /\ normalize r = Ok r)
       /\ (exists r, normalize "/a//b/../c" = Ok r /\ normalize r = Ok r)
       /\ (exists r, normalize "a/../../b" = Ok r /\ normalize r = Ok r).
Proof.
  repeat (split; [reflexivity|]). intros node. repeat split.
  - apply (@normalize_idempotent node "nuclide://host/a/./b/../c/");
      [reflexivity | reflexivity | now left].
  - apply (@normalize_idempotent node "/a//b/../c");
      [reflexivity | reflexivity | right; now left].
  - apply (@normalize_idempotent node "a/../../b");
      [reflexivity | reflexivity | right; now right].
Defined.

(** C7: [normalize] is not idempotent on the well-formed path
    [a.zip!../b.zip!../c] through two [.zip!] boundaries.  Only the first
    boundary is encoded, so [Posix.normalize] resolves the first [..] against
    the archive and the second one against the name [b.zip!..]; the result
    [b.zip!../c] is normalized again to [c], because now its boundary is the
    first one. *)
Theorem normalize_not_idempotent :
  wellFormed "a.zip!../b.zip!../c" = true
  /\ _archiveEncode posix "a.zip!../b.zip!../c" = "a.zip!/../b.zip!../c"
  /\ _archiveEncode posix "b.zip!../c" = "b.zip!/../c"
  /\ (forall node : Node, normalize "a.zip!../b.zip!../c" = Ok "b.zip!../c")
  /\ (forall node : Node, normalize "b.zip!../c" = Ok "c").
Proof. repeat split. Qed.

(** The dialect is chosen anew for the result: a POSIX path whose result has
    more backslashes than slashes is normalized as a Windows path the second
    time (Node's [win32.normalize] maps [a\..] to [.]). *)
Remark normalize_changes_dialect {node : Node} :
  win32_normalize "a\.." = "." ->
  normalize "a\../." = Ok "a\.." /\ normalize "a\.." = Ok ".".
Proof.
  intros H. split; [reflexivity|].
  assert (E : normalize "a\.." = Ok (_archiveDecode win32 (win32_normalize "a\..")))
    by reflexivity.
  rewrite E, H. reflexivity.
Qed.

(* ================================================================== *)
(** * C8: [expandHomeDir] *)
(* ================================================================== *)

(** C8: a string like [~abc] asks for no expansion and is returned unchanged
    when the home variable is set, but with the home variable unset
    [expandHomeDir] fails on it: the invariant on the home variable comes
    before the test that leaves such strings alone. *)
Theorem expandHomeDir_unrequested (node : Node) (userProfile : option string) :
  _testForIllegalUri "~abc" = Ok tt
  /\ requestsExpansion (node := withEnvironment node None userProfile "linux")
       "~abc" = false
  /\ expandHomeDir (node := withEnvironment node None userProfile "linux")
       "~abc" = Err MissingEnvironment
  /\ (forall home,
        expandHomeDir
          (node := withEnvironment node (Some home) userProfile "linux")
          "~abc" = Ok "~abc")
  /\ (forall home,
        expandHomeDir (node := withEnvironment node home None "win32")
          "~abc"
        = Err MissingEnvironment).
Proof. repeat split. Qed.

(** What [expandHomeDir] does otherwise: it fails on an illegal location.
    On a legal one it returns what does not start with [~] as it is,
    whatever the environment.  With the home variable set, [~] becomes the
    home directory, [~] followed by a separator is resolved against it, and
    any other string is returned as it is.  With the home variable unset, a
    requested expansion fails. *)
Theorem expandHomeDir_spec {node : Node} (uri : string) :
  (_testForIllegalUri uri = Err IllegalLocation ->
   expandHomeDir uri = Err IllegalLocation)
  /\ (_testForIllegalUri uri = Ok tt ->
      (JS.startsWith uri "~" = false -> expandHomeDir uri = Ok uri)
      /\ (forall home, homeVariable = Some home ->
            (uri = "~" -> expandHomeDir uri = Ok home)
            /\ (requestsExpansion uri = true -> uri <> "~" ->
                expandHomeDir uri =
                Ok (path_resolve pathModule [home; "." ++ JS.drop 1 uri]))
            /\ (requestsExpansion uri = false -> expandHomeDir uri = Ok uri))
      /\ (homeVariable = None -> requestsExpansion uri = true ->
          expandHomeDir uri = Err MissingEnvironment)).
Proof.
  unfold expandHomeDir, homeVariable, requestsExpansion.
  split; [intros ->; reflexivity|]. intros ->. cbn [bind].
  destruct (JS.startsWith uri "~") eqn:T; cbn [negb].
  - rewrite (tilde_not_remote uri T), (tilde_replace uri T). cbn [negb andb].
    destruct (String.eqb platform "win32") eqn:W; cbn [negb andb orb].
    + split; [discriminate|]. split.
      * intros home ->. destruct (String.eqb uri "~") eqn:E.
        { apply String.eqb_eq in E. subst uri. repeat split; try congruence.
          discriminate. }
        apply String.eqb_neq in E. cbn [orb].
        destruct (JS.startsWith uri "~/"), (JS.startsWith uri "~\");
          cbn; repeat split; intros; congruence.
      * intros ->. reflexivity.
    + split; [discriminate|]. split.
      * intros home ->. destruct (String.eqb uri "~") eqn:E.
        { apply String.eqb_eq in E. subst uri. repeat split; try congruence.
          discriminate. }
        apply String.eqb_neq in E. cbn [orb]. rewrite !orb_false_r.
        destruct (JS.startsWith uri "~/");
          cbn; repeat split; intros; congruence.
      * intros ->. reflexivity.
  - split; [reflexivity|]. split.
    + intros home Hh. assert (N : uri <> "~") by (intros ->; discriminate).
      apply String.eqb_neq in N. rewrite N. cbn [orb].
      assert (S1 : JS.startsWith uri "~/" = false).
      { destruct (JS.startsWith uri "~/") eqn:E; [|reflexivity].
        apply (JSFacts.startsWith_app_l uri "~" "/") in E. congruence. }
      assert (S2 : JS.startsWith uri "~\" = false).
      { destruct (JS.startsWith uri "~\") eqn:E; [|reflexivity].
        apply (JSFacts.startsWith_app_l uri "~" "\") in E. congruence. }
      split; [intros ->; discriminate|].
      rewrite S1, S2, andb_false_r. split; [discriminate | reflexivity].
    + intros _ R. exfalso.
      assert (N : uri <> "~") by (intros ->; discriminate).
      apply String.eqb_neq in N. rewrite N in R. cbn [orb] in R.
      apply orb_true_iff in R as [R|R].
      * apply (JSFacts.startsWith_app_l uri "~" "/") in R. congruence.
      * apply andb_true_iff in R as [_ R].
        apply (JSFacts.startsWith_app_l uri "~" "\") in R. congruence.
Qed.

Lemma expandHomeDir_spec_witness :
  _testForIllegalUri "~/x" = Ok tt
  /\ forall node : Node,
       platform = "linux" -> HOME = Some "/home/u" ->
       expandHomeDir "~" = Ok "/home/u"
       /\ expandHomeDir "~/x" = Ok "/home/u/x"
       /\ expandHomeDir "~abc" = Ok "~abc"
       /\ expandHomeDir "abc" = Ok "abc".
Proof.
  split; [reflexivity|]. intros node Hp Hh.
  assert (Hv : homeVariable = Some "/home/u")
    by (unfold homeVariable; rewrite Hp; exact Hh).
  split; [|split; [|split]].
  - destruct (@expandHomeDir_spec node "~") as (_ & H).
    destruct (H eq_refl) as (_ & H1 & _).
    destruct (H1 _ Hv) as (H2 & _). now apply H2.
  - destruct (@expandHomeDir_spec node "~/x") as (_ & H).
    destruct (H eq_refl) as (_ & H1 & _).
    destruct (H1 _ Hv) as (_ & H2 & _).
    rewrite H2; [|reflexivity | discriminate].
    unfold pathModule. rewrite Hp. reflexivity.
  - destruct (@expandHomeDir_spec node "~abc") as (_ & H).
    destruct (H eq_refl) as (_ & H1 & _).
    destruct (H1 _ Hv) as (_ & _ & H2).
    apply H2. unfold requestsExpansion. rewrite Hp. reflexivity.
  - destruct (@expandHomeDir_spec node "abc") as (_ & H).
    destruct (H eq_refl) as (H1 & _). now apply H1.
Defined.

(** The guard comes first: [expandHomeDir] refuses an illegal location
    whatever the environment holds, also when no expansion is asked for. *)
Lemma expandHomeDir_illegal :
  JS.startsWith "atom://foo" "~" = false
  /\ forall node : Node, expandHomeDir "atom://foo" = Err IllegalLocation.
Proof. split; [reflexivity|]. intros node. reflexivity. Qed.

(* ================================================================== *)
(** * C9: [splitPathList] after [joinPathList] *)
(* ================================================================== *)

(** C9 (as amended): for a non-empty list whose elements do not contain the
    list delimiter of the dialect chosen for the first one, which
    [joinPathList] accepts, and whose joined string holds no remote prefix and
    is given the same dialect, [splitPathList] returns the list. *)
Theorem splitPathList_joinPathList (xs : list string) (joined : string) :
  xs <> [] ->
  forallb (fun x => negb (JS.hasChar (delimiterChar (dialectOf (hd "" xs))) x)) xs
    = true ->
  joinPathList xs = Ok joined ->
  (JS.indexOf joined REMOTE_PATH_URI_PREFIX 0 < 0)%Z ->
  _pathModuleFor joined = Ok (dialectOf (hd "" xs)) ->
  splitPathList joined = Ok xs.
Proof.
  intros N D J R M. destruct xs as [|first rest]; [congruence|].
  simpl hd in *. unfold joinPathList in J.
  destruct (forallb (fun path => negb (isRemote path)) (first :: rest));
    [|discriminate].
  cbn [bind invariant] in J. unfold dialectOf in *.
  destruct (_pathModuleFor first) as [m|] eqn:F; [|discriminate].
  assert (E : joined = JS.join (first :: rest) (delimiter m))
    by (cbn [bind] in J; congruence).
  clear J. rewrite E in *. clear E.
  unfold splitPathList. apply Z.ltb_lt in R. rewrite R.
  cbn [bind invariant]. rewrite M. cbn [bind]. f_equal. rewrite delimiter_char.
  apply split_join_char; [discriminate | assumption].
Qed.

Lemma splitPathList_joinPathList_witness :
  joinPathList ["/usr/bin"; "/bin"; "/opt/a b"] = Ok "/usr/bin:/bin:/opt/a b"
  /\ splitPathList "/usr/bin:/bin:/opt/a b" = Ok ["/usr/bin"; "/bin"; "/opt/a b"]
  /\ splitPathList "C:\bin;D:\tools" = Ok ["C:\bin"; "D:\tools"].
Proof.
  split; [reflexivity|]. split.
  - apply (splitPathList_joinPathList ["/usr/bin"; "/bin"; "/opt/a b"]);
      [discriminate | reflexivity | reflexivity | reflexivity | reflexivity].
  - apply (splitPathList_joinPathList ["C:\bin"; "D:\tools"]);
      [discriminate | reflexivity | reflexivity | reflexivity | reflexivity].
Defined.

(** C9, as stated, fails on the empty list: its join is the empty string,
    which splits into one empty path. *)
Lemma splitPathList_joinPathList_empty :
  joinPathList [] = Ok ""
  /\ splitPathList "" = Ok [""]
  /\ (joined <- joinPathList [] ;; splitPathList joined) <> Ok [].
Proof. repeat split. discriminate. Qed.

(* ================================================================== *)
(** * C10: the hostname under [join] *)
(* ================================================================== *)

(** C10: [join] decodes the whole rebuilt URI, hostname included, where
    [resolve], [normalize] and [dirname] decode the path before they rebuild
    the URI.  For a hostname that ends like an archive boundary the separator
    between hostname and path is removed, and the result has another
    hostname; [resolve] on the same input keeps it. *)
Theorem join_changes_hostname :
  wellFormed "nuclide://h.zip!/a" = true
  /\ getHostname "nuclide://h.zip!/a" = Ok "h.zip!"
  /\ (forall node : Node,
        join "nuclide://h.zip!/a" ["b"] = Ok "nuclide://h.zip!a/b")
  /\ getHostname "nuclide://h.zip!a/b" = Ok "h.zip!a"
  /\ (forall node : Node,
        resolve "nuclide://h.zip!/a" ["b"] = Ok "nuclide://h.zip!/a/b")
  /\ (forall node : Node,
        normalize "nuclide://h.zip!/a" = Ok "nuclide://h.zip!/a")
  /\ (forall node : Node,
        dirname "nuclide://h.zip!/a" = Ok "nuclide://h.zip!/").
Proof. repeat split. Qed.

(* ================================================================== *)
(** * Further properties *)
(* ================================================================== *)

(** For a well-formed remote location, [normalize], [dirname] and [resolve]
    return a remote location with the same hostname. *)
Theorem remote_hostname_kept {node : Node} (r : string) :
  isRemote r = true -> wellFormed r = true ->
  (exists u, normalize r = Ok u
             /\ isRemote u = true /\ getHostname u = Ok (hostnameOf r))
  /\ (exists u, dirname r = Ok u
                /\ isRemote u = true /\ getHostname u = Ok (hostnameOf r))
  /\ (forall paths,
        exists u, resolve r paths = Ok u
                  /\ isRemote u = true /\ getHostname u = Ok (hostnameOf r)).
Proof.
  intros R W. destruct (wellFormed_elim r W) as (T & _ & E & P).
  destruct (P R) as [p Hp].
  destruct (parse_remote r p R Hp) as (_ & Nh & _ & Ap & _).
  pose proof (parseRemoteUri_ok r p R Hp) as PR.
  set (h := hostnameOf r) in *.
  assert (Fh : JS.hasChar "/" h = false) by apply hasChar_upTo.
  assert (K : forall n, JS.startsWith n "/" = true ->
                exists u, createRemoteUri h (_archiveDecode posix n) = Ok u
                          /\ isRemote u = true /\ getHostname u = Ok h).
  { intros n An. pose proof (archiveDecode_absolute posix n An) as Ax.
    pose proof (archiveDecode_not_trailing posix n) as Ex.
    set (x := _archiveDecode posix n) in *.
    exists ("nuclide://" ++ h ++ x). split; [|split].
    - unfold createRemoteUri. destruct x; [discriminate | reflexivity].
    - reflexivity.
    - unfold getHostname, parseRemoteUri.
      change (isRemote ("nuclide://" ++ h ++ x)) with true. cbn [negb].
      rewrite (parse_createRemoteUri h x Nh Fh Ax (remote_not_trailing h x Ax Ex)).
      cbn [bind hostname path]. apply String.eqb_neq in Nh. now rewrite Nh. }
  split; [|split].
  - unfold normalize. rewrite T, (pathModuleFor_remote r R E), R, PR.
    cbn [bind remote_hostname remote_path path_normalize]. apply K.
    apply posix_normalize_absolute. now apply archiveEncode_absolute.
  - unfold dirname. rewrite T, (pathModuleFor_remote r R E), R, PR.
    cbn [bind remote_hostname remote_path path_dirname]. apply K.
    apply posix_dirname_absolute. now apply archiveEncode_absolute.
  - intros paths. unfold resolve.
    rewrite T, (pathModuleFor_remote r R E), R, PR.
    cbn [bind remote_hostname remote_path path_resolve
           _archiveEncodeArrayInPlace map].
    apply K. apply posix_resolve_absolute. now apply archiveEncode_absolute.
Qed.

Lemma remote_hostname_kept_witness :
  isRemote "nuclide://h.zip!/a.zip!b/c" = true
  /\ wellFormed "nuclide://h.zip!/a.zip!b/c" = true
  /\ forall node : Node,
       (exists u, normalize "nuclide://h.zip!/a.zip!b/c" = Ok u
                  /\ isRemote u = true
                  /\ getHostname u = Ok (hostnameOf "nuclide://h.zip!/a.zip!b/c"))
       /\ (exists u, dirname "nuclide://h.zip!/a.zip!b/c" = Ok u
                     /\ isRemote u = true
                     /\ getHostname u = Ok (hostnameOf "nuclide://h.zip!/a.zip!b/c"))
       /\ (forall paths,
             exists u, resolve "nuclide://h.zip!/a.zip!b/c" paths = Ok u
                       /\ isRemote u = true
                       /\ getHostname u = Ok (hostnameOf "nuclide://h.zip!/a.zip!b/c")).
Proof.
  split; [reflexivity|]. split; [reflexivity|]. intros node.
  apply (@remote_hostname_kept node "nuclide://h.zip!/a.zip!b/c"); reflexivity.
Defined.

(** Except on four-character strings (where the archive-separator test
    misfires at the last position), [parse] is the function the
    specification describes: a remote location is split at the first [/]
    behind the prefix and needs that separator and a hostname; a local one
    must not hold [://]; neither may end with an archive separator. *)
Theorem parse_as_specified (s : string) :
  String.length s <> 4 -> parse s = parseSpec s.
Proof.
  intros L4. unfold parse, parseSpec, isRemote.
  rewrite (endsWithArchiveSeparator_spec s L4).
  destruct (JS.startsWith s REMOTE_PATH_URI_PREFIX) eqn:R.
  - unfold hostnameOf.
    set (rest := JS.drop (String.length REMOTE_PATH_URI_PREFIX) s).
    rewrite indexOf_0.
    destruct (JS.find rest "/") as [i|] eqn:F.
    + destruct (find_char_upTo _ _ _ F) as (T & _ & L).
      assert (H : JS.hasChar "/" rest = true).
      { destruct (JS.hasChar "/" rest) eqn:H; [reflexivity|].
        apply JSFacts.find_char_None in H. congruence. }
      rewrite H. cbn [negb].
      replace (negb (Z.of_nat i =? -1)%Z) with true
        by (symmetry; apply negb_true_iff, Z.eqb_neq; lia).
      cbn [invariant bind]. rewrite Nat2Z.id, T, L.
      destruct (String.eqb (upTo "/" rest) ""); [reflexivity|].
      cbn [negb invariant bind].
      destruct (endsWithArchiveSeparator s); reflexivity.
    + apply JSFacts.find_char_None in F. rewrite F. reflexivity.
  - unfold JS.includes. rewrite indexOf_0.
    destruct (JS.find s "://") as [i|].
    + replace (Z.of_nat i =? -1)%Z with false
        by (symmetry; apply Z.eqb_neq; lia).
      reflexivity.
    + cbn [invariant bind Z.eqb]. destruct (endsWithArchiveSeparator s); reflexivity.
Qed.

Lemma parse_as_specified_witness :
  parse "nuclide://host/a.zip!b" = parseSpec "nuclide://host/a.zip!b"
  /\ parse "/etc/file.zip!" = parseSpec "/etc/file.zip!"
  /\ parseSpec "/etc/file.zip!" = Err IllegalLocation.
Proof.
  split; [|split].
  - apply (parse_as_specified "nuclide://host/a.zip!b"). discriminate.
  - apply (parse_as_specified "/etc/file.zip!"). discriminate.
  - reflexivity.
Defined.

(** At every position other than 3, [_isArchiveSeparator] holds exactly when
    the position holds the archive separator and a recognized archive
    extension ends right before it; at position 3 it also holds for a
    separator that no extension precedes. *)
Theorem isArchiveSeparator_as_specified (s : string) (i : nat) :
  i <> 3 -> _isArchiveSeparator s (Z.of_nat i) = archiveSeparatorAt s i.
Proof. apply isArchiveSeparator_spec. Qed.

Lemma isArchiveSeparator_as_specified_witness :
  _isArchiveSeparator "lib.zip!src" 7 = archiveSeparatorAt "lib.zip!src" 7
  /\ archiveSeparatorAt "lib.zip!src" 7 = true
  /\ _isArchiveSeparator "abc!" 3 = true
  /\ archiveSeparatorAt "abc!" 3 = false.
Proof.
  split; [|repeat split].
  apply (isArchiveSeparator_as_specified "lib.zip!src" 7). discriminate.
Defined.

(** For a well-formed remote location whose hostname does not end with an
    archive extension and the archive separator, [join] returns a remote
    location with the same hostname. *)
Theorem join_hostname_kept {node : Node} (r : string) (segments : list string) :
  isRemote r = true -> wellFormed r = true ->
  JS.endsWith (hostnameOf r) ".jar!" = false ->
  JS.endsWith (hostnameOf r) ".zip!" = false ->
  exists u, join r segments = Ok u
            /\ isRemote u = true /\ getHostname u = Ok (hostnameOf r).
Proof.
  intros R W Ej Ez. destruct (wellFormed_elim r W) as (T & _ & E & P).
  destruct (P R) as [p Hp].
  destruct (parse_remote r p R Hp) as (_ & Nh & _ & Ap & _).
  pose proof (parseRemoteUri_ok r p R Hp) as PR.
  set (h := hostnameOf r) in *.
  assert (Fh : JS.hasChar "/" h = false) by apply hasChar_upTo.
  unfold join. rewrite T, (pathModuleFor_remote r R E), R, PR.
  cbn [bind remote_hostname remote_path path_join _archiveEncodeArrayInPlace map].
  set (j := Posix.join _).
  assert (Aj : JS.startsWith j "/" = true)
    by (apply posix_join_absolute; now apply archiveEncode_absolute).
  unfold createRemoteUri.
  assert (Nj : String.eqb j "" = false) by (destruct j; [discriminate | reflexivity]).
  rewrite Nj. cbn [negb invariant bind].
  destruct (archiveDecode_remote h j Fh Ej Ez Aj) as (x & D & Ax).
  pose proof (archiveDecode_not_trailing posix ("nuclide://" ++ h ++ j)) as Ex.
  rewrite D in *. eexists. split; [reflexivity|]. split; [reflexivity|].
  unfold getHostname, parseRemoteUri.
  change (isRemote ("nuclide://" ++ h ++ x)) with true. cbn [negb].
  rewrite (parse_createRemoteUri h x Nh Fh Ax Ex).
  cbn [bind hostname path]. apply String.eqb_neq in Nh. now rewrite Nh.
Qed.

Lemma join_hostname_kept_witness :
  isRemote "nuclide://host/lib.zip!src" = true
  /\ wellFormed "nuclide://host/lib.zip!src" = true
  /\ forall node : Node,
       join "nuclide://host/lib.zip!src" ["a"; "../b"]
         = Ok "nuclide://host/lib.zip!src/b"
       /\ exists u, join "nuclide://host/lib.zip!src" ["a"; "../b"] = Ok u
                    /\ isRemote u = true
                    /\ getHostname u = Ok (hostnameOf "nuclide://host/lib.zip!src").
Proof.
  split; [reflexivity|]. split; [reflexivity|]. intros node.
  split; [reflexivity|].
  apply (@join_hostname_kept node "nuclide://host/lib.zip!src" ["a"; "../b"]);
    reflexivity.
Defined.

(* ================================================================== *)
(** * Remote URIs and their parts *)
(* ================================================================== *)

Section RemoteParts.
Import JS JSFacts.

Lemma find_app_hit pre y pat :
  startsWith y pat = true -> find (pre ++ y) pat <> None.
Proof.
  intros H. induction pre as [|c pre IH]; simpl append.
  - rewrite find_unfold, H. discriminate.
  - rewrite find_unfold. destruct (startsWith (String c (pre ++ y)) pat);
      [discriminate|].
    destruct (find (pre ++ y) pat); [discriminate | contradiction].
Qed.

Lemma skipScheme_suffix s : exists pre, s = pre ++ skipScheme s.
Proof.
  induction s as [|c s [pre IH]]; [now exists ""|]. simpl.
  destruct (isSchemeChar c).
  - exists (String c pre). simpl. now rewrite <- IH.
  - now exists "".
Qed.

Lemma isUri_find s : isUri s = true -> find s "://" <> None.
Proof.
  unfold isUri. destruct s as [|c s]; [discriminate|].
  intros H. apply andb_true_iff in H as [_ H].
  destruct (skipScheme_suffix (String c s)) as [pre E].
  rewrite E at 1. now apply find_app_hit.
Qed.

Lemma isRemote_isUri s : isRemote s = true -> isUri s = true.
Proof. intros H. rewrite (isRemote_elim s H). reflexivity. Qed.

Lemma isAtomUri_isUri s : isAtomUri s = true -> isUri s = true.
Proof. intros H. rewrite (isAtomUri_elim s H). reflexivity. Qed.

End RemoteParts.

(** A well-formed remote location is rebuilt by [createRemoteUri] from the
    hostname and the path that [getHostname] and [getPath] read from it. *)
Theorem remote_parts_rebuild (r : string) :
  isRemote r = true -> wellFormed r = true ->
  exists h p, getHostname r = Ok h /\ getPath r = Ok p
              /\ createRemoteUri h p = Ok r.
Proof.
  intros R W. destruct (wellFormed_elim r W) as (_ & _ & _ & P).
  destruct (P R) as [p Hp].
  destruct (parse_remote r p R Hp) as (_ & _ & E & Ap & _).
  exists (hostnameOf r), (path p). split; [now apply getHostname_ok|].
  split; [unfold getPath; now rewrite Hp|].
  unfold createRemoteUri.
  destruct (path p) as [|c x] eqn:Px; [discriminate|].
  cbn [String.eqb negb invariant bind]. f_equal. symmetry. exact E.
Qed.

Lemma remote_parts_rebuild_witness :
  isRemote "nuclide://host/a/lib.zip!src" = true
  /\ wellFormed "nuclide://host/a/lib.zip!src" = true
  /\ getHostname "nuclide://host/a/lib.zip!src" = Ok "host"
  /\ getPath "nuclide://host/a/lib.zip!src" = Ok "/a/lib.zip!src"
  /\ exists h p, getHostname "nuclide://host/a/lib.zip!src" = Ok h
                 /\ getPath "nuclide://host/a/lib.zip!src" = Ok p
                 /\ createRemoteUri h p = Ok "nuclide://host/a/lib.zip!src".
Proof.
  split; [reflexivity|]. split; [reflexivity|]. split; [reflexivity|].
  split; [reflexivity|].
  apply (remote_parts_rebuild "nuclide://host/a/lib.zip!src"); reflexivity.
Defined.

(** For a non-empty hostname without [/] and a path that starts with [/] and
    does not end with an archive separator, [createRemoteUri] gives a remote
    location from which [getHostname] and [getPath] read the two back. *)
Theorem createRemoteUri_parts (h x : string) :
  h <> "" -> JS.hasChar "/" h = false ->
  JS.startsWith x "/" = true -> _endsWithArchiveSeparator x = false ->
  exists u, createRemoteUri h x = Ok u
            /\ isRemote u = true /\ wellFormed u = true
            /\ getHostname u = Ok h /\ getPath u = Ok x.
Proof.
  intros Nh Fh Ax Ex.
  pose proof (remote_not_trailing h x Ax Ex) as Eu.
  pose proof (parse_createRemoteUri h x Nh Fh Ax Eu) as Pu.
  unfold createRemoteUri.
  destruct x as [|c x]; [discriminate|].
  cbn [String.eqb negb invariant bind].
  set (u := "nuclide://" ++ h ++ String c x) in *.
  assert (R : isRemote u = true) by reflexivity.
  exists u. split; [reflexivity|]. split; [exact R|].
  assert (W : wellFormed u = true).
  { unfold wellFormed, _testForIllegalUri.
    rewrite Eu, R, Pu.
    destruct (isAtomUri u) eqn:A; [|reflexivity].
    apply isAtomUri_not_remote in A. congruence. }
  split; [exact W|]. split.
  - unfold getHostname, parseRemoteUri. rewrite R, Pu.
    cbn [negb bind hostname path].
    apply String.eqb_neq in Nh. now rewrite Nh.
  - unfold getPath. now rewrite Pu.
Qed.

Lemma createRemoteUri_parts_witness :
  createRemoteUri "host" "/a/lib.zip!src" = Ok "nuclide://host/a/lib.zip!src"
  /\ exists u, createRemoteUri "host" "/a/lib.zip!src" = Ok u
               /\ isRemote u = true /\ wellFormed u = true
               /\ getHostname u = Ok "host" /\ getPath u = Ok "/a/lib.zip!src".
Proof.
  split; [reflexivity|].
  apply (createRemoteUri_parts "host" "/a/lib.zip!src");
    [discriminate | reflexivity | reflexivity | reflexivity].
Defined.

(** [isLocal] is the negation of [isUri]: the remote prefix and the Atom
    prefix both match the URI pattern, so the two other tests of [isLocal]
    never decide. *)
Theorem isLocal_not_isUri (uri : string) : isLocal uri = negb (isUri uri).
Proof.
  unfold isLocal.
  destruct (isUri uri) eqn:U.
  - now rewrite andb_false_r.
  - destruct (isRemote uri) eqn:R;
      [apply isRemote_isUri in R; congruence|].
    destruct (isAtomUri uri) eqn:A;
      [apply isAtomUri_isUri in A; congruence|].
    reflexivity.
Qed.

(** Whatever [parse] accepts without a hostname is local for [isLocal]. *)
Theorem parse_local_isLocal (uri : string) (p : ParsedUrl) :
  parse uri = Ok p -> hostname p = None -> isLocal uri = true.
Proof.
  intros P H. unfold isLocal.
  assert (R : isRemote uri = false).
  { destruct (isRemote uri) eqn:R; [|reflexivity].
    destruct (parse_remote uri p R P) as (Hh & _). congruence. }
  assert (A : isAtomUri uri = false).
  { destruct (isAtomUri uri) eqn:A; [|reflexivity].
    rewrite (parse_atom uri A) in P. discriminate. }
  rewrite R, A. cbn [negb andb]. rewrite andb_true_r.
  destruct (isUri uri) eqn:U; [|reflexivity].
  apply isUri_find in U.
  unfold parse in P. unfold isRemote in R. rewrite R in P.
  rewrite indexOf_0 in P.
  destruct (JS.find uri "://") as [i|]; [|contradiction].
  replace (Z.of_nat i =? -1)%Z with false in P
    by (symmetry; apply Z.eqb_neq; lia).
  discriminate.
Qed.

Lemma parse_local_isLocal_witness :
  parse "/a/lib.zip!src" = Ok {| hostname := None; path := "/a/lib.zip!src" |}
  /\ isLocal "/a/lib.zip!src" = true.
Proof.
  split; [reflexivity|].
  apply (parse_local_isLocal "/a/lib.zip!src"
           {| hostname := None; path := "/a/lib.zip!src" |});
    reflexivity.
Defined.

(* ================================================================== *)
(** * [Posix.dirname] *)
(* ================================================================== *)

Section PosixDirname.
Import JS JSFacts.

Lemma list_ascii_app a b :
  list_ascii_of_string (a ++ b)
  = (list_ascii_of_string a ++ list_ascii_of_string b)%list.
Proof. induction a as [|c a IH]; simpl; [reflexivity | now rewrite IH]. Qed.

Lemma string_of_list_app l m :
  string_of_list_ascii (l ++ m)
  = string_of_list_ascii l ++ string_of_list_ascii m.
Proof. induction l as [|c l IH]; simpl; [reflexivity | now rewrite IH]. Qed.

Lemma length_list_ascii s :
  List.length (list_ascii_of_string s) = String.length s.
Proof. induction s as [|c s IH]; simpl; [reflexivity | now rewrite IH]. Qed.

Lemma length_string_of_list l :
  String.length (string_of_list_ascii l) = List.length l.
Proof. induction l as [|c l IH]; simpl; [reflexivity | now rewrite IH]. Qed.

Lemma noSlash_forallb x :
  hasChar "/" x = false ->
  forallb (fun c => negb (Posix.isSlash c)) (list_ascii_of_string x) = true.
Proof.
  induction x as [|c x IH]; [reflexivity|]. simpl. intros H.
  apply orb_false_iff in H as [H1 H2]. unfold Posix.isSlash at 1.
  rewrite H1. simpl. now apply IH.
Qed.

Lemma dropWhile_all (p : ascii -> bool) l m :
  forallb p l = true -> Posix.dropWhile p (l ++ m) = Posix.dropWhile p m.
Proof.
  induction l as [|c l IH]; [reflexivity|]. simpl. intros H.
  apply andb_true_iff in H as [H1 H2]. rewrite H1. now apply IH.
Qed.

Lemma dropWhile_suffix (p : ascii -> bool) l :
  exists pre, l = (pre ++ Posix.dropWhile p l)%list.
Proof.
  induction l as [|c l [pre IH]]; [now exists []|]. simpl.
  destruct (p c).
  - exists (c :: pre). simpl. now rewrite <- IH.
  - now exists [].
Qed.

(** The directory of [p/x] is [p], for a name [x] and any [p] other than the
    empty path and the root. *)
Lemma posix_dirname_child p x :
  p <> "" -> p <> "/" -> x <> "" -> hasChar "/" x = false ->
  Posix.dirname (p ++ "/" ++ x) = p.
Proof.
  intros Np Nr Nx Fx. destruct p as [|c0 p']; [contradiction|].
  simpl append. unfold Posix.dirname.
  rewrite list_ascii_app. simpl list_ascii_of_string.
  rewrite rev_app_distr. simpl rev. rewrite <- app_assoc. simpl app.
  pose proof (noSlash_forallb x Fx) as Fl.
  rewrite <- forallb_rev in Fl.
  assert (Nl : rev (list_ascii_of_string x) <> []).
  { destruct x; [contradiction|]. simpl. intros E.
    apply (f_equal (@List.length ascii)) in E. rewrite length_app in E.
    simpl in E. lia. }
  destruct (rev (list_ascii_of_string x)) as [|y ys] eqn:Ey; [contradiction|].
  simpl in Fl. apply andb_true_iff in Fl as [Fy Fys].
  assert (Sy : Posix.isSlash y = false)
    by (destruct (Posix.isSlash y); [discriminate | reflexivity]).
  cbn [app Posix.dropWhile]. rewrite Sy.
  cbn [Posix.dropWhile]. rewrite Fy.
  rewrite (dropWhile_all _ ys _ Fys). cbn [Posix.dropWhile].
  change (negb (Posix.isSlash "/")) with false. cbv iota.
  rewrite rev_involutive, string_of_list_ascii_of_string.
  rewrite length_rev, length_list_ascii.
  destruct p' as [|c1 p'']; [|now rewrite andb_false_r].
  simpl. destruct (Posix.isSlash c0) eqn:S0; [|reflexivity].
  exfalso. apply Nr. unfold Posix.isSlash in S0.
  apply Ascii.eqb_eq in S0. now subst.
Qed.

Lemma dropWhile_head (p : ascii -> bool) l c r :
  Posix.dropWhile p l = c :: r -> p c = false.
Proof.
  induction l as [|x l IH]; simpl; [discriminate|].
  destruct (p x) eqn:E; [exact IH|]. intros H. injection H as -> _. exact E.
Qed.

(** [Posix.dirname p] is [.], [/], [//] or a proper, non-empty prefix
    of [p] that a [/] follows. *)
Lemma posix_dirname_shape p :
  Posix.dirname p = "." \/ Posix.dirname p = "/"
  \/ (Posix.dirname p = "//" /\ startsWith p "//" = true)
  \/ exists n, 0 < n /\ n < String.length p /\ Posix.dirname p = take n p
               /\ startsWith (drop n p) "/" = true.
Proof.
  destruct p as [|c0 rest]; [now left|]. unfold Posix.dirname.
  set (l := rev (list_ascii_of_string rest)).
  destruct (dropWhile_suffix Posix.isSlash l) as [pre1 E1].
  destruct (dropWhile_suffix (fun c => negb (Posix.isSlash c))
              (Posix.dropWhile Posix.isSlash l)) as [pre2 E2].
  destruct (Posix.dropWhile _ (Posix.dropWhile Posix.isSlash l))
    as [|c before] eqn:D.
  - destruct (Posix.isSlash c0); auto.
  - assert (C : c = "/"%char).
    { apply dropWhile_head in D. apply negb_false_iff in D.
      now apply Ascii.eqb_eq in D. }
    assert (L : l = ((pre1 ++ pre2) ++ c :: before)%list)
      by (rewrite E1 at 1; rewrite E2 at 1; now rewrite app_assoc).
    assert (R : rest = string_of_list_ascii (rev before)
                       ++ String c (string_of_list_ascii (rev (pre1 ++ pre2)))).
    { rewrite <- (string_of_list_ascii_of_string rest).
      rewrite <- (rev_involutive (list_ascii_of_string rest)).
      fold l. rewrite L, rev_app_distr. simpl rev.
      rewrite <- app_assoc, string_of_list_app. reflexivity. }
    assert (B : String.length (string_of_list_ascii (rev before))
                = List.length before)
      by (rewrite length_string_of_list; apply length_rev).
    destruct (Posix.isSlash c0 && (List.length before =? 0)%nat) eqn:Q.
    { right. right. left. split; [reflexivity|].
      apply andb_true_iff in Q as [Q0 Q1]. apply Nat.eqb_eq in Q1.
      destruct before; [|discriminate]. unfold Posix.isSlash in Q0.
      apply Ascii.eqb_eq in Q0. rewrite R, C, Q0. reflexivity. }
    right. right. right. exists (S (List.length before)).
    split; [lia|]. split; [|split].
    + simpl. rewrite R at 1. rewrite length_append, B. simpl. lia.
    + rewrite take_cons. f_equal. rewrite R, <- B. now rewrite take_app.
    + cbn [drop]. rewrite R, <- B, drop_app, C. reflexivity.
Qed.

Lemma posix_dirname_cases p :
  Posix.dirname p = "." \/ Posix.dirname p = "/" \/ Posix.dirname p = "//"
  \/ exists n, 0 < n /\ n < String.length p /\ Posix.dirname p = take n p.
Proof.
  destruct (posix_dirname_shape p)
    as [H | [H | [[H _] | (n & A & B & C & _)]]];
    [now left | now right; left | now right; right; left|].
  right. right. right. exists n. auto.
Qed.

End PosixDirname.

(* ================================================================== *)
(** * Members of an archive *)
(* ================================================================== *)

Section ArchiveMembers.
Import JS JSFacts.

Lemma startsWith_hasChar c s pat :
  startsWith s pat = true -> hasChar c pat = true -> hasChar c s = true.
Proof.
  intros H P. apply startsWith_elim in H. rewrite H, hasChar_app, P.
  reflexivity.
Qed.

(** Where [a] and [q] hold no [c], an occurrence of [q ++ c] at the start of
    [a ++ c ++ y] ends at that [c]. *)
Lemma startsWith_align c a y q :
  hasChar c a = false -> hasChar c q = false ->
  startsWith (a ++ String c y) (q ++ String c "") = true -> a = q.
Proof.
  intros Ha Hq H. apply startsWith_elim in H.
  assert (U1 : upTo c (a ++ String c y) = a).
  { apply upTo_app; [exact Ha|]. right. simpl. now rewrite Ascii.eqb_refl. }
  rewrite H, append_assoc in U1. rewrite <- U1.
  apply upTo_app; [exact Hq|]. right. simpl. now rewrite Ascii.eqb_refl.
Qed.

Lemma replace_absent s pat rep :
  (forall k, startsWith (drop k s) pat = false) -> replace s pat rep = s.
Proof.
  induction s as [|c s IH]; intros H.
  - pose proof (H 0) as H0. cbn [drop] in H0. cbn [replace]. now rewrite H0.
  - rewrite replace_miss by apply (H 0). f_equal. apply IH.
    intros k. apply (H (S k)).
Qed.

(** In [w!y] with no other [!], [q!] occurs only where [w] ends with [q]. *)
Lemma single_bang_absent w y q t :
  hasChar "!" w = false -> hasChar "!" y = false -> hasChar "!" q = false ->
  endsWith w q = false ->
  forall k, startsWith (drop k (w ++ "!" ++ y)) ((q ++ "!") ++ t) = false.
Proof.
  intros Hw Hy Hq E k.
  destruct (startsWith (drop k (w ++ "!" ++ y)) ((q ++ "!") ++ t)) eqn:S;
    [exfalso | reflexivity].
  apply startsWith_app_l in S.
  destruct (Nat.le_gt_cases k (String.length w)) as [L|G].
  - rewrite drop_app_le in S by exact L.
    apply startsWith_align in S; [|now apply hasChar_drop | exact Hq].
    rewrite (endsWith_drop k w q L S) in E. discriminate.
  - rewrite drop_app_ge in S by lia.
    assert (B : hasChar "!" (drop (k - String.length w) ("!" ++ y)) = true).
    { apply (startsWith_hasChar _ _ _ S). rewrite hasChar_app.
      simpl. now rewrite orb_true_r. }
    destruct (k - String.length w) as [|j] eqn:J; [lia|].
    simpl in B. rewrite hasChar_drop in B by exact Hy. discriminate.
Qed.

(** In [w ++ q ++ "!" ++ x] with no [!] before that one, the first
    occurrence of [q!] is the one shown. *)
Lemma replace_at_bang w q x rep :
  hasChar "!" (w ++ q) = false ->
  replace (w ++ (q ++ "!") ++ x) (q ++ "!") rep = w ++ rep ++ x.
Proof.
  intros H. rewrite hasChar_app in H. apply orb_false_iff in H as [Hw Hq].
  rewrite replace_after_prefix; [now rewrite replace_app_hit|].
  intros k Hk.
  destruct (startsWith (drop k (w ++ (q ++ "!") ++ x)) (q ++ "!")) eqn:S;
    [exfalso | reflexivity].
  rewrite drop_app_le in S by lia.
  rewrite !append_assoc, <- (append_assoc (drop k w) q) in S.
  apply startsWith_align in S; [| |exact Hq].
  - apply (f_equal String.length) in S.
    rewrite length_append, length_drop in S. lia.
  - rewrite hasChar_app, Hq, orb_false_r. now apply hasChar_drop.
Qed.

Lemma endsWith_other_extension u e1 e2 :
  String.length e1 = String.length e2 -> String.eqb e1 e2 = false ->
  endsWith u e1 = true -> endsWith u e2 = false.
Proof.
  intros L N E. apply endsWith_elim in E. rewrite E.
  now rewrite endsWith_app_same.
Qed.

Lemma hasKnownArchiveExtension_elim u :
  hasKnownArchiveExtension u = true ->
  exists pre e, (e = ".jar" \/ e = ".zip") /\ u = pre ++ e.
Proof.
  unfold hasKnownArchiveExtension, KNOWN_ARCHIVE_EXTENSIONS. simpl.
  intros H. apply orb_true_iff in H as [H|H].
  - apply endsWith_elim in H. eauto.
  - rewrite orb_false_r in H. apply endsWith_elim in H. eauto.
Qed.

(** Encoding [u!x], where [u] ends with an archive extension and [!] occurs
    nowhere else. *)
Lemma archiveEncode_member m u x :
  hasKnownArchiveExtension u = true ->
  hasChar "!" u = false -> hasChar "!" x = false ->
  _archiveEncode m (u ++ "!" ++ x) = u ++ "!" ++ sep m ++ x.
Proof.
  intros K Hu Hx. rewrite archiveEncode_unfold.
  replace (hasChar "!" (u ++ "!" ++ x)) with true
    by (rewrite hasChar_app; simpl; now rewrite orb_true_r).
  assert (Hsx : hasChar "!" (sep m ++ x) = false)
    by (rewrite hasChar_app, Hx; destruct m; reflexivity).
  destruct (hasKnownArchiveExtension_elim u K) as (pre & e & [-> | ->] & ->).
  - rewrite (append_assoc pre ".jar").
    change (".jar" ++ "!" ++ x) with ((".jar" ++ "!") ++ x).
    rewrite (replace_at_bang pre ".jar" x) by exact Hu.
    change (pre ++ (".jar!" ++ sep m) ++ x)
      with (pre ++ (".jar" ++ "!" ++ sep m ++ x)).
    rewrite <- (append_assoc pre ".jar").
    rewrite replace_absent; [now rewrite !append_assoc|].
    apply (single_bang_absent (pre ++ ".jar") (sep m ++ x) ".zip" "");
      [exact Hu | exact Hsx | reflexivity|].
    now rewrite endsWith_app_same.
  - rewrite (replace_absent _ ".jar!").
    + rewrite (append_assoc pre ".zip").
      change (".zip" ++ "!" ++ x) with ((".zip" ++ "!") ++ x).
      rewrite (replace_at_bang pre ".zip" x) by exact Hu.
      now rewrite !append_assoc.
    + apply (single_bang_absent (pre ++ ".zip") x ".jar" "");
        [exact Hu | exact Hx | reflexivity|].
      now rewrite endsWith_app_same.
Qed.

Lemma endsWithArchiveSeparator_archive u :
  hasKnownArchiveExtension u = true ->
  _endsWithArchiveSeparator (u ++ "!") = true.
Proof.
  intros K. destruct (hasKnownArchiveExtension_elim u K) as (pre & e & He & ->).
  rewrite endsWithArchiveSeparator_spec.
  - unfold endsWithArchiveSeparator, KNOWN_ARCHIVE_EXTENSIONS, ARCHIVE_SEPARATOR.
    simpl existsb. rewrite !append_assoc.
    destruct He as [-> | ->]; rewrite !endsWith_app_same by reflexivity;
      reflexivity.
  - rewrite !length_append. destruct He as [-> | ->]; simpl; lia.
Qed.

(** Decoding [u!], where [u] ends with an archive extension and holds
    no [!]. *)
Lemma archiveDecode_archive m u :
  hasKnownArchiveExtension u = true -> hasChar "!" u = false ->
  _archiveDecode m (u ++ "!") = u.
Proof.
  intros K Hu. rewrite archiveDecode_unfold.
  replace (hasChar "!" (u ++ "!")) with true
    by (rewrite hasChar_app; simpl; now rewrite orb_true_r).
  assert (A : forall q, hasChar "!" q = false ->
              forall k, startsWith (drop k (u ++ "!")) ((q ++ "!") ++ sep m)
                        = false).
  { intros q Hq k.
    destruct (startsWith (drop k (u ++ "!")) ((q ++ "!") ++ sep m)) eqn:S;
      [exfalso | reflexivity].
    pose proof (startsWith_length _ _ S) as L.
    rewrite length_drop, !length_append, length_sep in L. simpl in L.
    apply startsWith_app_l in S.
    destruct (Nat.le_gt_cases k (String.length u)) as [Le|G]; [|lia].
    rewrite drop_app_le in S by exact Le.
    apply startsWith_align in S; [|now apply hasChar_drop | exact Hq].
    apply (f_equal String.length) in S. rewrite length_drop in S. lia. }
  rewrite (replace_absent (u ++ "!") (".jar!" ++ sep m))
    by (apply (A ".jar"); reflexivity).
  rewrite (replace_absent (u ++ "!") (".zip!" ++ sep m))
    by (apply (A ".zip"); reflexivity).
  unfold _trimArchiveSuffix. rewrite endsWithArchiveSeparator_archive by exact K.
  rewrite length_append. change (String.length ARCHIVE_SEPARATOR) with 1.
  simpl (String.length "!").
  replace (String.length u + 1 - 1) with (String.length u) by lia.
  apply take_app.
Qed.

Lemma startsWith_app_cases s z pat :
  startsWith (s ++ z) pat = true ->
  startsWith s pat = true
  \/ (String.length s < String.length pat /\ startsWith pat s = true).
Proof.
  revert s; induction pat as [|p pat IH]; intros s H; [now left|].
  destruct s as [|c s].
  - right. split; [simpl; lia | reflexivity].
  - simpl append in H. rewrite startsWith_cons in H.
    apply andb_true_iff in H as [H1 H2].
    destruct (IH s H2) as [A | [A B]].
    + left. rewrite startsWith_cons, H1, A. reflexivity.
    + right. split; [simpl; lia|].
      rewrite startsWith_cons, B, andb_true_r.
      apply Ascii.eqb_eq in H1. subst. apply Ascii.eqb_refl.
Qed.

(** Appending to a string that holds a dot gives one of the two schemes
    only if the string has it already. *)
Lemma scheme_app u z pat :
  hasChar "." u = true -> hasChar "." pat = false ->
  startsWith (u ++ z) pat = startsWith u pat.
Proof.
  intros Hu Hp. destruct (startsWith u pat) eqn:S.
  - now apply startsWith_app_r.
  - destruct (startsWith (u ++ z) pat) eqn:T; [exfalso | reflexivity].
    destruct (startsWith_app_cases u z pat T) as [A | [_ B]]; [congruence|].
    rewrite (startsWith_hasChar "." pat u B Hu) in Hp. discriminate.
Qed.

Lemma hasKnownArchiveExtension_dot u :
  hasKnownArchiveExtension u = true -> hasChar "." u = true.
Proof.
  intros K. destruct (hasKnownArchiveExtension_elim u K) as (pre & e & He & ->).
  rewrite hasChar_app. destruct He as [-> | ->]; simpl; now rewrite orb_true_r.
Qed.

Lemma hasKnownArchiveExtension_length u :
  hasKnownArchiveExtension u = true -> 4 <= String.length u.
Proof.
  intros K. destruct (hasKnownArchiveExtension_elim u K) as (pre & e & He & ->).
  rewrite length_append. destruct He as [-> | ->]; simpl; lia.
Qed.

Lemma get_app_length a c r : get (String.length a) (a ++ String c r) = Some c.
Proof. induction a as [|x a IH]; [reflexivity | exact IH]. Qed.

(** The [!] that [archiveJoin] writes is an archive separator. *)
Lemma isArchiveSeparator_member u x :
  hasKnownArchiveExtension u = true ->
  _isArchiveSeparator (u ++ "!" ++ x) (Z.of_nat (String.length u)) = true.
Proof.
  intros K. pose proof (hasKnownArchiveExtension_length u K) as L.
  rewrite isArchiveSeparator_spec by lia.
  unfold archiveSeparatorAt, isSeparatorChar.
  change (u ++ "!" ++ x) with (u ++ String "!" x).
  rewrite get_app_length. cbn [Ascii.eqb Bool.eqb andb].
  unfold precededByExtension, KNOWN_ARCHIVE_EXTENSIONS. cbn [existsb].
  destruct (hasKnownArchiveExtension_elim u K) as (pre & e & He & E).
  assert (D : forall e', e' = e ->
              (String.length e' <=? String.length u)%nat
              && startsWith (drop (String.length u - String.length e')
                               (u ++ String "!" x)) e' = true).
  { intros e' ->. rewrite E at 1 2 3. rewrite length_append.
    replace (String.length pre + String.length e - String.length e)
      with (String.length pre) by lia.
    rewrite append_assoc, drop_app, startsWith_app, andb_true_r.
    apply Nat.leb_le. lia. }
  destruct He as [-> | ->].
  - rewrite (D ".jar" eq_refl). reflexivity.
  - rewrite (D ".zip" eq_refl). now rewrite orb_true_r.
Qed.

End ArchiveMembers.

(** [archiveJoin] of a well-formed location that ends with an archive
    extension and a member path puts the archive separator between them; if
    the result does not end with an archive separator, it is in an archive
    and the archive contains it. *)
Theorem archiveJoin_member (uri member : string) :
  wellFormed uri = true -> hasKnownArchiveExtension uri = true ->
  _endsWithArchiveSeparator (uri ++ "!" ++ member) = false ->
  archiveJoin uri member = Ok (uri ++ "!" ++ member)
  /\ isInArchive (uri ++ "!" ++ member) = true
  /\ contains uri (uri ++ "!" ++ member) = Ok true.
Proof.
  intros W K Ea. destruct (wellFormed_elim uri W) as (T & A & E & _).
  set (a := uri ++ "!" ++ member) in *.
  assert (Aa : isAtomUri a = false).
  { unfold isAtomUri, a. rewrite scheme_app;
      [exact A | now apply hasKnownArchiveExtension_dot | reflexivity]. }
  assert (Sa : _isArchiveSeparator a (Z.of_nat (String.length uri)) = true)
    by now apply isArchiveSeparator_member.
  assert (La : String.length a = String.length uri + 1 + String.length member).
  { unfold a. rewrite !JSFacts.length_append. simpl. lia. }
  split; [|split].
  - unfold archiveJoin. rewrite T. cbn [bind].
    unfold hasKnownArchiveExtension in K. rewrite K. reflexivity.
  - unfold isInArchive. rewrite Aa. unfold ARCHIVE_SEPARATOR.
    rewrite JSFacts.indexOf_char_lt0.
    replace (JS.hasChar "!" a) with true
      by (unfold a; rewrite JSFacts.hasChar_app; simpl; now rewrite orb_true_r).
    cbn [negb orb]. apply existsb_exists. exists (String.length uri).
    split; [apply in_seq; lia | exact Sa].
  - unfold contains. rewrite T.
    assert (Ta : _testForIllegalUri a = Ok tt)
      by (apply testForIllegalUri_ok; now split).
    rewrite Ta. cbn [bind].
    replace (String.length a <? String.length uri)%nat with false
      by (symmetry; apply Nat.ltb_ge; lia).
    replace (JS.startsWith a uri) with true
      by (symmetry; apply JSFacts.startsWith_app).
    cbn [negb]. rewrite (endsWithSeparator_ok uri W). cbn [bind].
    destruct (JS.endsWith uri (sep (dialectOf uri))); [reflexivity|].
    replace (String.length uri =? String.length a)%nat with false
      by (symmetry; apply Nat.eqb_neq; lia).
    cbn [orb]. rewrite (pathModuleFor_ok a Ea). cbn [bind].
    now rewrite Sa.
Qed.

Lemma archiveJoin_member_witness :
  wellFormed "nuclide://host/lib.jar" = true
  /\ archiveJoin "nuclide://host/lib.jar" "com/x.class"
     = Ok "nuclide://host/lib.jar!com/x.class"
  /\ isInArchive "nuclide://host/lib.jar!com/x.class" = true
  /\ contains "nuclide://host/lib.jar" "nuclide://host/lib.jar!com/x.class"
     = Ok true.
Proof.
  split; [reflexivity|].
  apply (archiveJoin_member "nuclide://host/lib.jar" "com/x.class");
    reflexivity.
Defined.

(** With an empty member path [archiveJoin] returns a location that ends
    with the archive separator, which is not well formed: every guarded
    operation refuses it. *)
Theorem archiveJoin_empty_member (uri : string) :
  wellFormed uri = true -> hasKnownArchiveExtension uri = true ->
  archiveJoin uri "" = Ok (uri ++ "!")
  /\ wellFormed (uri ++ "!") = false
  /\ _testForIllegalUri (uri ++ "!") = Err IllegalLocation.
Proof.
  intros W K. destruct (wellFormed_elim uri W) as (T & _).
  pose proof (endsWithArchiveSeparator_archive uri K) as E.
  assert (I : _testForIllegalUri (uri ++ "!") = Err IllegalLocation).
  { unfold _testForIllegalUri. rewrite E.
    destruct (isAtomUri (uri ++ "!")); reflexivity. }
  split; [|split; [|exact I]].
  - unfold archiveJoin. rewrite T. cbn [bind].
    unfold hasKnownArchiveExtension in K. rewrite K. reflexivity.
  - unfold wellFormed. now rewrite I.
Qed.

Lemma archiveJoin_empty_member_witness :
  wellFormed "/a/lib.zip" = true
  /\ archiveJoin "/a/lib.zip" "" = Ok "/a/lib.zip!"
  /\ wellFormed "/a/lib.zip!" = false
  /\ _testForIllegalUri "/a/lib.zip!" = Err IllegalLocation.
Proof.
  split; [reflexivity|].
  apply (archiveJoin_empty_member "/a/lib.zip"); reflexivity.
Defined.

(** [dirname] undoes [archiveJoin] with a name: for a local location that
    ends with an archive extension and holds neither [!] nor a backslash, and
    a non-empty member name without [/], [!] and backslash, the directory of
    the joined location is the archive. *)
Theorem dirname_archiveJoin {node : Node} (uri member : string) :
  isRemote uri = false -> isAtomUri uri = false ->
  hasKnownArchiveExtension uri = true ->
  JS.hasChar "!" uri = false -> JS.hasChar "\" uri = false ->
  member <> "" -> JS.hasChar "/" member = false ->
  JS.hasChar "!" member = false -> JS.hasChar "\" member = false ->
  exists a, archiveJoin uri member = Ok a /\ dirname a = Ok uri.
Proof.
  intros R A K Bu Wu Nm Sm Bm Wm.
  pose proof (noBang_not_endsWithArchiveSeparator uri Bu) as E.
  assert (T : _testForIllegalUri uri = Ok tt)
    by (apply testForIllegalUri_ok; now split).
  exists (uri ++ "!" ++ member). split.
  { unfold archiveJoin. rewrite T. cbn [bind].
    unfold hasKnownArchiveExtension in K. rewrite K. reflexivity. }
  set (a := uri ++ "!" ++ member).
  pose proof (hasKnownArchiveExtension_dot uri K) as D.
  assert (Aa : isAtomUri a = false)
    by (unfold isAtomUri, a; rewrite scheme_app; [exact A | exact D | reflexivity]).
  assert (Ra : isRemote a = false)
    by (unfold isRemote, a; rewrite scheme_app; [exact R | exact D | reflexivity]).
  assert (Ea : _endsWithArchiveSeparator a = false).
  { destruct (_endsWithArchiveSeparator a) eqn:Ea; [exfalso | reflexivity].
    apply endsWithArchiveSeparator_char in Ea. unfold a, ARCHIVE_SEPARATOR in Ea.
    rewrite <- JSFacts.append_assoc in Ea.
    rewrite endsWith_app_nonempty in Ea by exact Nm.
    rewrite endsWith_nochar in Ea by exact Bm. discriminate. }
  assert (Wa : JS.hasChar "\" a = false).
  { unfold a. rewrite !JSFacts.hasChar_app, Wu, Wm. reflexivity. }
  unfold dirname.
  replace (_testForIllegalUri a) with (Ok tt)
    by (symmetry; apply testForIllegalUri_ok; now split).
  rewrite (pathModuleFor_no_backslash a Wa Ea), Ra. cbn [bind path_dirname].
  unfold a. rewrite (archiveEncode_member posix uri member K Bu Bm).
  change (sep posix) with "/". rewrite <- (JSFacts.append_assoc uri "!").
  rewrite posix_dirname_child; [| | |exact Nm | exact Sm].
  - now rewrite archiveDecode_archive.
  - destruct uri; discriminate.
  - intros F. apply (f_equal String.length) in F.
    rewrite JSFacts.length_append in F.
    pose proof (hasKnownArchiveExtension_length uri K). simpl in F. lia.
Qed.

Lemma dirname_archiveJoin_witness :
  archiveJoin "/a/lib.zip" "src" = Ok "/a/lib.zip!src"
  /\ forall node : Node,
       dirname "/a/lib.zip!src" = Ok "/a/lib.zip"
       /\ exists a, archiveJoin "/a/lib.zip" "src" = Ok a
                    /\ dirname a = Ok "/a/lib.zip".
Proof.
  split; [reflexivity|]. intros node. split; [reflexivity|].
  apply (@dirname_archiveJoin node "/a/lib.zip" "src");
    try reflexivity; discriminate.
Defined.

(* ================================================================== *)
(** * A trailing separator keeps the dialect *)
(* ================================================================== *)

Section DialectStable.
Import JS JSFacts.

Lemma split_length_cons a r c :
  List.length (split (String a r) (String c ""))
  = if Ascii.eqb a c then S (List.length (split r (String c "")))
    else List.length (split r (String c "")).
Proof.
  unfold split. cbn [split_go]. rewrite startsWith_cons.
  simpl (startsWith r ""). rewrite andb_true_r.
  destruct (Ascii.eqb a c); [reflexivity|].
  pose proof (split_nonempty r (String c "")) as N. unfold split in N.
  destruct (split_go (String c "") 0 r); [contradiction | reflexivity].
Qed.

Lemma split_length_snoc s c d :
  List.length (split (s ++ String d "") (String c ""))
  = if Ascii.eqb d c then S (List.length (split s (String c "")))
    else List.length (split s (String c "")).
Proof.
  induction s as [|a s IH]; [apply split_length_cons|].
  simpl append. rewrite !split_length_cons, IH.
  destruct (Ascii.eqb a c), (Ascii.eqb d c); reflexivity.
Qed.

Lemma indexOf_0_gt s pat :
  (indexOf s pat 0 >? -1)%Z
  = match find s pat with Some _ => true | None => false end.
Proof.
  rewrite indexOf_0. destruct (find s pat) as [i|]; [|reflexivity].
  apply Z.gtb_lt. lia.
Qed.

Lemma find_app_mono u z pat : find u pat <> None -> find (u ++ z) pat <> None.
Proof.
  induction u as [|c u IH]; intros H.
  - rewrite find_unfold in H. destruct (startsWith "" pat) eqn:S;
      [|contradiction].
    simpl append. rewrite find_unfold.
    destruct pat; [|discriminate]. rewrite startsWith_nil. discriminate.
  - simpl append. rewrite find_unfold in H. rewrite find_unfold.
    destruct (startsWith (String c u) pat) eqn:S.
    + change (String c (u ++ z)) with (String c u ++ z).
      rewrite (startsWith_app_r _ z _ S). discriminate.
    + destruct (startsWith (String c (u ++ z)) pat); [discriminate|].
      destruct (find (u ++ z) pat) eqn:F; [discriminate|].
      exfalso. apply IH; [|reflexivity].
      destruct (find u pat); [discriminate | contradiction].
Qed.

(** Appending a character that the pattern does not hold creates no
    occurrence of the pattern. *)
Lemma find_snoc_none u pat d :
  pat <> "" -> hasChar d pat = false ->
  find u pat = None -> find (u ++ String d "") pat = None.
Proof.
  intros Np Hd. induction u as [|c u IH]; intros F.
  - simpl append. rewrite find_unfold.
    destruct (startsWith (String d "") pat) eqn:S.
    + exfalso. destruct pat as [|p pat]; [contradiction|].
      rewrite startsWith_cons in S. apply andb_true_iff in S as [S _].
      simpl in Hd. apply Ascii.eqb_eq in S. subst.
      rewrite Ascii.eqb_refl in Hd. discriminate.
    + rewrite find_unfold. destruct pat; [contradiction | reflexivity].
  - rewrite find_unfold in F.
    destruct (startsWith (String c u) pat) eqn:S; [discriminate|].
    destruct (find u pat) eqn:Fu; [discriminate|].
    simpl append. rewrite find_unfold. rewrite IH by reflexivity.
    destruct (startsWith (String c (u ++ String d "")) pat) eqn:T;
      [exfalso | reflexivity].
    change (String c (u ++ String d "")) with (String c u ++ String d "") in T.
    destruct (startsWith_app_cases _ _ _ T) as [A | [L B]]; [congruence|].
    apply startsWith_elim in B.
    set (r := drop (String.length (String c u)) pat) in *.
    apply startsWith_elim in T. rewrite B, append_assoc in T at 1.
    apply append_cancel_l in T.
    assert (Lr : String.length pat = String.length (String c u) + String.length r)
      by (rewrite B at 1; apply length_append).
    destruct r as [|x r']; [simpl in Lr, L; lia|].
    simpl in T. injection T as <- _.
    rewrite B, hasChar_app in Hd. simpl in Hd.
    rewrite Ascii.eqb_refl, orb_true_r in Hd. discriminate.
Qed.

Lemma charAt_1 s :
  charAt s 1 = match s with String _ (String b _) => String b "" | _ => "" end.
Proof. destruct s as [|a [|b r]]; reflexivity. Qed.

Lemma charAt_2 s :
  charAt s 2
  = match s with String _ (String _ (String d _)) => String d "" | _ => "" end.
Proof. destruct s as [|a [|b [|d r]]]; reflexivity. Qed.

(** The drive test [uri[1] === ':' && uri[2] === '\\'] behind an appended
    character. *)
Lemma drive_snoc u c :
  String.eqb (charAt (u ++ String c "") 1) ":"
  && String.eqb (charAt (u ++ String c "") 2) "\"
  = String.eqb (charAt u 1) ":" && String.eqb (charAt u 2) "\"
    || (String.length u =? 2)%nat && String.eqb (charAt u 1) ":"
       && Ascii.eqb c "\".
Proof.
  rewrite !charAt_1, !charAt_2.
  destruct u as [|a [|b [|d r]]]; cbn [append String.length Nat.eqb andb].
  - reflexivity.
  - cbn [String.eqb]. now rewrite andb_false_r.
  - cbn [String.eqb Ascii.eqb Bool.eqb andb orb].
    destruct (Ascii.eqb b ":"); cbn [andb orb]; [|reflexivity].
    destruct (Ascii.eqb c "\"); reflexivity.
  - now rewrite orb_false_r.
Qed.

Lemma endsWithArchiveSeparator_sep x m :
  _endsWithArchiveSeparator (x ++ sep m) = false.
Proof.
  destruct (_endsWithArchiveSeparator (x ++ sep m)) eqn:E; [|reflexivity].
  apply endsWithArchiveSeparator_char in E. unfold ARCHIVE_SEPARATOR in E.
  rewrite endsWith_app_same in E by (destruct m; reflexivity).
  destruct m; discriminate.
Qed.

(** The dialect chosen for a location is still chosen when that dialect's
    separator is appended. *)
Lemma pathModuleFor_snoc_sep u m :
  _pathModuleFor u = Ok m -> _pathModuleFor (u ++ sep m) = Ok m.
Proof.
  intros H. unfold _pathModuleFor in *.
  rewrite endsWithArchiveSeparator_sep.
  destruct (_endsWithArchiveSeparator u); [discriminate|].
  cbn [negb invariant bind] in *.
  change (sep posix) with "/" in *. change (sep win32) with "\" in *.
  rewrite !indexOf_0_gt in *.
  destruct (startsWith u "/") eqn:S1.
  { injection H as <-. change (sep posix) with "/".
    now rewrite (startsWith_app_r _ _ _ S1). }
  destruct (find u "://") eqn:F1.
  { injection H as <-. change (sep posix) with "/".
    destruct (startsWith (u ++ "/") "/"); [reflexivity|].
    destruct (find (u ++ "/") "://") eqn:F2; [reflexivity|].
    exfalso. apply (find_app_mono u "/" "://"); [rewrite F1; discriminate|].
    exact F2. }
  destruct m.
  - change (sep posix) with "/".
    destruct (startsWith (u ++ "/") "/"); [reflexivity|].
    destruct (find (u ++ "/") "://"); [reflexivity|].
    rewrite drive_snoc.
    destruct (String.eqb (charAt u 1) ":" && String.eqb (charAt u 2) "\");
      [discriminate|].
    change (Ascii.eqb "/" "\") with false. rewrite andb_false_r. cbn [orb].
    rewrite !split_length_snoc. cbn [Ascii.eqb Bool.eqb andb].
    destruct (List.length (split u "/") <? List.length (split u "\"))%nat eqn:C;
      [discriminate|].
    apply Nat.ltb_ge in C.
    replace (S (List.length (split u "/")) <? List.length (split u "\"))%nat
      with false by (symmetry; apply Nat.ltb_ge; lia).
    reflexivity.
  - change (sep win32) with "\".
    destruct u as [|a u]; [discriminate|].
    simpl append. rewrite startsWith_cons in *. simpl (startsWith _ "") in *.
    rewrite S1.
    change (String a (u ++ "\")) with (String a u ++ "\").
    rewrite (find_snoc_none (String a u) "://" "\")
      by (try discriminate; try reflexivity; exact F1).
    rewrite drive_snoc.
    destruct (String.eqb (charAt (String a u) 1) ":"
              && String.eqb (charAt (String a u) 2) "\"); [reflexivity|].
    cbn [orb].
    destruct ((String.length (String a u) =? 2)%nat
              && String.eqb (charAt (String a u) 1) ":" && Ascii.eqb "\" "\");
      [reflexivity|].
    rewrite !split_length_snoc. cbn [Ascii.eqb Bool.eqb andb].
    destruct (List.length (split (String a u) "/")
              <? List.length (split (String a u) "\"))%nat eqn:C;
      [|discriminate].
    apply Nat.ltb_lt in C.
    replace (List.length (split (String a u) "/")
             <? S (List.length (split (String a u) "\")))%nat
      with true by (symmetry; apply Nat.ltb_lt; lia).
    reflexivity.
Qed.

(** Nor does the appended separator make an Atom URI. *)
Lemma isAtomUri_snoc_sep u m :
  isAtomUri u = false -> _pathModuleFor u = Ok m ->
  endsWith u (sep m) = false -> isAtomUri (u ++ sep m) = false.
Proof.
  intros A P E. unfold isAtomUri in *.
  destruct (startsWith (u ++ sep m) "atom://") eqn:S; [exfalso | reflexivity].
  destruct (startsWith_app_cases _ _ _ S) as [B | [L B]]; [congruence|].
  pose proof (startsWith_length _ _ S) as L2.
  rewrite length_append, length_sep in L2. simpl in L, L2.
  assert (L6 : String.length u = 6) by lia.
  apply startsWith_elim in B.
  assert (U : u = "atom:/").
  { rewrite <- (take_app u (drop (String.length u) "atom://")), <- B, L6.
    reflexivity. }
  subst u. destruct m; [discriminate | discriminate].
Qed.

Lemma testForIllegalUri_snoc_sep u m :
  _testForIllegalUri u = Ok tt -> _pathModuleFor u = Ok m ->
  endsWith u (sep m) = false -> _testForIllegalUri (u ++ sep m) = Ok tt.
Proof.
  intros T P E. apply testForIllegalUri_ok in T as [A _].
  apply testForIllegalUri_ok. split.
  - now apply isAtomUri_snoc_sep.
  - apply endsWithArchiveSeparator_sep.
Qed.

End DialectStable.

(** [ensureTrailingSeparator] of a well-formed location returns a location
    that ends with a separator of its own dialect, and that
    [ensureTrailingSeparator] returns unchanged. *)
Theorem ensureTrailingSeparator_idempotent (uri : string) :
  wellFormed uri = true ->
  exists v, ensureTrailingSeparator uri = Ok v
            /\ endsWithSeparator v = Ok true
            /\ ensureTrailingSeparator v = Ok v.
Proof.
  intros W. destruct (wellFormed_elim uri W) as (T & _ & E & _).
  pose proof (pathModuleFor_ok uri E) as P. set (m := dialectOf uri) in *.
  assert (Q : forall v, _testForIllegalUri v = Ok tt -> _pathModuleFor v = Ok m ->
              JS.endsWith v (sep m) = true ->
              endsWithSeparator v = Ok true /\ ensureTrailingSeparator v = Ok v).
  { intros v Tv Pv Ev. unfold endsWithSeparator, ensureTrailingSeparator.
    rewrite Tv, Pv. cbn [bind]. now rewrite Ev. }
  unfold ensureTrailingSeparator at 1. rewrite T, P. cbn [bind].
  destruct (JS.endsWith uri (sep m)) eqn:S.
  - exists uri. split; [reflexivity|]. now apply Q.
  - exists (uri ++ sep m). split; [reflexivity|]. apply Q.
    + now apply testForIllegalUri_snoc_sep.
    + now apply pathModuleFor_snoc_sep.
    + rewrite endsWith_app_same by reflexivity. apply String.eqb_refl.
Qed.

Lemma ensureTrailingSeparator_idempotent_witness :
  wellFormed "C:\a\lib.zip!src" = true
  /\ ensureTrailingSeparator "C:\a\lib.zip!src" = Ok "C:\a\lib.zip!src\"
  /\ exists v, ensureTrailingSeparator "C:\a\lib.zip!src" = Ok v
               /\ endsWithSeparator v = Ok true
               /\ ensureTrailingSeparator v = Ok v.
Proof.
  split; [reflexivity|]. split; [reflexivity|].
  apply (ensureTrailingSeparator_idempotent "C:\a\lib.zip!src"). reflexivity.
Defined.

(* ================================================================== *)
(** * [collapse] *)
(* ================================================================== *)

Section Collapse.
Import JS JSFacts.

Lemma contains_total parent child :
  wellFormed parent = true -> wellFormed child = true ->
  exists b, contains parent child = Ok b.
Proof.
  intros Wp Wc.
  destruct (wellFormed_elim parent Wp) as (Tp & _ & _ & _).
  destruct (wellFormed_elim child Wc) as (Tc & _ & Ec & _).
  unfold contains. rewrite Tp, Tc. cbn [bind].
  rewrite (endsWithSeparator_ok parent Wp). cbn [bind].
  rewrite (pathModuleFor_ok child Ec). cbn [bind].
  repeat match goal with |- context [if ?c then _ else _] => destruct c end;
    eauto.
Qed.

Lemma collapse_some_false p fps :
  collapse_some p fps = Ok false <-> uncovered p fps.
Proof.
  unfold uncovered. induction fps as [|fp fps IH]; simpl.
  - split; [constructor | reflexivity].
  - split.
    + intros H. destruct (contains fp p) as [c|] eqn:C; [|discriminate].
      cbn [bind] in H.
      destruct (c && negb (String.eqb fp p)) eqn:X; [discriminate|].
      constructor; [eauto | now apply IH].
    + intros H. inversion H as [|? ? (c & C & X) H']; subst.
      rewrite C. cbn [bind]. rewrite X. now apply IH.
Qed.

Lemma uncovered_incl p fps gps :
  incl gps fps -> uncovered p fps -> uncovered p gps.
Proof.
  unfold uncovered. intros I H. rewrite Forall_forall in *.
  intros x Hx. apply H, I, Hx.
Qed.

Lemma collapse_some_total p fps :
  wellFormed p = true -> forallb wellFormed fps = true ->
  exists b, collapse_some p fps = Ok b.
Proof.
  intros Wp. induction fps as [|fp fps IH]; simpl; intros H; [eauto|].
  apply andb_true_iff in H as [Wf H].
  destruct (contains_total fp p Wf Wp) as [c C]. rewrite C. cbn [bind].
  destruct (c && negb (String.eqb fp p)); [eauto | now apply IH].
Qed.

Lemma collapse_filter_total all ps :
  forallb wellFormed all = true -> forallb wellFormed ps = true ->
  exists R, collapse_filter all ps = Ok R
            /\ incl R ps /\ Forall (fun p => uncovered p all) R.
Proof.
  intros Wa. induction ps as [|p ps IH]; simpl; intros H.
  - exists []. repeat split; [apply incl_refl | constructor].
  - apply andb_true_iff in H as [Wp H].
    destruct (IH H) as (R & E & I & U).
    destruct (collapse_some_total p all Wp Wa) as [b B].
    rewrite B, E. cbn [bind]. destruct b.
    + exists R. repeat split; [now apply incl_tl | exact U].
    + exists (p :: R). repeat split.
      * intros x [-> | Hx]; [now left | right; now apply I].
      * constructor; [now apply collapse_some_false | exact U].
Qed.

Lemma collapse_filter_keep all qs :
  Forall (fun p => uncovered p all) qs -> collapse_filter all qs = Ok qs.
Proof.
  induction qs as [|q qs IH]; intros H; [reflexivity|].
  inversion H as [|? ? Hq H']; subst. simpl.
  apply collapse_some_false in Hq. rewrite Hq, (IH H'). reflexivity.
Qed.

End Collapse.

(** [collapse] of well-formed locations returns some of them, and
    collapsing the result again changes nothing. *)
Theorem collapse_idempotent (paths : list string) :
  forallb wellFormed paths = true ->
  exists R, collapse paths = Ok R /\ incl R paths /\ collapse R = Ok R.
Proof.
  intros W. destruct (collapse_filter_total paths paths W W) as (R & E & I & U).
  exists R. split; [exact E|]. split; [exact I|].
  apply collapse_filter_keep. rewrite Forall_forall in *.
  intros p Hp. apply (uncovered_incl p paths R I), U, Hp.
Qed.

Lemma collapse_idempotent_witness :
  collapse ["/a/b/c"; "/a/"; "/c/d/"; "/c/d/e"] = Ok ["/a/"; "/c/d/"]
  /\ exists R, collapse ["/a/b/c"; "/a/"; "/c/d/"; "/c/d/e"] = Ok R
               /\ incl R ["/a/b/c"; "/a/"; "/c/d/"; "/c/d/e"]
               /\ collapse R = Ok R.
Proof.
  split; [reflexivity|].
  apply (collapse_idempotent ["/a/b/c"; "/a/"; "/c/d/"; "/c/d/e"]).
  reflexivity.
Defined.

(** A directory given twice, without and with its trailing separator, is
    dropped altogether: each of the two locations contains the other, so
    [collapse] keeps neither. *)
Theorem collapse_drops_both (p : string) :
  wellFormed p = true -> JS.endsWith p (sep (dialectOf p)) = false ->
  collapse [p; p ++ sep (dialectOf p)] = Ok [].
Proof.
  intros W S. destruct (wellFormed_elim p W) as (T & _ & E & _).
  pose proof (pathModuleFor_ok p E) as P. set (m := dialectOf p) in *.
  set (q := p ++ sep m).
  assert (Tq : _testForIllegalUri q = Ok tt)
    by now apply testForIllegalUri_snoc_sep.
  assert (Pq : _pathModuleFor q = Ok m) by now apply pathModuleFor_snoc_sep.
  assert (Lq : String.length q = String.length p + 1)
    by (unfold q; now rewrite JSFacts.length_append, length_sep).
  assert (Sq : JS.startsWith q p = true) by apply JSFacts.startsWith_app.
  assert (N : String.eqb p q = false) by (apply eqb_length_neq; lia).
  assert (N' : String.eqb q p = false) by (apply eqb_length_neq; lia).
  assert (Cpp : contains p p = Ok true) by now apply contains_refl.
  assert (Cqp : contains q p = Ok true).
  { unfold contains. rewrite T, Tq. cbn [bind].
    replace (String.length p <? String.length q)%nat with true
      by (symmetry; apply Nat.ltb_lt; lia).
    replace (String.length p <? String.length q - 1)%nat with false
      by (symmetry; apply Nat.ltb_ge; lia).
    rewrite Sq. unfold endsWithSeparator. rewrite Tq, Pq. cbn [bind].
    unfold q. rewrite endsWith_app_same by reflexivity.
    now rewrite String.eqb_refl. }
  assert (Cpq : contains p q = Ok true).
  { unfold contains. rewrite T, Tq. cbn [bind].
    replace (String.length q <? String.length p)%nat with false
      by (symmetry; apply Nat.ltb_ge; lia).
    rewrite Sq. cbn [negb]. unfold endsWithSeparator. rewrite T, P.
    cbn [bind]. rewrite S.
    replace (String.length p =? String.length q)%nat with false
      by (symmetry; apply Nat.eqb_neq; lia).
    cbn [orb]. rewrite Pq. cbn [bind]. unfold q at 2.
    rewrite drop_app_length, JSFacts.startsWith_refl.
    now rewrite orb_true_r. }
  unfold collapse. cbn [collapse_filter collapse_some].
  rewrite Cpp, Cqp, Cpq. cbn [bind]. rewrite String.eqb_refl, N, N'.
  reflexivity.
Qed.

Lemma collapse_drops_both_witness :
  wellFormed "/www" = true
  /\ collapse ["/www"; "/www/"] = Ok []
  /\ collapse ["/www"; "/www" ++ sep (dialectOf "/www")] = Ok [].
Proof.
  split; [reflexivity|]. split; [reflexivity|].
  apply (collapse_drops_both "/www"); reflexivity.
Defined.

(* ================================================================== *)
(** * Plain local paths: [dirname], [isRoot], [trimTrailingSeparator], [split] *)
(* ================================================================== *)

Section PlainLocal.
Import JS JSFacts.
Context {node : Node}.

Lemma plainLocal_elim s :
  plainLocal s = true ->
  isRemote s = false /\ isAtomUri s = false
  /\ hasChar "!" s = false /\ hasChar "\" s = false.
Proof.
  unfold plainLocal. intros H.
  repeat (apply andb_true_iff in H as [H ?]).
  repeat split; now apply negb_true_iff.
Qed.

Lemma plainLocal_intro s :
  isRemote s = false -> isAtomUri s = false ->
  hasChar "!" s = false -> hasChar "\" s = false -> plainLocal s = true.
Proof. unfold plainLocal. now intros -> -> -> ->. Qed.

Lemma plainLocal_guards s :
  plainLocal s = true ->
  _testForIllegalUri s = Ok tt /\ _pathModuleFor s = Ok posix
  /\ _endsWithArchiveSeparator s = false.
Proof.
  intros H. destruct (plainLocal_elim s H) as (R & A & B & W).
  pose proof (noBang_not_endsWithArchiveSeparator s B) as E.
  split; [apply testForIllegalUri_ok; now split|].
  split; [now apply pathModuleFor_no_backslash | exact E].
Qed.

Lemma startsWith_take_prefix n s pat :
  startsWith (take n s) pat = true -> startsWith s pat = true.
Proof.
  intros H. rewrite <- (take_drop n s). now apply startsWith_app_r.
Qed.

Lemma plainLocal_take n s : plainLocal s = true -> plainLocal (take n s) = true.
Proof.
  intros H. destruct (plainLocal_elim s H) as (R & A & B & W).
  apply plainLocal_intro.
  - unfold isRemote in *. destruct (startsWith (take n s) _) eqn:S;
      [|reflexivity].
    apply startsWith_take_prefix in S. congruence.
  - unfold isAtomUri in *. destruct (startsWith (take n s) _) eqn:S;
      [|reflexivity].
    apply startsWith_take_prefix in S. congruence.
  - now apply hasChar_take.
  - now apply hasChar_take.
Qed.

Lemma plainLocal_dirname s :
  plainLocal s = true -> plainLocal (Posix.dirname s) = true.
Proof.
  intros H.
  destruct (posix_dirname_cases s) as [-> | [-> | [-> | (n & _ & _ & ->)]]];
    try reflexivity.
  now apply plainLocal_take.
Qed.

Lemma dirname_plain s :
  plainLocal s = true -> dirname s = Ok (Posix.dirname s).
Proof.
  intros H. destruct (plainLocal_guards s H) as (T & P & _).
  destruct (plainLocal_elim s H) as (R & _ & B & _).
  destruct (plainLocal_elim _ (plainLocal_dirname s H)) as (_ & _ & Bd & _).
  unfold dirname. rewrite T, P, R. cbn [bind path_dirname].
  rewrite (archiveEncode_plain posix s B).
  now rewrite (archiveDecode_plain posix _ Bd).
Qed.

(** The paths [Posix.dirname] leaves unchanged. *)
Lemma posix_dirname_fixpoint s :
  Posix.dirname s = s <-> s = "/" \/ s = ".".
Proof.
  split; [|intros [-> | ->]; reflexivity].
  intros F.
  destruct (posix_dirname_cases s) as [E | [E | [E | (n & _ & L & E)]]];
    rewrite F in E; auto.
  - subst s. discriminate.
  - apply (f_equal String.length) in E. rewrite length_take in E. lia.
Qed.

Lemma isRoot_plain s :
  plainLocal s = true ->
  isRoot s = Ok (String.eqb s "/" || String.eqb s ".").
Proof.
  intros H. destruct (plainLocal_guards s H) as (T & _).
  unfold isRoot. rewrite T, (dirname_plain s H). cbn [bind]. f_equal.
  destruct (String.eqb_spec (Posix.dirname s) s) as [F | F].
  - apply posix_dirname_fixpoint in F as [-> | ->]; reflexivity.
  - destruct (String.eqb_spec s "/") as [-> | N1]; [now contradiction F|].
    destruct (String.eqb_spec s ".") as [-> | N2]; [now contradiction F|].
    reflexivity.
Qed.

Lemma slashes_snoc n : slashes n ++ "/" = slashes (S n).
Proof. induction n as [|n IH]; [reflexivity|]. simpl. now rewrite IH. Qed.

Lemma trimTrailingSeparator_loop_plain turns stripped :
  plainLocal stripped = true -> String.length stripped <= turns ->
  exists t n, trimTrailingSeparator_loop turns posix stripped = Ok t
              /\ stripped = t ++ slashes n
              /\ (endsWith t "/" = false \/ t = "/").
Proof.
  revert stripped; induction turns as [|turns IH]; intros stripped H L.
  - assert (stripped = "") as -> by (apply length_0_nil; lia).
    exists "", 0. now auto.
  - cbn [trimTrailingSeparator_loop]. change (sep posix) with "/".
    destruct (endsWith stripped "/") eqn:E.
    + rewrite (isRoot_plain stripped H). cbn [bind].
      destruct (String.eqb_spec stripped "/") as [-> | N].
      * exists "/", 0. auto.
      * cbn [orb].
        destruct (String.eqb_spec stripped ".") as [-> | _]; [discriminate|].
        pose proof (endsWith_elim _ _ E) as Sx. simpl (String.length "/") in *.
        unfold dropRight.
        set (s' := take (String.length stripped - 1) stripped) in *.
        assert (Ls : String.length stripped = String.length s' + 1)
          by (rewrite Sx at 1; now rewrite length_append).
        destruct (IH s') as (t & n & Et & Es & Ee);
          [now apply plainLocal_take | lia|].
        exists t, (S n). split; [exact Et|]. split; [|exact Ee].
        rewrite Sx, Es, append_assoc. now rewrite slashes_snoc.
    + exists stripped, 0. rewrite append_nil_r. auto.
Qed.

Lemma includes_take n s pat :
  includes s pat = false -> includes (take n s) pat = false.
Proof.
  unfold includes. intros H. destruct (find (take n s) pat) eqn:F;
    [|reflexivity].
  exfalso. pose proof (find_app_mono (take n s) (drop n s) pat) as M.
  rewrite take_drop, F in M.
  destruct (find s pat); [discriminate|]. apply M; [discriminate | reflexivity].
Qed.

Lemma includes_dirname s :
  includes s "://" = false -> includes (Posix.dirname s) "://" = false.
Proof.
  intros H.
  destruct (posix_dirname_cases s) as [-> | [-> | [-> | (n & _ & _ & ->)]]];
    try reflexivity.
  now apply includes_take.
Qed.

Lemma basename_plain s :
  plainLocal s = true -> includes s "://" = false ->
  exists b, basename s "" = Ok b.
Proof.
  intros H I. destruct (plainLocal_guards s H) as (T & P & E).
  destruct (plainLocal_elim s H) as (R & _).
  unfold basename, getPath, parse. rewrite T, P. cbn [bind].
  unfold isRemote in R. rewrite R, indexOf_0. unfold includes in I.
  destruct (find s "://"); [discriminate|]. rewrite E. cbn. eauto.
Qed.

(** The loop of [split] ends within [length + 2] turns, at a path that is
    its own directory. *)
Lemma split_loop_plain bound :
  forall current turns parts,
    String.length current < bound ->
    plainLocal current = true -> includes current "://" = false ->
    String.length current + 2 <= turns ->
    exists parent parts',
      split_loop turns current (Posix.dirname current) parts
      = Some (Ok (parent, parts'))
      /\ (startsWith current "/" = true -> parent = "/").
Proof.
  induction bound as [|bound IH]; [intros; lia|].
  intros current turns parts B H I L.
  assert (Stop : forall t p ps,
            Posix.dirname p = p ->
            split_loop t p (Posix.dirname p) ps = Some (Ok (p, ps))).
  { intros t p ps F. rewrite F. destruct t; simpl; now rewrite String.eqb_refl. }
  assert (Abs : forall p, Posix.dirname p = p -> startsWith p "/" = true ->
                          p = "/").
  { intros p F A. apply posix_dirname_fixpoint in F as [-> | ->];
      [reflexivity | discriminate]. }
  destruct (String.eqb_spec current (Posix.dirname current)) as [F | F].
  { symmetry in F. rewrite (Stop turns current parts F). eauto. }
  destruct turns as [|t]; [lia|]. cbn [split_loop].
  apply String.eqb_neq in F. rewrite F.
  destruct (basename_plain current H I) as [b ->].
  pose proof (plainLocal_dirname current H) as Hd.
  pose proof (includes_dirname current I) as Id.
  rewrite (dirname_plain _ Hd).
  set (d := Posix.dirname current) in *.
  assert (Ad : startsWith current "/" = true -> startsWith d "/" = true)
    by apply posix_dirname_absolute.
  destruct (posix_dirname_cases current)
    as [E | [E | [E | (n & N0 & N1 & E)]]]; fold d in E.
  - rewrite E in *. rewrite (Stop t "." _ eq_refl).
    do 2 eexists. split; [reflexivity|]. intros A. now apply Ad in A.
  - rewrite E in *. rewrite (Stop t "/" _ eq_refl). eauto.
  - rewrite E in *. destruct t as [|t]; [lia|]. cbn [split_loop].
    change (String.eqb "//" (Posix.dirname "//")) with false. cbv iota.
    destruct (basename_plain "//" eq_refl eq_refl) as [b2 ->].
    change (Posix.dirname "//") with "/".
    rewrite (dirname_plain "/" eq_refl).
    rewrite (Stop t "/" _ eq_refl). eauto.
  - destruct (IH d t (parts ++ [b])%list) as (parent & parts' & Ep & Ap); auto.
    + rewrite E, length_take. lia.
    + rewrite E, length_take. lia.
    + exists parent, parts'. split; [exact Ep|]. intros A. auto.
Qed.

End PlainLocal.

(** [isRoot] is true exactly on [/] and [.] among the local locations
    without archive separator and backslash, and exactly on the path [/]
    among the remote locations [nuclide://h] followed by a path without
    archive separator. *)
Theorem isRoot_characterized {node : Node} :
  (forall s, plainLocal s = true ->
             isRoot s = Ok (String.eqb s "/" || String.eqb s "."))
  /\ (forall h x, h <> "" -> JS.hasChar "/" h = false ->
                  JS.startsWith x "/" = true -> JS.hasChar "!" x = false ->
                  isRoot ("nuclide://" ++ h ++ x) = Ok (String.eqb x "/")).
Proof.
  split; [apply isRoot_plain|].
  intros h x Nh Fh Ax Bx.
  pose proof (noBang_not_endsWithArchiveSeparator x Bx) as Ex.
  pose proof (remote_not_trailing h x Ax Ex) as Er.
  pose proof (parse_createRemoteUri h x Nh Fh Ax Er) as Pr.
  set (r := "nuclide://" ++ h ++ x) in *.
  assert (R : isRemote r = true) by reflexivity.
  assert (T : _testForIllegalUri r = Ok tt).
  { apply testForIllegalUri_ok. split; [|exact Er].
    destruct (isAtomUri r) eqn:A; [|reflexivity].
    apply isAtomUri_not_remote in A. congruence. }
  unfold isRoot, dirname, parseRemoteUri.
  rewrite T, (pathModuleFor_remote r R Er), R, Pr.
  cbn [bind negb hostname path remote_hostname remote_path path_dirname].
  replace (String.eqb h "") with false by (symmetry; now apply String.eqb_neq).
  cbn [negb invariant bind remote_hostname remote_path].
  rewrite (archiveEncode_plain posix x Bx).
  assert (Bd : JS.hasChar "!" (Posix.dirname x) = false).
  { destruct (posix_dirname_cases x) as [-> | [-> | [-> | (n & _ & _ & ->)]]];
      try reflexivity.
    now apply JSFacts.hasChar_take. }
  rewrite (archiveDecode_plain posix _ Bd).
  pose proof (posix_dirname_absolute x Ax) as Ad.
  unfold createRemoteUri.
  replace (String.eqb (Posix.dirname x) "") with false
    by (destruct (Posix.dirname x); [discriminate | reflexivity]).
  cbn [negb invariant bind]. f_equal. unfold r.
  change ("nuclide://" ++ h ++ Posix.dirname x)
    with ("nuclide://" ++ (h ++ Posix.dirname x)).
  change ("nuclide://" ++ h ++ x) with ("nuclide://" ++ (h ++ x)).
  rewrite !eqb_app_l.
  destruct (String.eqb_spec (Posix.dirname x) x) as [F | F].
  - apply posix_dirname_fixpoint in F as [-> | ->]; [reflexivity | discriminate].
  - destruct (String.eqb_spec x "/") as [-> | _]; [now contradiction F|].
    reflexivity.
Qed.

Lemma isRoot_characterized_witness :
  plainLocal "." = true
  /\ forall node : Node,
       isRoot "." = Ok true /\ isRoot "/" = Ok true /\ isRoot "/a" = Ok false
       /\ isRoot "nuclide://host/" = Ok true
       /\ isRoot "." = Ok (String.eqb "." "/" || String.eqb "." ".")
       /\ isRoot ("nuclide://" ++ "host" ++ "/a") = Ok (String.eqb "/a" "/").
Proof.
  split; [reflexivity|]. intros node.
  do 4 (split; [reflexivity|]).
  destruct (@isRoot_characterized node) as [L R].
  split; [apply (L "."); reflexivity|].
  apply (R "host" "/a"); [discriminate | reflexivity | reflexivity | reflexivity].
Defined.

(** For a local location without archive separator and backslash,
    [trimTrailingSeparator] removes the trailing separators, all of them
    unless the location consists of separators only: then [/] is left. *)
Theorem trimTrailingSeparator_plainLocal {node : Node} (s : string) :
  plainLocal s = true ->
  exists t n, trimTrailingSeparator s = Ok t
              /\ s = t ++ slashes n
              /\ (JS.endsWith t "/" = false \/ t = "/").
Proof.
  intros H. destruct (plainLocal_guards s H) as (T & P & _).
  unfold trimTrailingSeparator. rewrite T, P. cbn [bind].
  now apply trimTrailingSeparator_loop_plain.
Qed.

Lemma trimTrailingSeparator_plainLocal_witness :
  plainLocal "/a/b//" = true
  /\ forall node : Node,
       trimTrailingSeparator "/a/b//" = Ok "/a/b"
       /\ trimTrailingSeparator "///" = Ok "/"
       /\ exists t n, trimTrailingSeparator "/a/b//" = Ok t
                      /\ "/a/b//" = t ++ slashes n
                      /\ (JS.endsWith t "/" = false \/ t = "/").
Proof.
  split; [reflexivity|]. intros node. split; [reflexivity|].
  split; [reflexivity|].
  apply (@trimTrailingSeparator_plainLocal node "/a/b//"). reflexivity.
Defined.

(** For a local location without archive separator, backslash and [://],
    the loop of [split] ends within [length + 2] turns and [split] returns
    a list; for an absolute location the list starts with the root [/]. *)
Theorem split_plainLocal {node : Node} (s : string) (turns : nat) :
  plainLocal s = true -> JS.includes s "://" = false ->
  String.length s + 2 <= turns ->
  exists parts, split turns s = Some (Ok parts)
                /\ (JS.startsWith s "/" = true ->
                    exists rest, parts = "/" :: rest).
Proof.
  intros H I L. destruct (plainLocal_guards s H) as (T & P & _).
  destruct (plainLocal_elim s H) as (R & _).
  unfold split. rewrite (dirname_plain s H).
  destruct (split_loop_plain (S (String.length s)) s turns [] (Nat.lt_succ_diag_r _)
              H I L) as (parent & parts & E & A).
  rewrite E. unfold isAbsolute. rewrite T, R, P. cbn [bind path_isAbsolute].
  unfold Posix.isAbsolute.
  destruct (JS.startsWith s "/") eqn:S.
  - rewrite (A eq_refl), rev_app_distr. simpl. eauto.
  - eexists. split; [reflexivity | discriminate].
Qed.

Lemma split_plainLocal_witness :
  plainLocal "/a/b" = true
  /\ forall node : Node,
       split 6 "/a/b"
       = Some (Ok ["/"; _archiveDecode posix (posix_basename "/a" "");
                   _archiveDecode posix (posix_basename "/a/b" "")])
       /\ exists parts, split 6 "/a/b" = Some (Ok parts)
                        /\ (JS.startsWith "/a/b" "/" = true ->
                            exists rest, parts = "/" :: rest).
Proof.
  split; [reflexivity|]. intros node. split; [reflexivity|].
  apply (@split_plainLocal node "/a/b" 6); [reflexivity | reflexivity|].
  simpl. lia.
Defined.

(** For a local location without archive separator and backslash,
    [ensureLocalPrefix] refuses an absolute path and gives a relative one the
    prefix [./], once: the result is returned unchanged by a second call. *)
Theorem ensureLocalPrefix_plainLocal {node : Node} (s : string) :
  plainLocal s = true ->
  (JS.startsWith s "/" = true -> ensureLocalPrefix s = Err WrongKind)
  /\ (JS.startsWith s "/" = false ->
      exists v, ensureLocalPrefix s = Ok v
                /\ JS.startsWith v "./" = true
                /\ (v = s \/ v = "./" ++ s)
                /\ ensureLocalPrefix v = Ok v).
Proof.
  intros H.
  assert (Q : forall v, plainLocal v = true ->
              ensureLocalPrefix v
              = if JS.startsWith v "/" then Err WrongKind
                else if JS.startsWith v "./" then Ok v else Ok ("./" ++ v)).
  { intros v Hv. destruct (plainLocal_guards v Hv) as (T & P & _).
    destruct (plainLocal_elim v Hv) as (R & _).
    unfold ensureLocalPrefix, isAbsolute. rewrite T, P, R.
    cbn [bind negb invariant path_isAbsolute]. unfold Posix.isAbsolute.
    destruct (JS.startsWith v "/"); reflexivity. }
  rewrite (Q s H). split; intros A; rewrite A; [reflexivity|].
  destruct (JS.startsWith s "./") eqn:D.
  - exists s. rewrite (Q s H), A, D. auto.
  - exists ("./" ++ s).
    assert (Hv : plainLocal ("./" ++ s) = true).
    { destruct (plainLocal_elim s H) as (_ & _ & B & W).
      apply plainLocal_intro; try reflexivity; simpl; assumption. }
    rewrite (Q _ Hv). auto.
Qed.

Lemma ensureLocalPrefix_plainLocal_witness :
  plainLocal "a/b" = true
  /\ forall node : Node,
       ensureLocalPrefix "a/b" = Ok "./a/b"
       /\ ensureLocalPrefix "/a/b" = Err WrongKind
       /\ ((JS.startsWith "a/b" "/" = true ->
            ensureLocalPrefix "a/b" = Err WrongKind)
           /\ (JS.startsWith "a/b" "/" = false ->
               exists v, ensureLocalPrefix "a/b" = Ok v
                         /\ JS.startsWith v "./" = true
                         /\ (v = "a/b" \/ v = "./" ++ "a/b")
                         /\ ensureLocalPrefix v = Ok v)).
Proof.
  split; [reflexivity|]. intros node. split; [reflexivity|].
  split; [reflexivity|].
  apply (@ensureLocalPrefix_plainLocal node "a/b"). reflexivity.
Defined.

(** A local location that starts with [/] stays absolute under [normalize],
    [dirname], [resolve] and [join]: each returns a location for which
    [isAbsolute] is true. *)
Theorem absolute_stays_absolute {node : Node} (s : string) (paths : list string) :
  JS.startsWith s "/" = true -> _endsWithArchiveSeparator s = false ->
  (exists r, normalize s = Ok r /\ isAbsolute r = Ok true)
  /\ (exists r, dirname s = Ok r /\ isAbsolute r = Ok true)
  /\ (exists r, resolve s paths = Ok r /\ isAbsolute r = Ok true)
  /\ (exists r, join s paths = Ok r /\ isAbsolute r = Ok true).
Proof.
  intros A E. destruct (absolute_not_scheme s A) as [R At].
  assert (T : _testForIllegalUri s = Ok tt)
    by (apply testForIllegalUri_ok; now split).
  pose proof (pathModuleFor_absolute s A E) as P.
  assert (Q : forall x, JS.startsWith x "/" = true ->
              isAbsolute (_archiveDecode posix x) = Ok true).
  { intros x Ax. pose proof (archiveDecode_absolute posix x Ax) as Ar.
    pose proof (archiveDecode_not_trailing posix x) as Er.
    destruct (absolute_not_scheme _ Ar) as [Rr Atr].
    unfold isAbsolute.
    replace (_testForIllegalUri (_archiveDecode posix x)) with (Ok tt)
      by (symmetry; apply testForIllegalUri_ok; now split).
    rewrite Rr, (pathModuleFor_absolute _ Ar Er).
    cbn [bind path_isAbsolute]. unfold Posix.isAbsolute. now rewrite Ar. }
  pose proof (archiveEncode_absolute posix s A) as Ae.
  repeat split.
  - unfold normalize. rewrite T, P, R. cbn [bind path_normalize].
    eexists. split; [reflexivity|]. apply Q.
    now apply posix_normalize_absolute.
  - unfold dirname. rewrite T, P, R. cbn [bind path_dirname].
    eexists. split; [reflexivity|]. apply Q.
    now apply posix_dirname_absolute.
  - unfold resolve. rewrite T, P, R.
    cbn [bind path_resolve _archiveEncodeArrayInPlace map].
    eexists. split; [reflexivity|]. apply Q.
    now apply posix_resolve_absolute.
  - unfold join. rewrite T, P, R.
    cbn [bind path_join _archiveEncodeArrayInPlace map].
    eexists. split; [reflexivity|]. apply Q.
    now apply posix_join_absolute.
Qed.

Lemma absolute_stays_absolute_witness :
  JS.startsWith "/a/lib.zip!x/../.." "/" = true
  /\ forall node : Node,
    normalize "/a/lib.zip!x/../.." = Ok "/a"
    /\ join "/a" [".."; ".."; "b"] = Ok "/b"
    /\ (exists r, normalize "/a/lib.zip!x/../.." = Ok r /\ isAbsolute r = Ok true)
    /\ (exists r, dirname "/a/lib.zip!x/../.." = Ok r /\ isAbsolute r = Ok true)
    /\ (exists r, resolve "/a/lib.zip!x/../.." [".."; "b"] = Ok r
                  /\ isAbsolute r = Ok true)
    /\ (exists r, join "/a/lib.zip!x/../.." [".."; "b"] = Ok r
                  /\ isAbsolute r = Ok true).
Proof.
  split; [reflexivity|].
  intros node. split; [reflexivity|]. split; [reflexivity|].
  apply (@absolute_stays_absolute node "/a/lib.zip!x/../.." [".."; "b"]);
    reflexivity.
Defined.

(* ================================================================== *)
(** * Joining what was split *)
(* ================================================================== *)

Section JoinSplit.
Import JS JSFacts.

Lemma join_split_char c s :
  join (split s (String c "")) (String c "") = s.
Proof.
  induction s as [|a s IH]; [reflexivity|].
  pose proof (split_nonempty s (String c "")) as N.
  destruct (Ascii.eqb a c) eqn:E.
  - apply Ascii.eqb_eq in E. subst a. rewrite split_cons_sep.
    destruct (split s (String c "")) as [|x xs] eqn:S; [contradiction|].
    rewrite join_cons2, IH. reflexivity.
  - unfold split in *. cbn [split_go]. rewrite startsWith_cons, E.
    cbn [andb].
    destruct (split_go (String c "") 0 s) as [|x xs]; [contradiction|].
    destruct xs as [|y ys].
    + unfold join in *. simpl in *. now rewrite IH.
    + rewrite join_cons2 in *.
      change (String a (x ++ String c "" ++ join (y :: ys) (String c ""))
              = String a s).
      now rewrite IH.
Qed.

End JoinSplit.

(** A list of local POSIX paths in one string (no backslash, no [!], no
    remote prefix) is split by [splitPathList] into parts that
    [joinPathList] joins to the same string. *)
Theorem joinPathList_splitPathList (s : string) :
  JS.hasChar "\" s = false -> JS.hasChar "!" s = false ->
  JS.includes s REMOTE_PATH_URI_PREFIX = false ->
  exists parts, splitPathList s = Ok parts /\ joinPathList parts = Ok s.
Proof.
  intros W B I.
  pose proof (noBang_not_endsWithArchiveSeparator s B) as E.
  unfold splitPathList. rewrite JSFacts.indexOf_0_lt0.
  unfold JS.includes in I.
  destruct (JS.find s REMOTE_PATH_URI_PREFIX); [discriminate|].
  rewrite (pathModuleFor_no_backslash s W E). cbn [invariant bind delimiter].
  eexists. split; [reflexivity|].
  pose proof (split_nonempty s ":") as N.
  pose proof (split_segments_free ":" s) as F.
  pose proof (split_nochar "\" ":" s W) as Fw.
  pose proof (split_nochar "!" ":" s B) as Fb.
  pose proof (join_split_char ":" s) as J.
  destruct (JS.split s ":") as [|first rest] eqn:S; [contradiction|].
  unfold joinPathList.
  assert (R : forallb (fun path => negb (isRemote path)) (first :: rest) = true).
  { apply forallb_forall. intros x Hx.
    rewrite forallb_forall in F. specialize (F x Hx).
    apply negb_true_iff in F. apply negb_true_iff.
    destruct (isRemote x) eqn:Rx; [|reflexivity].
    rewrite (startsWith_hasChar ":" x _ Rx eq_refl) in F. discriminate. }
  rewrite R. cbn [invariant bind].
  simpl in Fw, Fb. apply andb_true_iff in Fw as [Fw _].
  apply andb_true_iff in Fb as [Fb _].
  apply negb_true_iff in Fw, Fb.
  rewrite (pathModuleFor_no_backslash first Fw
             (noBang_not_endsWithArchiveSeparator first Fb)).
  cbn [bind delimiter]. now rewrite J.
Qed.

Lemma joinPathList_splitPathList_witness :
  splitPathList "/usr/bin::/opt/x" = Ok ["/usr/bin"; ""; "/opt/x"]
  /\ exists parts, splitPathList "/usr/bin::/opt/x" = Ok parts
                   /\ joinPathList parts = Ok "/usr/bin::/opt/x".
Proof.
  split; [reflexivity|].
  apply (joinPathList_splitPathList "/usr/bin::/opt/x"); reflexivity.
Defined.

(* ================================================================== *)
(** * URIs from and for Atom *)
(* ================================================================== *)

Section AtomUris.
Import JS JSFacts.

(** What the two passes of [_escapeSpecialCharacters] make of one
    character. *)
Lemma escape_cons c s :
  _escapeSpecialCharacters (String c s)
  = (if Ascii.eqb c "%" then "%25"
     else if Ascii.eqb c "\" then "%5C" else String c "")
    ++ _escapeSpecialCharacters s.
Proof.
  unfold _escapeSpecialCharacters. cbn [replaceAllChar].
  destruct (Ascii.eqb c "%") eqn:P.
  - reflexivity.
  - cbn [replaceAllChar]. destruct (Ascii.eqb c "\"); reflexivity.
Qed.

Lemma escape_injective a : forall b,
  _escapeSpecialCharacters a = _escapeSpecialCharacters b -> a = b.
Proof.
  induction a as [|c a IH]; intros [|d b] H.
  - reflexivity.
  - rewrite escape_cons in H.
    destruct (Ascii.eqb d "%"), (Ascii.eqb d "\"); discriminate.
  - rewrite escape_cons in H.
    destruct (Ascii.eqb c "%"), (Ascii.eqb c "\"); discriminate.
  - rewrite !escape_cons in H.
    destruct (Ascii.eqb c "%") eqn:Cp; destruct (Ascii.eqb d "%") eqn:Dp.
    + apply Ascii.eqb_eq in Cp, Dp. subst. simpl in H.
      injection H as H. f_equal. now apply IH.
    + destruct (Ascii.eqb d "\") eqn:Dw; simpl in H.
      * discriminate.
      * injection H as E _. subst d. discriminate.
    + destruct (Ascii.eqb c "\") eqn:Cw; simpl in H.
      * discriminate.
      * injection H as E _. subst c. discriminate.
    + destruct (Ascii.eqb c "\") eqn:Cw; destruct (Ascii.eqb d "\") eqn:Dw;
        simpl in H.
      * apply Ascii.eqb_eq in Cw, Dw. subst. injection H as H.
        f_equal. now apply IH.
      * injection H as E _. subst d. discriminate.
      * injection H as E _. subst c. discriminate.
      * injection H as E H. subst d. f_equal. now apply IH.
Qed.

Lemma pathModuleFor_win32 p :
  _pathModuleFor p = Ok win32 ->
  _testForIllegalUri p = Ok tt /\ isRemote p = false /\ p <> "".
Proof.
  intros H. unfold _pathModuleFor in H.
  destruct (_endsWithArchiveSeparator p) eqn:E; [discriminate|].
  cbn [negb invariant bind] in H.
  destruct (startsWith p (sep posix)); [discriminate|].
  rewrite indexOf_0_gt in H.
  destruct (find p "://") eqn:F; [discriminate|].
  assert (N : forall pat, startsWith pat "://" = true \/
                          (exists pre, pat = pre ++ "://") ->
                          startsWith p pat = false).
  { intros pat Hp. destruct (startsWith p pat) eqn:S; [exfalso | reflexivity].
    apply startsWith_elim in S.
    destruct Hp as [Hp | [pre ->]].
    - apply (find_app_hit "" p "://"); [|exact F].
      rewrite S. now apply startsWith_app_r.
    - apply (find_app_hit pre (drop (String.length pre) p) "://").
      + rewrite S at 1. rewrite append_assoc, drop_app. reflexivity.
      + rewrite <- (take_drop (String.length pre) p) in F.
        rewrite S in F at 1. rewrite append_assoc, take_app in F. exact F. }
  split; [|split].
  - apply testForIllegalUri_ok. split; [|exact E].
    apply N. right. now exists "atom".
  - apply N. right. now exists "nuclide".
  - intros ->. discriminate.
Qed.

Lemma find_none_drop s pat k :
  pat <> "" -> find s pat = None -> startsWith (drop k s) pat = false.
Proof.
  intros Np. revert k; induction s as [|c s IH]; intros k F.
  - destruct k; simpl; destruct pat; try contradiction; reflexivity.
  - rewrite find_unfold in F.
    destruct (startsWith (String c s) pat) eqn:S; [discriminate|].
    destruct k as [|k]; [exact S|]. simpl. apply IH.
    destruct (find s pat); [discriminate | reflexivity].
Qed.

Lemma matchesBroken_false s :
  (forall k, brokenPrefix (drop k s) = false) -> matchesBroken s = false.
Proof.
  induction s as [|c s IH]; intros H.
  - pose proof (H 0) as H0. cbn [drop] in H0. cbn [matchesBroken].
    now rewrite H0.
  - pose proof (H 0) as H0. cbn [drop] in H0. cbn [matchesBroken].
    rewrite H0. cbn [orb]. apply IH.
    intros k. apply (H (S k)).
Qed.

Lemma matchesBroken_prefix s : brokenPrefix s = true -> matchesBroken s = true.
Proof. intros H. destruct s; cbn [matchesBroken]; now rewrite H. Qed.

End AtomUris.

(** [_escapeSpecialCharacters] loses nothing: two strings with the same
    escaped form are the same string. *)
Theorem escapeSpecialCharacters_injective (a b : string) :
  _escapeSpecialCharacters a = _escapeSpecialCharacters b -> a = b.
Proof. apply escape_injective. Qed.

Lemma escapeSpecialCharacters_injective_witness :
  _escapeSpecialCharacters "50%\x" = "50%25%5Cx"
  /\ "50%\x" = "50%\x".
Proof.
  split; [reflexivity|].
  apply (escapeSpecialCharacters_injective "50%\x" "50%\x"). reflexivity.
Defined.

(** A local Windows path survives the way to a [file:] URI and back:
    [uriToNuclideUri] returns the path that [nuclideUriToUri] was given,
    whatever [url.parse] does. *)
Theorem uriToNuclideUri_nuclideUriToUri_windows {url : Url} (p : string) :
  _pathModuleFor p = Ok win32 ->
  exists u, nuclideUriToUri p = Ok u /\ uriToNuclideUri u = Ok (Some p).
Proof.
  intros P. destruct (pathModuleFor_win32 p P) as (T & R & N).
  exists ("file://" ++ p). split.
  - unfold nuclideUriToUri. now rewrite T, R.
  - unfold uriToNuclideUri, _getWindowsPathFromWindowsFileUri, _isWindowsPath.
    change (JS.startsWith ("file://" ++ p) "file://") with true.
    change (JS.drop (String.length "file://") ("file://" ++ p)) with p.
    rewrite P. cbn [negb bind PathModule_eqb truthy].
    apply String.eqb_neq in N. now rewrite N.
Qed.

Lemma uriToNuclideUri_nuclideUriToUri_windows_witness :
  _pathModuleFor "C:\a\b.txt" = Ok win32
  /\ nuclideUriToUri "C:\a\b.txt" = Ok "file://C:\a\b.txt"
  /\ forall url : Url,
       uriToNuclideUri "file://C:\a\b.txt" = Ok (Some "C:\a\b.txt")
       /\ exists u, nuclideUriToUri "C:\a\b.txt" = Ok u
                    /\ uriToNuclideUri u = Ok (Some "C:\a\b.txt").
Proof.
  split; [reflexivity|]. split; [reflexivity|]. intros url.
  split; [reflexivity|].
  apply (@uriToNuclideUri_nuclideUriToUri_windows url "C:\a\b.txt").
  reflexivity.
Defined.

(** On a [file://] URI whose path ends with an archive separator
    [uriToNuclideUri] throws instead of returning [null]: the dialect test
    behind [_isWindowsPath] refuses the path. *)
Theorem uriToNuclideUri_archive_separator {url : Url} (p : string) :
  _endsWithArchiveSeparator p = true ->
  uriToNuclideUri ("file://" ++ p) = Err IllegalLocation.
Proof.
  intros E.
  unfold uriToNuclideUri, _getWindowsPathFromWindowsFileUri, _isWindowsPath,
    _pathModuleFor.
  change (JS.startsWith ("file://" ++ p) "file://") with true.
  change (JS.drop (String.length "file://") ("file://" ++ p)) with p.
  now rewrite E.
Qed.

Lemma uriToNuclideUri_archive_separator_witness :
  _endsWithArchiveSeparator "/a/lib.zip!" = true
  /\ forall url : Url,
       uriToNuclideUri ("file://" ++ "/a/lib.zip!") = Err IllegalLocation.
Proof.
  split; [reflexivity|]. intros url.
  apply (@uriToNuclideUri_archive_separator url "/a/lib.zip!"). reflexivity.
Defined.

(** [isBrokenDeserializedUri] recognizes a remote URI that lost one of the
    two slashes behind its scheme, also with the colon turned into an
    underscore and the slash into a backslash; it does not flag the intact
    URI, unless the word [nuclide] occurs again behind the prefix. *)
Theorem isBrokenDeserializedUri_mangled (h x : string) :
  h <> "" -> JS.hasChar "/" h = false ->
  isBrokenDeserializedUri (Some ("nuclide:/" ++ h ++ x)) = true
  /\ isBrokenDeserializedUri (Some ("nuclide_\" ++ h ++ x)) = true
  /\ (JS.includes (h ++ x) "nuclide" = false ->
      isBrokenDeserializedUri (Some ("nuclide://" ++ h ++ x)) = false).
Proof.
  intros N F. destruct h as [|c h]; [contradiction|].
  simpl in F. apply orb_false_iff in F as [F _].
  split; [|split].
  - apply matchesBroken_prefix. unfold brokenPrefix. simpl. now rewrite F.
  - apply matchesBroken_prefix. unfold brokenPrefix. simpl. now rewrite F.
  - intros I. apply matchesBroken_false. intros k.
    do 10 (destruct k as [|k]; [reflexivity|]).
    change (JS.drop (S (S (S (S (S (S (S (S (S (S k))))))))))
              ("nuclide://" ++ String c h ++ x))
      with (JS.drop k (String c h ++ x)).
    unfold brokenPrefix. unfold JS.includes in I.
    rewrite find_none_drop; [reflexivity | discriminate|].
    destruct (JS.find (String c h ++ x) "nuclide"); [discriminate | reflexivity].
Qed.

Lemma isBrokenDeserializedUri_mangled_witness :
  isBrokenDeserializedUri (Some "nuclide:/host/a/b") = true
  /\ isBrokenDeserializedUri (Some "nuclide://host/a/b") = false
  /\ isBrokenDeserializedUri (Some ("nuclide:/" ++ "host" ++ "/a/b")) = true
  /\ isBrokenDeserializedUri (Some ("nuclide_\" ++ "host" ++ "/a/b")) = true
  /\ (JS.includes ("host" ++ "/a/b") "nuclide" = false ->
      isBrokenDeserializedUri (Some ("nuclide://" ++ "host" ++ "/a/b")) = false).
Proof.
  split; [reflexivity|]. split; [reflexivity|].
  apply (isBrokenDeserializedUri_mangled "host" "/a/b");
    [discriminate | reflexivity].
Defined.

(* ================================================================== *)
(** * The formatter registry *)
(* ================================================================== *)

Section Registry.
Variable Formatter : Type.
Variable Formatter_eq_dec : forall a b : Formatter, {a = b} + {a <> b}.

Lemma indexOfFormatter_absent hs f :
  ~ In f hs -> indexOfFormatter Formatter Formatter_eq_dec hs f = None.
Proof.
  induction hs as [|g hs IH]; intros N; [reflexivity|].
  simpl. destruct (Formatter_eq_dec g f) as [-> | _].
  - exfalso. apply N. now left.
  - rewrite IH; [reflexivity|]. intros I. apply N. now right.
Qed.

Lemma indexOfFormatter_present hs f :
  In f hs -> exists i, indexOfFormatter Formatter Formatter_eq_dec hs f = Some i.
Proof.
  induction hs as [|g hs IH]; intros I; [contradiction|].
  simpl. destruct (Formatter_eq_dec g f) as [-> | N]; [eauto|].
  destruct I as [-> | I]; [contradiction|].
  destruct (IH I) as [i ->]. simpl. eauto.
Qed.

Lemma dispose_absent hs f :
  ~ In f hs -> dispose Formatter Formatter_eq_dec f hs = hs.
Proof.
  intros N. unfold dispose.
  now rewrite (indexOfFormatter_absent hs f N).
Qed.

Lemma dispose_snoc_absent hs f :
  ~ In f hs -> dispose Formatter Formatter_eq_dec f (hs ++ [f]) = hs.
Proof.
  unfold dispose.
  induction hs as [|g hs IH]; intros N; simpl.
  - destruct (Formatter_eq_dec f f); [reflexivity | contradiction].
  - destruct (Formatter_eq_dec g f) as [-> | Ng].
    + exfalso. apply N. now left.
    + assert (N' : ~ In f hs) by (intros I; apply N; now right).
      specialize (IH N').
      destruct (indexOfFormatter Formatter Formatter_eq_dec (hs ++ [f]) f)
        as [i|] eqn:E; simpl.
      * now rewrite IH.
      * exfalso. clear IH.
        destruct (indexOfFormatter_present (hs ++ [f]) f) as [i E'];
          [apply in_or_app; right; now left|].
        congruence.
Qed.

Lemma dispose_snoc_present hs f :
  In f hs ->
  dispose Formatter Formatter_eq_dec f (hs ++ [f])
  = (dispose Formatter Formatter_eq_dec f hs ++ [f])%list.
Proof.
  unfold dispose.
  induction hs as [|g hs IH]; intros I; [contradiction|]. simpl.
  destruct (Formatter_eq_dec g f) as [-> | Ng]; [reflexivity|].
  destruct I as [-> | I]; [contradiction|]. specialize (IH I).
  destruct (indexOfFormatter_present hs f I) as [i E].
  rewrite E in *. simpl.
  destruct (indexOfFormatter Formatter Formatter_eq_dec (hs ++ [f]) f)
    as [j|] eqn:E'; simpl; now rewrite IH.
Qed.

End Registry.

(** Registering a formatter that is not in the registry and disposing the
    returned disposable restores the registry; disposing it once more
    changes nothing. *)
Theorem registerHostnameFormatter_dispose (Formatter : Type)
    (Formatter_eq_dec : forall a b : Formatter, {a = b} + {a <> b})
    (hostFormatters : list Formatter) (formatter : Formatter) :
  ~ In formatter hostFormatters ->
  let (registry, disposeIt) :=
    registerHostnameFormatter Formatter Formatter_eq_dec hostFormatters formatter in
  registry = (hostFormatters ++ [formatter])%list
  /\ disposeIt registry = hostFormatters
  /\ disposeIt (disposeIt registry) = hostFormatters.
Proof.
  intros N. unfold registerHostnameFormatter.
  split; [reflexivity|].
  rewrite (dispose_snoc_absent _ _ _ _ N).
  split; [reflexivity|]. now apply dispose_absent.
Qed.

Lemma registerHostnameFormatter_dispose_witness :
  ~ In 7 [3; 5]
  /\ (let (registry, disposeIt) :=
        registerHostnameFormatter nat Nat.eq_dec [3; 5] 7 in
      registry = [3; 5; 7]
      /\ disposeIt registry = [3; 5]
      /\ disposeIt (disposeIt registry) = [3; 5]).
Proof.
  assert (N : ~ In 7 [3; 5]) by (simpl; lia).
  split; [exact N|].
  apply (registerHostnameFormatter_dispose nat Nat.eq_dec [3; 5] 7 N).
Defined.

(** Registering a formatter that is in the registry already and disposing
    the returned disposable removes the earlier registration, not the new
    one: the formatter ends up last. *)
Theorem registerHostnameFormatter_again (Formatter : Type)
    (Formatter_eq_dec : forall a b : Formatter, {a = b} + {a <> b})
    (hostFormatters : list Formatter) (formatter : Formatter) :
  In formatter hostFormatters ->
  let (registry, disposeIt) :=
    registerHostnameFormatter Formatter Formatter_eq_dec hostFormatters formatter in
  disposeIt registry
  = (dispose Formatter Formatter_eq_dec formatter hostFormatters
     ++ [formatter])%list.
Proof.
  intros I. unfold registerHostnameFormatter.
  now apply dispose_snoc_present.
Qed.

Lemma registerHostnameFormatter_again_witness :
  In 3 [3; 5]
  /\ (let (registry, disposeIt) :=
        registerHostnameFormatter nat Nat.eq_dec [3; 5] 3 in
      disposeIt registry = [5; 3])
  /\ (let (registry, disposeIt) :=
        registerHostnameFormatter nat Nat.eq_dec [3; 5] 3 in
      disposeIt registry = (dispose nat Nat.eq_dec 3 [3; 5] ++ [3])%list).
Proof.
  assert (I : In 3 [3; 5]) by (simpl; auto).
  split; [exact I|]. split; [reflexivity|].
  apply (registerHostnameFormatter_again nat Nat.eq_dec [3; 5] 3 I).
Defined.

(* ================================================================== *)
(** * The open-files list *)
(* ================================================================== *)

Section OpenFiles.
Import JS JSFacts OpenFilesList.

Lemma sameLetter_eq a b : sameLetter a b = true <-> a = b.
Proof.
  destruct a as [x|], b as [y|]; simpl; split; intros H;
    try discriminate; try reflexivity.
  - apply Ascii.eqb_eq in H. now subst.
  - injection H as ->. apply Ascii.eqb_refl.
Qed.

Lemma isSameChar_fold dupes letter i acc :
  fold_left
    (fun isSame entry =>
       if isSame && sameLetter (get i (uri entry)) letter then true else false)
    dupes acc
  = acc && forallb (fun e => sameLetter (get i (uri e)) letter) dupes.
Proof.
  revert acc; induction dupes as [|e dupes IH]; intros acc; simpl.
  - now rewrite andb_true_r.
  - rewrite IH. destruct acc, (sameLetter (get i (uri e)) letter); reflexivity.
Qed.

Lemma isSameChar_forallb dupes letter i :
  isSameChar dupes letter i
  = forallb (fun e => sameLetter (get i (uri e)) letter) dupes.
Proof. unfold isSameChar. now rewrite isSameChar_fold. Qed.

(** Where the loop stops: every position before [i] holds the same letter
    in all URIs. *)
Lemma scan_same first dupes remaining i0 j :
  i0 <= j -> j < scan first dupes remaining i0 ->
  isSameChar dupes (get j (uri first)) j = true.
Proof.
  revert i0; induction remaining as [|r IH]; intros i0 L H; simpl in H;
    [lia|].
  destruct (isSameChar dupes (get i0 (uri first)) i0) eqn:E; [|lia].
  destruct (Nat.eq_dec i0 j) as [-> | N]; [exact E|].
  apply (IH (S i0)); [lia | exact H].
Qed.

Lemma take_ext i : forall a b,
  (forall j, j < i -> get j a = get j b) -> take i a = take i b.
Proof.
  induction i as [|i IH]; intros a b H; [reflexivity|].
  pose proof (H 0 (Nat.lt_0_succ _)) as H0.
  destruct a as [|x a], b as [|y b]; simpl in H0; try discriminate;
    [reflexivity|].
  injection H0 as ->. simpl. f_equal. apply IH.
  intros j Hj. apply (H (S j)). lia.
Qed.

(** All URIs of the duplicates start with the same [lastMatchingIndex]
    characters. *)
Lemma lastMatchingIndex_prefix first rest e :
  In e (first :: rest) ->
  take (lastMatchingIndex (first :: rest)) (uri e)
  = take (lastMatchingIndex (first :: rest)) (uri first).
Proof.
  intros I. apply take_ext. intros j Hj. unfold lastMatchingIndex in Hj.
  pose proof (scan_same first (first :: rest) _ 0 j (Nat.le_0_l _) Hj) as S.
  rewrite isSameChar_forallb, forallb_forall in S.
  now apply sameLetter_eq, S.
Qed.

Lemma generateDistinctNames_nth entries duplicateName k e :
  nth_error entries k = Some e ->
  name e = duplicateName -> displayName e = None ->
  let dupes := filter (fun e => String.eqb (name e) duplicateName) entries in
  In e dupes
  /\ nth_error (generateDistinctNames entries duplicateName) k
     = Some {| name := name e; uri := uri e;
               isModified := isModified e; isSelected := isSelected e;
               displayName := Some (drop (lastMatchingIndex dupes) (uri e)) |}.
Proof.
  intros Hk Hn Hd. split.
  - apply filter_In. split; [eapply nth_error_In; eauto|].
    rewrite Hn. apply String.eqb_refl.
  - unfold generateDistinctNames. rewrite nth_error_map, Hk. simpl.
    rewrite Hd, Hn, String.eqb_refl. reflexivity.
Qed.

End OpenFiles.

(** The entries of the given name that have no display name yet get their
    URI without a prefix that all entries of that name share; name, URI and
    flags are kept. *)
Theorem generateDistinctNames_prefix
    (entries : list OpenFilesList.OpenFileEntry) (duplicateName : string) :
  exists prefix,
    forall k e,
      nth_error entries k = Some e ->
      OpenFilesList.name e = duplicateName ->
      OpenFilesList.displayName e = None ->
      exists e' d,
        nth_error (OpenFilesList.generateDistinctNames entries duplicateName) k
        = Some e'
        /\ OpenFilesList.name e' = OpenFilesList.name e
        /\ OpenFilesList.uri e' = OpenFilesList.uri e
        /\ OpenFilesList.displayName e' = Some d
        /\ OpenFilesList.uri e = prefix ++ d.
Proof.
  set (dupes := filter (fun e => String.eqb (OpenFilesList.name e) duplicateName)
                       entries).
  destruct dupes as [|first rest] eqn:D.
  - exists "". intros k e Hk Hn Hd.
    destruct (generateDistinctNames_nth entries duplicateName k e Hk Hn Hd)
      as [I _].
    fold dupes in I. rewrite D in I. contradiction.
  - exists (JS.take (OpenFilesList.lastMatchingIndex (first :: rest))
              (OpenFilesList.uri first)).
    intros k e Hk Hn Hd.
    destruct (generateDistinctNames_nth entries duplicateName k e Hk Hn Hd)
      as [I E].
    fold dupes in I, E. rewrite D in I, E.
    do 2 eexists. split; [exact E|]. repeat split.
    rewrite <- (lastMatchingIndex_prefix first rest e I).
    symmetry. apply JSFacts.take_drop.
Qed.

(** Two entries of the given name with different URIs and no display name
    yet get different display names. *)
Theorem generateDistinctNames_distinct
    (entries : list OpenFilesList.OpenFileEntry) (duplicateName : string)
    (j k : nat) (e1 e2 : OpenFilesList.OpenFileEntry) :
  nth_error entries j = Some e1 -> nth_error entries k = Some e2 ->
  OpenFilesList.name e1 = duplicateName ->
  OpenFilesList.name e2 = duplicateName ->
  OpenFilesList.displayName e1 = None ->
  OpenFilesList.displayName e2 = None ->
  OpenFilesList.uri e1 <> OpenFilesList.uri e2 ->
  exists e1' e2',
    nth_error (OpenFilesList.generateDistinctNames entries duplicateName) j
    = Some e1'
    /\ nth_error (OpenFilesList.generateDistinctNames entries duplicateName) k
       = Some e2'
    /\ OpenFilesList.displayName e1' <> None
    /\ OpenFilesList.displayName e1' <> OpenFilesList.displayName e2'.
Proof.
  intros H1 H2 N1 N2 D1 D2 U.
  destruct (generateDistinctNames_nth entries duplicateName j e1 H1 N1 D1)
    as [I1 E1].
  destruct (generateDistinctNames_nth entries duplicateName k e2 H2 N2 D2)
    as [I2 E2].
  set (dupes := filter (fun e => String.eqb (OpenFilesList.name e) duplicateName)
                       entries) in *.
  do 2 eexists. split; [exact E1|]. split; [exact E2|].
  split; [discriminate|]. simpl. intros F. injection F as F. apply U.
  destruct dupes as [|first rest] eqn:D; [contradiction|].
  rewrite <- (JSFacts.take_drop (OpenFilesList.lastMatchingIndex (first :: rest))
                (OpenFilesList.uri e1)).
  rewrite <- (JSFacts.take_drop (OpenFilesList.lastMatchingIndex (first :: rest))
                (OpenFilesList.uri e2)).
  rewrite F.
  rewrite (lastMatchingIndex_prefix first rest e1 I1).
  now rewrite (lastMatchingIndex_prefix first rest e2 I2).
Qed.

(** After one call every entry has a display name, so a second call, for
    whatever name, changes nothing: of several duplicated names only the
    first one handled is told apart. *)
Theorem generateDistinctNames_absorbs
    (entries : list OpenFilesList.OpenFileEntry) (first second : string) :
  OpenFilesList.generateDistinctNames
    (OpenFilesList.generateDistinctNames entries first) second
  = OpenFilesList.generateDistinctNames entries first.
Proof.
  unfold OpenFilesList.generateDistinctNames at 1 2. cbv zeta.
  rewrite map_map. apply map_ext. intros e. reflexivity.
Qed.

Lemma generateDistinctNames_distinct_witness :
  map OpenFilesList.displayName
      (OpenFilesList.generateDistinctNames
         [OpenFilesList.Build_OpenFileEntry "x.js" "/a/x.js" false false None;
          OpenFilesList.Build_OpenFileEntry "y.js" "/a/y.js" false false None;
          OpenFilesList.Build_OpenFileEntry "x.js" "/b/x.js" false true None]
         "x.js")
  = [Some "a/x.js"; Some "y.js"; Some "b/x.js"]
  /\ exists e1' e2',
       nth_error
         (OpenFilesList.generateDistinctNames
            [OpenFilesList.Build_OpenFileEntry "x.js" "/a/x.js" false false None;
             OpenFilesList.Build_OpenFileEntry "y.js" "/a/y.js" false false None;
             OpenFilesList.Build_OpenFileEntry "x.js" "/b/x.js" false true None]
            "x.js") 0
       = Some e1'
       /\ nth_error
            (OpenFilesList.generateDistinctNames
               [OpenFilesList.Build_OpenFileEntry "x.js" "/a/x.js" false false None;
                OpenFilesList.Build_OpenFileEntry "y.js" "/a/y.js" false false None;
                OpenFilesList.Build_OpenFileEntry "x.js" "/b/x.js" false true None]
               "x.js") 2
          = Some e2'
       /\ OpenFilesList.displayName e1' <> None
       /\ OpenFilesList.displayName e1' <> OpenFilesList.displayName e2'.
Proof.
  split; [reflexivity|].
  apply (generateDistinctNames_distinct
           [OpenFilesList.Build_OpenFileEntry "x.js" "/a/x.js" false false None;
            OpenFilesList.Build_OpenFileEntry "y.js" "/a/y.js" false false None;
            OpenFilesList.Build_OpenFileEntry "x.js" "/b/x.js" false true None]
           "x.js" 0 2
           (OpenFilesList.Build_OpenFileEntry "x.js" "/a/x.js" false false None)
           (OpenFilesList.Build_OpenFileEntry "x.js" "/b/x.js" false true None));
    try reflexivity.
  discriminate.
Defined.

(** For an absolute local location without archive separator and backslash,
    the location that [dirname] returns contains it. *)
Theorem dirname_contains {node : Node} (p : string) :
  plainLocal p = true -> JS.startsWith p "/" = true ->
  exists d, dirname p = Ok d /\ contains d p = Ok true.
Proof.
  intros H A. exists (Posix.dirname p). split; [now apply dirname_plain|].
  pose proof (plainLocal_dirname p H) as Hd.
  destruct (plainLocal_guards p H) as (T & P & _).
  destruct (plainLocal_guards _ Hd) as (Td & Pd & _).
  pose proof (posix_dirname_absolute p A) as Ad.
  assert (Q : forall d, _testForIllegalUri d = Ok tt -> _pathModuleFor d = Ok posix ->
              String.length d < String.length p -> JS.startsWith p d = true ->
              JS.endsWith d "/" = true
              \/ JS.startsWith (JS.drop (String.length d) p) "/" = true ->
              contains d p = Ok true).
  { intros d Td' Pd' L S B. unfold contains, endsWithSeparator.
    rewrite Td', T, Pd'. cbn [bind].
    replace (String.length p <? String.length d)%nat with false
      by (symmetry; apply Nat.ltb_ge; lia).
    rewrite S. cbn [negb sep].
    destruct (JS.endsWith d "/"); [reflexivity|].
    replace (String.length d =? String.length p)%nat with false
      by (symmetry; apply Nat.eqb_neq; lia).
    cbn [orb]. rewrite P. cbn [bind sep].
    destruct B as [B | B]; [discriminate|]. now rewrite B, orb_true_r. }
  destruct (posix_dirname_shape p)
    as [E | [E | [[E S] | (n & N0 & N1 & E & S)]]]; rewrite E in *.
  - discriminate.
  - destruct (String.eqb_spec p "/") as [-> | N]; [reflexivity|].
    apply Q; auto.
    pose proof (startsWith_length _ _ A) as L. simpl in L.
    destruct (Nat.eq_dec (String.length p) 1) as [L1 | L1]; [|simpl; lia].
    exfalso. apply N. now apply startsWith_same_length.
  - destruct (String.eqb_spec p "//") as [-> | N]; [reflexivity|].
    apply Q; auto.
    pose proof (startsWith_length _ _ S) as L. simpl in L.
    destruct (Nat.eq_dec (String.length p) 2) as [L2 | L2]; [|simpl; lia].
    exfalso. apply N. now apply startsWith_same_length.
  - apply Q; auto.
    + rewrite length_take. lia.
    + rewrite <- (JSFacts.take_drop n p) at 1. apply JSFacts.startsWith_app.
    + right. rewrite length_take.
      now replace (Nat.min n (String.length p)) with n by lia.
Qed.

Lemma dirname_contains_witness :
  plainLocal "/a/b.txt" = true
  /\ forall node : Node,
       dirname "/a/b.txt" = Ok "/a"
       /\ contains "/a" "/a/b.txt" = Ok true
       /\ exists d, dirname "/a/b.txt" = Ok d /\ contains d "/a/b.txt" = Ok true.
Proof.
  split; [reflexivity|]. intros node. split; [reflexivity|].
  split; [reflexivity|].
  apply (@dirname_contains node "/a/b.txt"); reflexivity.
Defined.

(* ================================================================== *)
(** * [getParent] and [dirname] *)
(* ================================================================== *)

Section GetParent.
Import JS JSFacts.
Context {node : Node}.

Lemma split_app_name c s x :
  hasChar c x = false ->
  split (s ++ String c x) (String c "")
  = (split s (String c "") ++ [x])%list.
Proof.
  intros H. induction s as [|a s IH].
  - simpl append. rewrite split_cons_sep, (split_plain c x H). reflexivity.
  - simpl append. destruct (Ascii.eqb a c) eqn:E.
    + apply Ascii.eqb_eq in E. subst a. rewrite !split_cons_sep, IH.
      reflexivity.
    + unfold split in *. cbn [split_go]. rewrite !startsWith_cons, E.
      cbn [andb]. rewrite IH.
      pose proof (split_nonempty s (String c "")) as N. unfold split in N.
      destruct (split_go (String c "") 0 s); [contradiction | reflexivity].
Qed.

Lemma join_snoc l x :
  l <> [] -> join (l ++ [x]) "/" = join l "/" ++ "/" ++ x.
Proof.
  induction l as [|a l IH]; [congruence|]. intros _.
  destruct l as [|b l]; [reflexivity|].
  change ((a :: b :: l) ++ [x])%list with (a :: b :: (l ++ [x]))%list.
  rewrite !join_cons2.
  change (b :: (l ++ [x]))%list with ((b :: l) ++ [x])%list.
  rewrite IH by discriminate. now rewrite !append_assoc.
Qed.

Lemma normalStack_names st : NormalStack false st -> forallb isName st = true.
Proof.
  induction 1 as [n [-> | F] | seg st Hs _ IH];
    [reflexivity | discriminate|].
  simpl. now rewrite Hs.
Qed.

Lemma posix_dirname_root_child x :
  isName x = true -> Posix.dirname ("/" ++ x) = "/".
Proof.
  intros H. apply isName_elim in H as (N & _ & _ & F).
  apply String.eqb_neq in N.
  simpl append. unfold Posix.dirname.
  pose proof (noSlash_forallb x F) as Fl. rewrite <- forallb_rev in Fl.
  destruct (rev (list_ascii_of_string x)) as [|y ys] eqn:E.
  - exfalso. apply N. apply (f_equal (@rev ascii)) in E.
    rewrite rev_involutive in E. simpl in E.
    rewrite <- (string_of_list_ascii_of_string x), E. reflexivity.
  - pose proof Fl as Fl'. simpl in Fl'. apply andb_true_iff in Fl' as [Fy _].
    cbn [Posix.dropWhile].
    replace (Posix.isSlash y) with false
      by (destruct (Posix.isSlash y); [discriminate | reflexivity]).
    rewrite <- (app_nil_r (y :: ys)), (dropWhile_all _ _ _ Fl). reflexivity.
Qed.

Lemma getParent_dirname_plain s :
  plainLocal s = true -> startsWith s "/" = true ->
  Posix.normalize s = s -> endsWith s "/" = false ->
  Posix.normalize (s ++ "/..") = Posix.dirname s.
Proof.
  intros H A F T.
  assert (Ns : s <> "") by (intros ->; discriminate).
  pose proof (normalize_render s Ns) as R. unfold Posix.isAbsolute in R.
  rewrite A, T, F in R. cbn [negb] in R.
  pose proof (segments_normal s false) as NS.
  unfold Posix.segments in *. rewrite rev_involutive in NS.
  set (st := fold_left (Posix.step false) (split s "/") []) in *.
  assert (R2 : Posix.normalize (s ++ "/..")
               = render true false (rev (Posix.step false st ".."))).
  { rewrite normalize_render by (destruct s; discriminate).
    unfold Posix.isAbsolute. rewrite (startsWith_app_r _ _ _ A).
    rewrite (endsWith_app_nonempty s "/.." "/") by discriminate.
    change (endsWith "/.." "/") with false. cbn [negb].
    unfold Posix.segments.
    rewrite (split_app_name "/" s ".." eq_refl), fold_left_app.
    reflexivity. }
  rewrite R2. pose proof (normalStack_names st NS) as Names.
  destruct st as [|x st'].
  - simpl in R. subst s. reflexivity.
  - simpl in Names. apply andb_true_iff in Names as [Nx Nst].
    pose proof (isName_elim x Nx) as (X1 & X2 & X3 & X4).
    unfold Posix.step. cbn [String.eqb Ascii.eqb Bool.eqb andb orb].
    rewrite X3. unfold render in R |- *. cbn [negb andb] in R |- *.
    rewrite !andb_false_r in R |- *. cbv iota in R |- *. simpl rev in R.
    destruct (rev st') as [|y ys] eqn:E.
    + cbn [app] in R. change (join [x] "/") with x in R.
      rewrite R. now rewrite posix_dirname_root_child.
    + rewrite join_snoc in R by discriminate.
      rewrite R. rewrite <- append_assoc.
      rewrite posix_dirname_child; [reflexivity | discriminate | |
        now apply String.eqb_neq | exact X4].
      intros Q.
      change ("/" ++ join (y :: ys) "/")
        with (String "/" (join (y :: ys) "/")) in Q.
      injection Q as Q.
      rewrite <- forallb_rev, E in Nst. cbn [forallb] in Nst.
      apply andb_true_iff in Nst as [Ny _].
      apply isName_elim in Ny as (Y1 & _).
      apply String.eqb_neq in Y1.
      apply (join_nonempty y ys Y1). exact Q.
Qed.

End GetParent.

(** For an absolute local location without archive separator and backslash
    that [normalize] returns unchanged and that is [/] or does not end with
    [/], [getParent] and [dirname] return the same location. *)
Theorem getParent_dirname {node : Node} (s : string) :
  plainLocal s = true -> JS.startsWith s "/" = true ->
  normalize s = Ok s -> s = "/" \/ JS.endsWith s "/" = false ->
  exists d, getParent s = Ok d /\ dirname s = Ok d.
Proof.
  intros H A F T. exists (Posix.dirname s).
  split; [|now apply dirname_plain].
  destruct (plainLocal_guards s H) as (Ts & Ps & _).
  destruct (plainLocal_elim s H) as (R & _ & B & W).
  rewrite (normalize_local_plain s R Ts Ps B) in F. injection F as F.
  assert (G : forall x, JS.startsWith x "/" = true -> JS.hasChar "!" x = false ->
              normalize (Posix.normalize x) = Ok (Posix.normalize x)).
  { intros x Ax Bx.
    pose proof (posix_normalize_absolute x Ax) as An.
    pose proof (posix_normalize_nochar "!" x eq_refl eq_refl Bx) as Bn.
    destruct (absolute_not_scheme _ An) as [Rn Atn].
    pose proof (noBang_not_endsWithArchiveSeparator _ Bn) as En.
    rewrite normalize_local_plain;
      [now rewrite posix_normalize_idempotent | exact Rn | | | exact Bn].
    - apply testForIllegalUri_ok. now split.
    - now apply pathModuleFor_absolute. }
  assert (J : join s [".."] = Ok (Posix.normalize (s ++ "/.."))).
  { unfold join. rewrite Ts, Ps, R.
    cbn [bind path_join _archiveEncodeArrayInPlace map].
    rewrite (archiveEncode_plain posix s B).
    rewrite (archiveEncode_plain posix ".." eq_refl).
    unfold Posix.join. cbn [filter].
    replace (String.eqb s "") with false
      by (destruct s; [discriminate | reflexivity]).
    cbn [negb String.eqb Ascii.eqb Bool.eqb andb].
    rewrite join_cons2.
    rewrite archiveDecode_plain; [reflexivity|].
    apply posix_normalize_nochar; try reflexivity.
    rewrite !JSFacts.hasChar_app, B. reflexivity. }
  unfold getParent. rewrite J. cbn [bind].
  rewrite G;
    [|now apply startsWith_app_r
     |rewrite JSFacts.hasChar_app, B; reflexivity].
  f_equal. destruct T as [-> | T]; [reflexivity|].
  now apply getParent_dirname_plain.
Qed.

Lemma getParent_dirname_witness :
  plainLocal "/a/b" = true
  /\ forall node : Node,
       getParent "/a/b" = Ok "/a" /\ dirname "/a/b" = Ok "/a"
       /\ exists d, getParent "/a/b" = Ok d /\ dirname "/a/b" = Ok d.
Proof.
  split; [reflexivity|]. intros node. split; [reflexivity|].
  split; [reflexivity|].
  apply (@getParent_dirname node "/a/b"); try reflexivity.
  now right.
Defined.

(* ================================================================== *)
(** * A child joined to a normalized parent *)
(* ================================================================== *)

Section JoinedChild.
Import JS JSFacts.

(** ** Replacing in a string that is extended on the right *)

Lemma append_cancel_r a b c : a ++ c = b ++ c -> a = b.
Proof.
  intros E.
  assert (L : String.length a = String.length b).
  { apply (f_equal String.length) in E. rewrite !length_append in E. lia. }
  rewrite <- (take_app a c), E, L. apply take_app.
Qed.

Lemma endsWith_cons_keep c s q :
  endsWith s q = true -> endsWith (String c s) q = true.
Proof.
  intros H. apply endsWith_elim in H. rewrite H.
  change (String c (?a ++ q)) with (String c a ++ q).
  rewrite endsWith_app_same by reflexivity. apply String.eqb_refl.
Qed.

Lemma replace_nil pat rep : pat <> "" -> replace "" pat rep = "".
Proof. destruct pat; [congruence | reflexivity]. Qed.

(** A pattern that ends with [/] is not completed by a suffix without [/]. *)
Lemma replace_snoc_noslash a w q :
  hasChar "/" w = false ->
  replace (a ++ w) (q ++ "/") q = replace a (q ++ "/") q ++ w.
Proof.
  intros W. induction a as [|c a IH].
  - rewrite replace_nil by (destruct q; discriminate). simpl append.
    apply replace_absent. intros k.
    destruct (startsWith (drop k w) (q ++ "/")) eqn:S1; [|reflexivity].
    apply (startsWith_hasChar "/") in S1;
      [|now rewrite hasChar_app, orb_true_r].
    rewrite hasChar_drop in S1 by exact W. discriminate.
  - destruct (startsWith (String c a) (q ++ "/")) eqn:S1.
    + rewrite (replace_hit (String c a)) by exact S1.
      rewrite replace_hit by now apply startsWith_app_r.
      rewrite drop_app_le by now apply startsWith_length.
      now rewrite append_assoc.
    + rewrite (replace_miss c a) by exact S1.
      assert (S2 : startsWith (String c a ++ w) (q ++ "/") = false).
      { destruct (startsWith (String c a ++ w) (q ++ "/")) eqn:S2; [|reflexivity].
        exfalso.
        destruct (startsWith_app_cases _ _ _ S2) as [S3 | (Lt & S3)];
          [congruence|].
        apply startsWith_elim in S3. apply startsWith_elim in S2.
        set (r := drop (String.length (String c a)) (q ++ "/")) in *.
        rewrite S3, !append_assoc in S2. apply append_cancel_l in S2.
        assert (Nr : r <> "").
        { intros Er. apply (f_equal String.length) in S3.
          rewrite Er, append_nil_r in S3. lia. }
        assert (Er : endsWith r "/" = true).
        { rewrite <- (endsWith_app_nonempty (String c a) r "/") by exact Nr.
          rewrite <- S3. apply endsWith_snoc. }
        assert (Hr : hasChar "/" r = true).
        { destruct (hasChar "/" r) eqn:Hr; [reflexivity|].
          rewrite (endsWith_nochar r "/") in Er by assumption. discriminate. }
        rewrite S2, hasChar_app, Hr in W. discriminate. }
      change (String c a ++ w) with (String c (a ++ w)) in *.
      rewrite (replace_miss c (a ++ w)) by exact S2.
      rewrite IH. reflexivity.
Qed.

(** Appending [/] completes the pattern only when the string ends with the
    rest of it and holds no earlier occurrence. *)
Lemma replace_snoc_slash n q :
  q <> "" -> hasChar "/" q = false ->
  replace (n ++ "/") (q ++ "/") q = replace n (q ++ "/") q ++ "/"
  \/ (endsWith n q = true /\ replace n (q ++ "/") q = n
      /\ replace (n ++ "/") (q ++ "/") q = n).
Proof.
  intros Nq Fq. induction n as [|c n IH].
  - left. rewrite replace_nil by (destruct q; discriminate). simpl append.
    destruct q as [|d q]; [congruence|].
    simpl in Fq. apply orb_false_iff in Fq as [Fd _].
    rewrite replace_miss
      by (change (String d q ++ "/") with (String d (q ++ "/"));
          now rewrite startsWith_cons, Ascii.eqb_sym, Fd).
    now rewrite replace_nil by discriminate.
  - destruct (startsWith (String c n) (q ++ "/")) eqn:S1.
    + left. rewrite (replace_hit (String c n)) by exact S1.
      rewrite replace_hit by now apply startsWith_app_r.
      rewrite drop_app_le by now apply startsWith_length.
      now rewrite append_assoc.
    + rewrite (replace_miss c n) by exact S1.
      destruct (startsWith (String c n ++ "/") (q ++ "/")) eqn:S2.
      * right.
        destruct (startsWith_app_cases _ _ _ S2) as [S3 | (Lt & S3)];
          [congruence|].
        pose proof (startsWith_elim _ _ S3) as E3.
        pose proof (startsWith_elim _ _ S2) as E2.
        set (r := drop (String.length (String c n)) (q ++ "/")) in *.
        set (t := drop (String.length (q ++ "/")) (String c n ++ "/")) in *.
        rewrite E3, !append_assoc in E2. apply append_cancel_l in E2.
        assert (Nr : r <> "").
        { intros Er. apply (f_equal String.length) in E3.
          rewrite Er, append_nil_r in E3. lia. }
        assert (Er : r = "/").
        { destruct r as [|d [|d' r]]; [congruence | |];
            simpl in E2; now inversion E2. }
        rewrite Er in E3. apply append_cancel_r in E3.
        rewrite <- E3.
        split; [apply (endsWith_drop 0); [lia | reflexivity]|].
        split.
        -- rewrite <- (replace_miss c n) by exact S1. rewrite <- E3.
           apply replace_absent. intros k.
           destruct (startsWith (drop k q) (q ++ "/")) eqn:S4; [|reflexivity].
           apply startsWith_length in S4.
           rewrite length_drop, length_append in S4. simpl in S4. lia.
        -- rewrite <- (append_nil_r (q ++ "/")) at 1.
           rewrite replace_app_hit. apply append_nil_r.
      * change (String c n ++ "/") with (String c (n ++ "/")) in *.
        rewrite (replace_miss c (n ++ "/")) by exact S2.
        destruct IH as [IH | (I1 & I2 & I3)].
        -- left. now rewrite IH.
        -- right. split; [now apply endsWith_cons_keep|].
           now rewrite I2, I3.
Qed.

(** ** [Posix.normalize] of a path extended by a name *)

Lemma posix_normalize_child e :
  e <> "" -> Posix.normalize e <> "." -> Posix.normalize e <> "./" ->
  exists n0,
    (Posix.normalize e = n0 /\ endsWith n0 "/" = false
     \/ Posix.normalize e = n0 ++ "/")
    /\ Posix.normalize (e ++ "/x") = n0 ++ "/x".
Proof.
  intros Ne N1 N2.
  pose proof (normalize_render e Ne) as R.
  assert (R2 : Posix.normalize (e ++ "/x")
               = render (Posix.isAbsolute e) false
                   (Posix.segments e (negb (Posix.isAbsolute e)) ++ ["x"])).
  { rewrite normalize_render by (destruct e; discriminate).
    unfold Posix.isAbsolute.
    assert (A : startsWith (e ++ "/x") "/" = startsWith e "/")
      by (destruct e; [congruence | reflexivity]).
    rewrite A.
    rewrite (endsWith_app_nonempty e "/x" "/") by discriminate.
    change (endsWith "/x" "/") with false.
    unfold Posix.segments.
    rewrite (split_app_name "/" e "x" eq_refl), fold_left_app.
    cbn [fold_left]. rewrite step_name by reflexivity. reflexivity. }
  pose proof (segments_normal e (negb (Posix.isAbsolute e))) as NS.
  apply normal_segOk in NS. rewrite forallb_rev in NS.
  set (segs := Posix.segments e (negb (Posix.isAbsolute e))) in *.
  set (isAbs := Posix.isAbsolute e) in *. set (tr := endsWith e "/") in *.
  rewrite R in *. rewrite R2. clearbody segs isAbs tr.
  destruct segs as [|x xs].
  - destruct isAbs.
    + exists "". split; [right|]; destruct tr; reflexivity.
    + exfalso. destruct tr; [apply N2 | apply N1]; reflexivity.
  - assert (J : join (x :: xs) "/" <> "").
    { apply join_nonempty. simpl in NS. apply andb_true_iff in NS as [Hx _].
      apply andb_true_iff in Hx as [Hx _]. apply negb_true_iff in Hx.
      now apply String.eqb_neq. }
    apply String.eqb_neq in J.
    exists ((if isAbs then "/" else "") ++ join (x :: xs) "/"). split.
    + unfold render. cbv zeta. rewrite J. cbn [andb negb]. rewrite J.
      cbn [andb negb]. destruct tr.
      * right. destruct isAbs; [now rewrite append_assoc | reflexivity].
      * left. split; [destruct isAbs; reflexivity|].
        apply join_not_trailing; [discriminate | exact NS].
    + unfold render. cbv zeta. rewrite andb_false_r.
      rewrite (join_snoc (x :: xs) "x") by discriminate.
      assert (Q : String.eqb (join (x :: xs) "/" ++ "/" ++ "x") "" = false).
      { apply String.eqb_neq. intros E. apply (f_equal String.length) in E.
        rewrite !length_append in E. simpl in E. lia. }
      rewrite Q. cbn [andb]. destruct isAbs; now rewrite ?append_assoc.
Qed.

(** ** Counting archive separators *)

Lemma countChar_app c a b :
  countChar c (a ++ b) = countChar c a + countChar c b.
Proof. induction a as [|x a IH]; simpl; [reflexivity | rewrite IH; lia]. Qed.

Lemma countChar_replace c s pat rep :
  countChar c pat = countChar c rep ->
  countChar c (replace s pat rep) = countChar c s.
Proof.
  intros E. induction s as [|a s IH].
  - destruct (startsWith "" pat) eqn:S1.
    + rewrite replace_hit by exact S1. destruct pat; [|discriminate].
      simpl in E. rewrite countChar_app, <- E. reflexivity.
    + simpl. now rewrite S1.
  - destruct (startsWith (String a s) pat) eqn:S1.
    + rewrite replace_hit by exact S1. apply startsWith_elim in S1.
      rewrite S1 at 2. now rewrite !countChar_app, E.
    + rewrite replace_miss by exact S1. simpl. now rewrite IH.
Qed.

Lemma countChar_join segs :
  countChar "!" (join segs "/") = list_sum (map (countChar "!") segs).
Proof.
  induction segs as [|x [|y ys] IH]; [reflexivity | simpl; lia |].
  rewrite join_cons2, !countChar_app, IH. reflexivity.
Qed.

Lemma countChar_split s :
  list_sum (map (countChar "!") (split s "/")) = countChar "!" s.
Proof.
  induction s as [|a s IH]; [reflexivity|].
  destruct (Ascii.eqb a "/") eqn:E.
  - apply Ascii.eqb_eq in E. subst a. rewrite split_cons_sep. simpl.
    exact IH.
  - unfold split in *. cbn [split_go]. rewrite startsWith_cons, E.
    cbn [andb].
    pose proof (split_nonempty s "/") as N. unfold split in N.
    destruct (split_go "/" 0 s) as [|x xs]; [contradiction|].
    simpl in IH |- *. lia.
Qed.

Lemma countChar_step allow st seg :
  list_sum (map (countChar "!") (Posix.step allow st seg))
  <= list_sum (map (countChar "!") st) + countChar "!" seg.
Proof.
  unfold Posix.step.
  destruct (String.eqb seg "" || String.eqb seg "."); [lia|].
  destruct (String.eqb seg ".."); [|simpl; lia].
  destruct st as [|top rest]; [destruct allow; simpl; lia|].
  destruct (String.eqb top ".."); [destruct allow|]; simpl; lia.
Qed.

Lemma countChar_fold allow segs st :
  list_sum (map (countChar "!") (fold_left (Posix.step allow) segs st))
  <= list_sum (map (countChar "!") st) + list_sum (map (countChar "!") segs).
Proof.
  revert st; induction segs as [|x xs IH]; intros st; simpl; [lia|].
  specialize (IH (Posix.step allow st x)).
  pose proof (countChar_step allow st x). lia.
Qed.

Lemma list_sum_rev l : list_sum (rev l) = list_sum l.
Proof.
  induction l as [|x l IH]; [reflexivity|].
  simpl. rewrite list_sum_app, IH. simpl. lia.
Qed.

(** [Posix.normalize] adds no archive separator. *)
Lemma countChar_normalize e :
  countChar "!" (Posix.normalize e) <= countChar "!" e.
Proof.
  destruct (String.eqb e "") eqn:E0.
  - apply String.eqb_eq in E0. subst e. simpl. lia.
  - apply String.eqb_neq in E0. rewrite normalize_render by exact E0.
    set (segs := Posix.segments e (negb (Posix.isAbsolute e))).
    assert (C : countChar "!" (render (Posix.isAbsolute e) (endsWith e "/") segs)
                = countChar "!" (join segs "/")).
    { unfold render. cbv zeta.
      destruct (String.eqb (join segs "/") "") eqn:J.
      - apply String.eqb_eq in J. rewrite J.
        destruct (Posix.isAbsolute e), (endsWith e "/"); reflexivity.
      - cbn [andb negb]. rewrite J. cbn [andb negb].
        destruct (Posix.isAbsolute e), (endsWith e "/");
          rewrite ?countChar_app; simpl; lia. }
    rewrite C, countChar_join. subst segs. unfold Posix.segments.
    rewrite map_rev, list_sum_rev.
    pose proof (countChar_fold (negb (Posix.isAbsolute e)) (split e "/") []) as F.
    rewrite countChar_split in F. simpl in F. exact F.
Qed.

Lemma countChar_archiveEncode p :
  countChar "!" (_archiveEncode posix p) = countChar "!" p.
Proof.
  rewrite archiveEncode_unfold. destruct (hasChar "!" p); [|reflexivity].
  now rewrite !countChar_replace by reflexivity.
Qed.

(** A path that [normalize] returns unchanged was not cut by the decoder:
    cutting removes an archive separator, and nothing before adds one. *)
Lemma decode_untrimmed p :
  _archiveDecode posix (Posix.normalize (_archiveEncode posix p)) = p ->
  hasChar "!" (Posix.normalize (_archiveEncode posix p)) = true ->
  _endsWithArchiveSeparator
    (replace (replace (Posix.normalize (_archiveEncode posix p))
                (".jar!" ++ "/") ".jar!") (".zip!" ++ "/") ".zip!") = false.
Proof.
  intros D B. set (n := Posix.normalize (_archiveEncode posix p)) in *.
  set (r := replace (replace n (".jar!" ++ "/") ".jar!") (".zip!" ++ "/") ".zip!").
  destruct (_endsWithArchiveSeparator r) eqn:E; [|reflexivity]. exfalso.
  rewrite archiveDecode_unfold, B in D. change (sep posix) with "/" in D.
  fold r in D. unfold _trimArchiveSuffix in D. rewrite E in D.
  apply endsWithArchiveSeparator_char in E. apply endsWith_elim in E.
  change (String.length ARCHIVE_SEPARATOR) with 1 in *.
  rewrite D in E. apply (f_equal (countChar "!")) in E.
  rewrite countChar_app in E. simpl in E.
  assert (Cr : countChar "!" r = countChar "!" n)
    by (unfold r; now rewrite !countChar_replace by reflexivity).
  pose proof (countChar_normalize (_archiveEncode posix p)) as Cn.
  fold n in Cn. rewrite countChar_archiveEncode in Cn. lia.
Qed.

(** ** Decoding the joined child *)

Lemma endsWithArchiveSeparator_x m :
  _endsWithArchiveSeparator (m ++ "x") = false.
Proof.
  destruct (_endsWithArchiveSeparator (m ++ "x")) eqn:E; [|reflexivity].
  apply endsWithArchiveSeparator_char in E. unfold ARCHIVE_SEPARATOR in E.
  rewrite endsWith_app_same in E by reflexivity. discriminate.
Qed.

Lemma archiveDecode_snoc_x m :
  _archiveDecode posix (m ++ "x")
  = (if hasChar "!" m
     then replace (replace m (".jar!" ++ "/") ".jar!") (".zip!" ++ "/") ".zip!"
     else m) ++ "x".
Proof.
  rewrite archiveDecode_unfold, hasChar_app.
  change (hasChar "!" "x") with false. rewrite orb_false_r.
  destruct (hasChar "!" m); [|reflexivity]. change (sep posix) with "/".
  rewrite (replace_snoc_noslash m "x" ".jar!") by reflexivity.
  rewrite (replace_snoc_noslash _ "x" ".zip!") by reflexivity.
  unfold _trimArchiveSuffix. now rewrite endsWithArchiveSeparator_x.
Qed.

Lemma endsWithArchiveSeparator_boundary y :
  endsWith y ".jar!" = true \/ endsWith y ".zip!" = true ->
  _endsWithArchiveSeparator y = true.
Proof.
  intros [H|H]; apply endsWith_elim in H; rewrite H;
    set (a := take _ y).
  - change (a ++ ".jar!") with (a ++ ".jar" ++ "!").
    rewrite <- append_assoc. apply endsWithArchiveSeparator_archive.
    unfold hasKnownArchiveExtension, KNOWN_ARCHIVE_EXTENSIONS. cbn [existsb].
    now rewrite endsWith_app_same by reflexivity.
  - change (a ++ ".zip!") with (a ++ ".zip" ++ "!").
    rewrite <- append_assoc. apply endsWithArchiveSeparator_archive.
    unfold hasKnownArchiveExtension, KNOWN_ARCHIVE_EXTENSIONS. cbn [existsb].
    rewrite (endsWith_app_same a ".zip" ".zip") by reflexivity.
    apply orb_true_r.
Qed.

(** The separator appended to a path is taken by the decoder only when the
    decoded path ends with an archive separator. *)
Lemma decode_replaces_snoc_slash n0 :
  replace (replace (n0 ++ "/") (".jar!" ++ "/") ".jar!") (".zip!" ++ "/") ".zip!"
  = replace (replace n0 (".jar!" ++ "/") ".jar!") (".zip!" ++ "/") ".zip!" ++ "/"
  \/ (replace (replace (n0 ++ "/") (".jar!" ++ "/") ".jar!")
        (".zip!" ++ "/") ".zip!"
      = replace (replace n0 (".jar!" ++ "/") ".jar!") (".zip!" ++ "/") ".zip!"
      /\ _endsWithArchiveSeparator
           (replace (replace n0 (".jar!" ++ "/") ".jar!")
              (".zip!" ++ "/") ".zip!") = true).
Proof.
  destruct (replace_snoc_slash n0 ".jar!") as [A | (A1 & A2 & A3)];
    [discriminate | reflexivity | |].
  - rewrite A.
    destruct (replace_snoc_slash (replace n0 (".jar!" ++ "/") ".jar!") ".zip!")
      as [B | (B1 & B2 & B3)]; [discriminate | reflexivity | |].
    + left. exact B.
    + right. rewrite B3, B2. split; [reflexivity|].
      apply endsWithArchiveSeparator_boundary. now right.
  - right. rewrite A3, A2. split; [reflexivity|].
    apply endsWithArchiveSeparator_boundary. left.
    apply endsWith_elim in A1. rewrite A1.
    rewrite (replace_snoc_noslash _ ".jar!" ".zip!") by reflexivity.
    now rewrite endsWith_app_same by reflexivity.
Qed.

Lemma string_snoc s : s <> "" -> exists a d, s = a ++ String d "".
Proof.
  induction s as [|c s IH]; [congruence|]. intros _.
  destruct s as [|c' s'].
  - exists "", c. reflexivity.
  - destruct IH as (a & d & E); [discriminate|].
    exists (String c a), d. simpl. now rewrite <- E.
Qed.

Lemma decode_replaces_last n0 :
  endsWith n0 "/" = false ->
  endsWith (replace (replace n0 (".jar!" ++ "/") ".jar!") (".zip!" ++ "/") ".zip!")
    "/" = false.
Proof.
  intros T. destruct n0 as [|c n0]; [reflexivity|].
  destruct (string_snoc (String c n0)) as (a & d & E); [discriminate|].
  rewrite E in *. rewrite endsWith_app_same in T by reflexivity.
  assert (F : hasChar "/" (String d "") = false).
  { cbn [hasChar]. rewrite orb_false_r.
    destruct (Ascii.eqb d "/") eqn:Ed; [|reflexivity].
    apply Ascii.eqb_eq in Ed. subst d. discriminate. }
  rewrite (replace_snoc_noslash a _ ".jar!") by exact F.
  rewrite (replace_snoc_noslash _ _ ".zip!") by exact F.
  now rewrite endsWith_app_same by reflexivity.
Qed.

Lemma archiveEncode_nonempty q : q <> "" -> _archiveEncode posix q <> "".
Proof.
  intros N E. apply N.
  assert (T : take 1 (_archiveEncode posix q) = take 1 q).
  { rewrite archiveEncode_unfold. destruct (hasChar "!" q); [|reflexivity].
    rewrite (take_replace_extend _ ".zip!") by (simpl; lia).
    apply (take_replace_extend _ ".jar!"). simpl; lia. }
  rewrite E in T. destruct q; [reflexivity | discriminate].
Qed.

(** What [join] makes of a path that [normalize] returns unchanged: the path,
    a separator unless the path ends with one, and the name. *)
Lemma decode_join_child q :
  q <> "" ->
  _archiveDecode posix (Posix.normalize (_archiveEncode posix q)) = q ->
  q <> "." -> q <> "./" ->
  _archiveDecode posix (Posix.join [_archiveEncode posix q; "x"])
  = q ++ (if endsWith q "/" then "x" else "/x").
Proof.
  intros Nq D N1 N2.
  pose proof (archiveEncode_nonempty q Nq) as Ne.
  set (e := _archiveEncode posix q) in *.
  assert (J : Posix.join [e; "x"] = Posix.normalize (e ++ "/x")).
  { unfold Posix.join. cbn [filter]. apply String.eqb_neq in Ne.
    rewrite Ne. reflexivity. }
  rewrite J.
  assert (M1 : Posix.normalize e <> ".")
    by (intros M; rewrite M in D; apply N1; symmetry; exact D).
  assert (M2 : Posix.normalize e <> "./")
    by (intros M; rewrite M in D; apply N2; symmetry; exact D).
  destruct (posix_normalize_child e Ne M1 M2) as (n0 & C & Jx).
  rewrite Jx.
  replace (n0 ++ "/x") with ((n0 ++ "/") ++ "x") by now rewrite append_assoc.
  rewrite archiveDecode_snoc_x, hasChar_app.
  change (hasChar "!" "/") with false. rewrite orb_false_r.
  destruct (hasChar "!" (Posix.normalize e)) eqn:B.
  - pose proof (decode_untrimmed q D B) as U. fold e in U.
    rewrite archiveDecode_unfold, B in D. change (sep posix) with "/" in D.
    unfold _trimArchiveSuffix in D. rewrite U in D.
    destruct C as [(C & T) | C]; rewrite C in *.
    + rewrite B.
      destruct (decode_replaces_snoc_slash n0) as [O | (O & E)].
      * pose proof (decode_replaces_last n0 T) as L. rewrite D in L.
        rewrite O, D, L. now rewrite append_assoc.
      * rewrite E in U. discriminate.
    + rewrite hasChar_app in B. change (hasChar "!" "/") with false in B.
      rewrite orb_false_r in B. rewrite B.
      destruct (decode_replaces_snoc_slash n0) as [O | (O & E)].
      * assert (L : endsWith q "/" = true)
          by (rewrite <- D, O; apply endsWith_snoc).
        now rewrite D, L.
      * rewrite O in U. rewrite E in U. discriminate.
  - rewrite archiveDecode_plain in D by exact B.
    destruct C as [(C & T) | C]; rewrite C in *.
    + rewrite B, <- D, T. now rewrite append_assoc.
    + rewrite hasChar_app in B. change (hasChar "!" "/") with false in B.
      rewrite orb_false_r in B. rewrite B, <- D. now rewrite endsWith_snoc.
Qed.

(** ** The guards on the joined child *)

Lemma pathModuleFor_snoc_posix u d :
  _pathModuleFor u = Ok posix -> Ascii.eqb d "\" = false ->
  _endsWithArchiveSeparator (u ++ String d "") = false ->
  _pathModuleFor (u ++ String d "") = Ok posix.
Proof.
  intros H Hd E. unfold _pathModuleFor in *. rewrite E.
  destruct (_endsWithArchiveSeparator u); [discriminate|].
  cbn [negb invariant bind] in *.
  change (sep posix) with "/" in *. change (sep win32) with "\" in *.
  rewrite !indexOf_0_gt in *.
  destruct (startsWith u "/") eqn:S1.
  { now rewrite (startsWith_app_r _ _ _ S1). }
  destruct (find u "://") eqn:F1.
  { destruct (startsWith (u ++ String d "") "/"); [reflexivity|].
    destruct (find (u ++ String d "") "://") eqn:F2; [reflexivity|].
    exfalso. apply (find_app_mono u (String d "") "://");
      [rewrite F1; discriminate | exact F2]. }
  destruct (startsWith (u ++ String d "") "/"); [reflexivity|].
  destruct (find (u ++ String d "") "://"); [reflexivity|].
  rewrite drive_snoc.
  destruct (String.eqb (charAt u 1) ":" && String.eqb (charAt u 2) "\");
    [discriminate|].
  rewrite Hd, andb_false_r. cbn [orb].
  rewrite !split_length_snoc, Hd.
  destruct (List.length (split u "/") <? List.length (split u "\"))%nat eqn:C;
    [discriminate|].
  apply Nat.ltb_ge in C.
  destruct (Ascii.eqb d "/").
  - replace (S (List.length (split u "/")) <? List.length (split u "\"))%nat
      with false by (symmetry; apply Nat.ltb_ge; lia).
    reflexivity.
  - apply Nat.ltb_ge in C. now rewrite C.
Qed.

Lemma endsWithArchiveSeparator_child p :
  _endsWithArchiveSeparator (p ++ (if endsWith p "/" then "x" else "/x")) = false.
Proof.
  destruct (endsWith p "/"); [apply endsWithArchiveSeparator_x|].
  replace (p ++ "/x") with ((p ++ "/") ++ "x") by now rewrite append_assoc.
  apply endsWithArchiveSeparator_x.
Qed.

Lemma pathModuleFor_child p :
  _pathModuleFor p = Ok posix ->
  _pathModuleFor (p ++ (if endsWith p "/" then "x" else "/x")) = Ok posix.
Proof.
  intros H. destruct (endsWith p "/").
  - apply pathModuleFor_snoc_posix;
      [exact H | reflexivity | apply endsWithArchiveSeparator_x].
  - replace (p ++ "/x") with ((p ++ "/") ++ "x") by now rewrite append_assoc.
    apply pathModuleFor_snoc_posix;
      [apply (pathModuleFor_snoc_sep p posix H) | reflexivity
      | apply endsWithArchiveSeparator_x].
Qed.

(** The child does not start with a scheme such as [atom://] unless the
    parent does. *)
Lemma scheme_child p pat :
  startsWith p pat = false -> hasChar "x" pat = false ->
  endsWith pat "//" = true ->
  startsWith (p ++ (if endsWith p "/" then "x" else "/x")) pat = false.
Proof.
  intros S1 X Q.
  destruct (startsWith (p ++ (if endsWith p "/" then "x" else "/x")) pat) eqn:S2;
    [|reflexivity].
  exfalso.
  destruct (startsWith_app_cases _ _ _ S2) as [S3 | (Lt & S3)]; [congruence|].
  pose proof (startsWith_elim _ _ S3) as E3.
  pose proof (startsWith_elim _ _ S2) as E2.
  set (r := drop (String.length p) pat) in E3.
  set (t := drop (String.length pat) _) in E2.
  clearbody r t.
  assert (Nr : r <> "").
  { intros Er. apply (f_equal String.length) in E3.
    rewrite Er, append_nil_r in E3. lia. }
  rewrite E3, !append_assoc in E2. apply append_cancel_l in E2.
  assert (Xr : hasChar "x" r = false).
  { rewrite E3, hasChar_app in X. now apply orb_false_iff in X. }
  destruct (endsWith p "/") eqn:T.
  - destruct r as [|d r]; [congruence|]. simpl in E2. injection E2 as <- _.
    discriminate.
  - destruct r as [|d [|d' r]]; [congruence | |].
    + simpl in E2. injection E2 as <- _.
      rewrite E3 in Q. apply endsWith_elim in Q.
      set (a := take _ _) in Q. clearbody a.
      change (a ++ "//") with (a ++ "/" ++ "/") in Q.
      rewrite <- append_assoc in Q. apply append_cancel_r in Q.
      rewrite Q, endsWith_snoc in T. discriminate.
    + simpl in E2. injection E2 as <- E2.
      assert (d' = "x"%char) by (destruct r; now inversion E2).
      subst d'. discriminate.
Qed.

Lemma testForIllegalUri_child p :
  _testForIllegalUri p = Ok tt ->
  _testForIllegalUri (p ++ (if endsWith p "/" then "x" else "/x")) = Ok tt.
Proof.
  intros T. apply testForIllegalUri_ok in T as [A _].
  apply testForIllegalUri_ok. split.
  - apply scheme_child; [exact A | reflexivity | reflexivity].
  - apply endsWithArchiveSeparator_child.
Qed.

(** The parent contains the child. *)
Lemma contains_child p :
  _testForIllegalUri p = Ok tt -> _pathModuleFor p = Ok posix ->
  contains p (p ++ (if endsWith p "/" then "x" else "/x")) = Ok true.
Proof.
  intros T M.
  pose proof (testForIllegalUri_child p T) as Tc.
  pose proof (pathModuleFor_child p M) as Mc.
  unfold contains. rewrite T, Tc. cbn [bind].
  replace (String.length (p ++ (if endsWith p "/" then "x" else "/x"))
           <? String.length p)%nat with false
    by (symmetry; apply Nat.ltb_ge; rewrite length_append; lia).
  rewrite startsWith_app. cbn [negb].
  unfold endsWithSeparator. rewrite T, M. cbn [bind].
  change (sep posix) with "/".
  revert Mc. destruct (endsWith p "/") eqn:E; intros Mc; [reflexivity|].
  replace (String.length p =? String.length (p ++ "/x"))%nat with false
    by (symmetry; apply Nat.eqb_neq; rewrite length_append; simpl; lia).
  cbn [orb]. rewrite Mc. cbn [bind]. change (sep posix) with "/".
  rewrite drop_app. apply f_equal. apply orb_true_r.
Qed.

(** ** [join] on a normalized parent *)

Lemma decode_replaces_plain m :
  hasChar "!" m = false ->
  replace (replace m (".jar!" ++ "/") ".jar!") (".zip!" ++ "/") ".zip!" = m.
Proof.
  intros B.
  assert (A : forall q, hasChar "!" q = true ->
                        replace m (q ++ "/") q = m).
  { intros q Hq. apply replace_absent. intros k.
    destruct (startsWith (drop k m) (q ++ "/")) eqn:S1; [|reflexivity].
    apply (startsWith_hasChar "!") in S1;
      [|now rewrite hasChar_app, Hq].
    rewrite hasChar_drop in S1 by exact B. discriminate. }
  now rewrite !A by reflexivity.
Qed.

(** Decoding [nuclide://h/...x] decodes the path and keeps the hostname,
    unless the hostname ends like an archive boundary. *)
Lemma archiveDecode_remote_child h m :
  hasChar "/" h = false ->
  endsWith h ".jar!" = false -> endsWith h ".zip!" = false ->
  startsWith m "/" = true ->
  _archiveDecode posix ("nuclide://" ++ h ++ m ++ "x")
  = "nuclide://" ++ h ++ _archiveDecode posix (m ++ "x").
Proof.
  intros Fh Ej Ez Am.
  replace ("nuclide://" ++ h ++ m ++ "x") with (("nuclide://" ++ h ++ m) ++ "x")
    by now rewrite !append_assoc.
  rewrite !archiveDecode_snoc_x.
  assert (R : replace (replace ("nuclide://" ++ h ++ m) (".jar!" ++ "/") ".jar!")
                (".zip!" ++ "/") ".zip!"
              = "nuclide://" ++ h
                ++ replace (replace m (".jar!" ++ "/") ".jar!")
                     (".zip!" ++ "/") ".zip!").
  { destruct m as [|c rest]; [discriminate|].
    rewrite startsWith_cons in Am. apply andb_true_iff in Am as [Ec _].
    apply Ascii.eqb_eq in Ec. subst c.
    replace ("nuclide://" ++ h ++ String "/" rest)
      with (("nuclide://" ++ h ++ "/") ++ rest)
      by (rewrite !append_assoc; reflexivity).
    rewrite (replace_after_prefix ("nuclide://" ++ h ++ "/") rest (".jar!" ++ "/"))
      by (apply no_boundary_before_path; auto).
    rewrite (replace_after_prefix ("nuclide://" ++ h ++ "/") _ (".zip!" ++ "/"))
      by (apply no_boundary_before_path; auto).
    rewrite (replace_miss "/" rest) by reflexivity.
    rewrite (replace_miss "/") by reflexivity.
    rewrite !append_assoc. reflexivity. }
  destruct (hasChar "!" ("nuclide://" ++ h ++ m)) eqn:B.
  - rewrite R. destruct (hasChar "!" m) eqn:Bm;
      [|rewrite (decode_replaces_plain m Bm)]; now rewrite !append_assoc.
  - rewrite !hasChar_app in B. apply orb_false_iff in B as [_ B].
    apply orb_false_iff in B as [_ B]. rewrite B. now rewrite !append_assoc.
Qed.

End JoinedChild.

Section Joined.
Import JSFacts.
Context {node : Node}.

Lemma join_child_local p :
  isRemote p = false -> _testForIllegalUri p = Ok tt ->
  _pathModuleFor p = Ok posix ->
  normalize p = Ok p -> p <> "." -> p <> "./" ->
  join p ["x"] = Ok (p ++ (if JS.endsWith p "/" then "x" else "/x")).
Proof.
  intros R T M N N1 N2. unfold normalize in N. rewrite T, M, R in N.
  cbn [bind path_normalize] in N. injection N as N.
  assert (Nq : p <> "") by (intros ->; vm_compute in N; discriminate).
  unfold join. rewrite T, M, R.
  cbn [bind path_join _archiveEncodeArrayInPlace map]. f_equal.
  change (_archiveEncode posix "x") with "x".
  apply decode_join_child; assumption.
Qed.

Lemma join_child_remote p :
  isRemote p = true -> wellFormed p = true -> normalize p = Ok p ->
  JS.endsWith (hostnameOf p) ".jar!" = false ->
  JS.endsWith (hostnameOf p) ".zip!" = false ->
  join p ["x"] = Ok (p ++ (if JS.endsWith p "/" then "x" else "/x")).
Proof.
  intros R W N Ej Ez.
  destruct (wellFormed_elim p W) as (T & _ & E & P).
  destruct (P R) as (u & Pu).
  destruct (parse_remote p u R Pu) as (_ & Nh & Sp & Ax & _).
  assert (Fh : JS.hasChar "/" (hostnameOf p) = false) by apply hasChar_upTo.
  set (h := hostnameOf p) in *. set (x := path u) in *.
  assert (Nx : x <> "") by (intros Q; rewrite Q in Ax; discriminate).
  unfold normalize in N. rewrite T, (pathModuleFor_remote p R E), R in N.
  cbn [bind] in N. rewrite (parseRemoteUri_ok p u R Pu) in N.
  cbn [bind remote_path remote_hostname path_normalize] in N.
  fold h x in N. unfold createRemoteUri in N.
  destruct (String.eqb
              (_archiveDecode posix (Posix.normalize (_archiveEncode posix x)))
              ""); [discriminate|].
  cbn [negb invariant bind] in N. injection N as N.
  assert (N' : "nuclide://" ++ h
               ++ _archiveDecode posix (Posix.normalize (_archiveEncode posix x))
               = "nuclide://" ++ h ++ x) by (rewrite <- Sp; exact N).
  clear N. do 2 apply append_cancel_l in N'. rename N' into N.
  assert (N1 : x <> ".") by (intros Q; rewrite Q in Ax; discriminate).
  assert (N2 : x <> "./") by (intros Q; rewrite Q in Ax; discriminate).
  pose proof (decode_join_child x Nx N N1 N2) as D.
  pose proof (archiveEncode_nonempty x Nx) as Ne.
  pose proof (archiveEncode_absolute posix x Ax) as Ae.
  set (e := _archiveEncode posix x) in *.
  assert (J : exists m, Posix.join [e; "x"] = m ++ "x"
                        /\ JS.startsWith m "/" = true).
  { assert (Jn : Posix.join [e; "x"] = Posix.normalize (e ++ "/x")).
    { unfold Posix.join. cbn [filter]. apply String.eqb_neq in Ne.
      rewrite Ne. reflexivity. }
    pose proof (posix_normalize_absolute e Ae) as An.
    unfold Posix.isAbsolute in An.
    destruct (posix_normalize_child e Ne) as (n0 & C & Jx);
      [intros Q; rewrite Q in An; discriminate
      |intros Q; rewrite Q in An; discriminate|].
    exists (n0 ++ "/"). split; [now rewrite Jn, Jx, append_assoc|].
    destruct C as [(C & _) | C]; rewrite C in An.
    - now apply startsWith_app_r.
    - exact An. }
  destruct J as (m & Jm & Am).
  unfold join. rewrite T, (pathModuleFor_remote p R E), R. cbn [bind].
  rewrite (parseRemoteUri_ok p u R Pu).
  cbn [bind remote_path remote_hostname path_join
       _archiveEncodeArrayInPlace map].
  fold h x e. change (_archiveEncode posix "x") with "x".
  rewrite Jm in D |- *. unfold createRemoteUri.
  replace (String.eqb (m ++ "x") "") with false
    by (symmetry; apply String.eqb_neq; destruct m; discriminate).
  cbn [negb invariant bind]. f_equal.
  rewrite archiveDecode_remote_child by assumption.
  rewrite D.
  assert (Ep : JS.endsWith p "/" = JS.endsWith x "/").
  { transitivity (JS.endsWith ("nuclide://" ++ h ++ x) "/");
      [now rewrite <- Sp|].
    rewrite (endsWith_app_nonempty "nuclide://" (h ++ x) "/")
      by (destruct h; [congruence | discriminate]).
    now apply endsWith_app_nonempty. }
  rewrite Ep.
  transitivity (("nuclide://" ++ h ++ x)
                ++ (if JS.endsWith x "/" then "x" else "/x"));
    [now rewrite !append_assoc | now rewrite <- Sp].
Qed.

End Joined.

(* ================================================================== *)
(** * C2: [contains] *)
(* ================================================================== *)

(** C2 (as amended): for well-formed [parent] and [child], [contains] is true
    for [child = parent]; false when [child] is more than one character
    shorter; true exactly when [child] is [parent], [parent] without its one
    trailing separator, or a proper descendant with a separator or archive
    separator at the boundary, unless [parent] is three characters long and
    [child] holds [!] at position 3; true for a [child] that is [parent]
    followed by the separator of its dialect and [x]; and for a [parent] of
    the POSIX dialect other than [.] and [./] that [normalize] returns
    unchanged (when remote, with a hostname that does not end in [.jar!] or
    [.zip!]), [join parent ["x"]] is [parent], a separator unless [parent]
    ends with one, and [x], and [parent] contains it. *)
Theorem contains_spec {node : Node} (parent child : string) :
  wellFormed parent = true -> wellFormed child = true ->
  contains parent parent = Ok true
  /\ (String.length child + 1 < String.length parent ->
      contains parent child = Ok false)
  /\ (String.length parent <> 3 \/ isSeparatorChar child 3 = false ->
      contains parent child = Ok (isSameOrDescendant parent child))
  /\ (child = parent ++ sep (dialectOf child) ++ "x" ->
      contains parent child = Ok true)
  /\ (dialectOf parent = posix -> normalize parent = Ok parent ->
      parent <> "." -> parent <> "./" ->
      (isRemote parent = true ->
       JS.endsWith (hostnameOf parent) ".jar!" = false
       /\ JS.endsWith (hostnameOf parent) ".zip!" = false) ->
      join parent ["x"]
      = Ok (parent ++ (if JS.endsWith parent "/" then "x" else "/x"))
      /\ contains parent
           (parent ++ (if JS.endsWith parent "/" then "x" else "/x"))
         = Ok true)
  /\ contains "/www" "/www-base" = Ok false
  /\ contains "/www/" "/www" = Ok true.
Proof.
  intros Wp Wc. split; [now apply contains_refl|].
  split; [now apply contains_short|].
  split; [now apply contains_isSameOrDescendant|].
  split; [|split; [|split; reflexivity]].
  - intros E. apply contains_boundary; try assumption.
    + rewrite E, !JSFacts.length_append, length_sep. simpl. lia.
    + rewrite E. apply JSFacts.startsWith_app.
    + right. rewrite E at 1. rewrite JSFacts.drop_app.
      apply JSFacts.startsWith_app.
  - intros Dp N N1 N2 Hh.
    destruct (wellFormed_elim parent Wp) as (Tp & _ & Ep & _).
    pose proof (pathModuleFor_ok parent Ep) as Mp. rewrite Dp in Mp.
    split; [|now apply contains_child].
    destruct (isRemote parent) eqn:R.
    + destruct (Hh eq_refl) as [Ej Ez]. now apply join_child_remote.
    + now apply join_child_local.
Qed.

Lemma contains_spec_witness :
  wellFormed "/www" = true
  /\ wellFormed "/www/x" = true
  /\ forall node : Node,
       normalize "/www" = Ok "/www"
       /\ contains "/www" "/www" = Ok true
       /\ contains "/www" "/www/x" = Ok (isSameOrDescendant "/www" "/www/x")
       /\ join "/www" ["x"] = Ok "/www/x"
       /\ contains "/www" "/www/x" = Ok true.
Proof.
  split; [reflexivity|]. split; [reflexivity|]. intros node.
  destruct (@contains_spec node "/www" "/www/x" eq_refl eq_refl)
    as (R & _ & D & _ & J & _).
  split; [reflexivity|]. split; [exact R|]. split.
  - apply D. left. discriminate.
  - apply J; try reflexivity; discriminate.
Defined.

(** C2, as stated, fails for a parent that [join] rewrites: the joined path
    no longer starts with the parent.  This also holds for the parents [.]
    and [./], which [normalize] returns unchanged. *)
Lemma contains_join_normalized :
  wellFormed "/a/.." = true
  /\ (forall node : Node, join "/a/.." ["x"] = Ok "/x")
  /\ contains "/a/.." "/x" = Ok false
  /\ wellFormed "." = true
  /\ (forall node : Node,
        normalize "." = Ok "." /\ join "." ["x"] = Ok "x")
  /\ contains "." "x" = Ok false
  /\ wellFormed "./" = true
  /\ (forall node : Node,
        normalize "./" = Ok "./" /\ join "./" ["x"] = Ok "x")
  /\ contains "./" "x" = Ok false.
Proof. repeat split. Qed.
